(** * Cloudflare tunnel configuration manager: reconciliation core

    Shallow embedding of [cloudflare/tunnels/update_config.py]:
    the pydantic data model ([OriginRequest], [TunnelRoute], [DNSRecord],
    [RouteActions], [TunnelConfig]), the pure reconcilers
    ([compare_routes], the planning part of [sync_dns_records],
    [get_existing_dns_records], [build_cloudflare_config]) and the
    orchestration ([sync], [sync_dns_records]) as programs in a small
    trace-and-exception monad.

    Conventions.
    - A Python [dict] is an association list kept in insertion order
      (assigning to a bound key overwrites in place, a new key goes last).
    - A Python [set] of strings has no specified iteration order.  A set is
      represented by the duplicate-free list of its members in iteration
      order, and every set construction goes through the [set_iter] field of
      a [SetOrder], which may be any function returning a permutation of
      its argument.
    - Values loaded from YAML or JSON are [PyVal]s (floats are not
      represented); [py_eq] is Python's [==] on them.
    - Output is a trace of [Event]s: printed lines and remote API calls.
      The emoji or check mark that opens some messages, and the space
      after it, are left out of the string literals.
    - The remote side is given by what each call returns or raises; a
      request appears in the trace as soon as it is attempted.
    - Validation of a rule dictionary into a [TunnelRoute] follows the
      field declarations; pydantic's validators of [str] and [bool]
      values are parameters ([Validators]) of which only the treatment
      of well-typed values is assumed. *)

From Stdlib Require Import List String Ascii Bool ZArith Lia Arith.
From Stdlib Require Import Permutation DecimalString.
Import ListNotations.
Local Open Scope string_scope.
Local Open Scope list_scope.

(** ** Python values *)

Module Py.

#[warnings="-register-all"]
Inductive PyVal : Type :=
| VNone
| VBool (b : bool)
| VInt (n : Z)
| VStr (s : string)
| VList (items : list PyVal)
| VDict (items : list (string * PyVal)).

(** Insertion-ordered dictionaries with string keys. *)
Definition Dict (V : Type) : Type := list (string * V).

Fixpoint dict_get {V} (k : string) (d : Dict V) : option V :=
  match d with
  | [] => None
  | (k', v) :: d' => if String.eqb k k' then Some v else dict_get k d'
  end.

Definition dict_contains {V} (k : string) (d : Dict V) : bool :=
  match dict_get k d with Some _ => true | None => false end.

(** [d[k] = v] *)
Fixpoint dict_set {V} (k : string) (v : V) (d : Dict V) : Dict V :=
  match d with
  | [] => [(k, v)]
  | (k', v') :: d' =>
      if String.eqb k k' then (k', v) :: d' else (k', v') :: dict_set k v d'
  end.

Definition dict_keys {V} (d : Dict V) : list string := map fst d.

(** [x in l] for a list of strings. *)
Fixpoint mem (x : string) (l : list string) : bool :=
  match l with
  | [] => false
  | y :: l' => String.eqb x y || mem x l'
  end.

(** Members in order of first occurrence: the insertion history of
    [set(l)]. *)
Fixpoint dedup (l : list string) : list string :=
  match l with
  | [] => []
  | x :: l' => x :: filter (fun y => negb (String.eqb y x)) (dedup l')
  end.

Definition bool_to_Z (b : bool) : Z := if b then 1%Z else 0%Z.

(** Element-wise comparison of two lists. *)
Fixpoint all2 {A} (eq : A -> A -> bool) (xs ys : list A) : bool :=
  match xs, ys with
  | [], [] => true
  | x :: xs', y :: ys' => eq x y && all2 eq xs' ys'
  | _, _ => false
  end.

(** Python's [==].  [bool] is a subclass of [int], so [True == 1];
    lists compare element by element; dictionaries compare as maps:
    same size, and every key of the left is bound on the right to an
    equal value. *)
Fixpoint py_eq (a b : PyVal) {struct a} : bool :=
  match a, b with
  | VNone, VNone => true
  | VBool x, VBool y => Bool.eqb x y
  | VBool x, VInt n => Z.eqb (bool_to_Z x) n
  | VInt n, VBool y => Z.eqb n (bool_to_Z y)
  | VInt n, VInt m => Z.eqb n m
  | VStr s, VStr t => String.eqb s t
  | VList xs, VList ys => all2 py_eq xs ys
  | VDict xs, VDict ys =>
      Nat.eqb (List.length xs) (List.length ys)
      && forallb (fun kv => match dict_get (fst kv) ys with
                            | Some w => py_eq (snd kv) w
                            | None => false
                            end) xs
  | _, _ => false
  end.

(** Every binding of [xs] has a counterpart in [ys] related by [R]: the
    loop of dictionary comparison, as a proposition. *)
Definition bound_alike (R : PyVal -> PyVal -> bool) (xs ys : Dict PyVal) : Prop :=
  forall k v, In (k, v) xs -> exists w, dict_get k ys = Some w /\ R v w = true.

(** [dict.__eq__] on dictionaries of values, as used for
    [__pydantic_extra__]. *)
Definition dict_eq (xs ys : Dict PyVal) : bool := py_eq (VDict xs) (VDict ys).

(** Representation invariant: a dictionary binds each key once. *)
Fixpoint nodupb (l : list string) : bool :=
  match l with
  | [] => true
  | x :: l' => negb (mem x l') && nodupb l'
  end.

Fixpoint wf_val (a : PyVal) : bool :=
  match a with
  | VList xs => forallb wf_val xs
  | VDict xs => nodupb (map fst xs) && forallb (fun kv => wf_val (snd kv)) xs
  | _ => true
  end.

Definition wf_dict (d : Dict PyVal) : bool := wf_val (VDict d).

End Py.

(** ** Data model *)

Module Model.
Import Py.

(** [class OriginRequest(BaseModel)] with [extra = "allow"]: one declared
    field and the undeclared keys, kept in [__pydantic_extra__]. *)
Record OriginRequest : Type := {
  noTLSVerify : option bool;
  extra : Dict PyVal
}.

Definition optional_eq {A} (eq : A -> A -> bool) (a b : option A) : bool :=
  match a, b with
  | None, None => true
  | Some x, Some y => eq x y
  | _, _ => false
  end.

(** [BaseModel.__eq__] on two [OriginRequest]s: the field dictionaries and
    the extra dictionaries are compared with [==]. *)
Definition OriginRequest_eq (a b : OriginRequest) : bool :=
  optional_eq Bool.eqb (noTLSVerify a) (noTLSVerify b)
  && dict_eq (extra a) (extra b).

Record TunnelRoute : Type := {
  hostname : string;
  service : string;
  originRequest : option OriginRequest
}.

(** [TunnelRoute.__eq__] *)
Definition TunnelRoute_eq (self other : TunnelRoute) : bool :=
  String.eqb (hostname self) (hostname other)
  && String.eqb (service self) (service other)
  && optional_eq OriginRequest_eq (originRequest self) (originRequest other).

(** [a != b] is the negation of [__eq__]. *)
Definition TunnelRoute_ne (a b : TunnelRoute) : bool := negb (TunnelRoute_eq a b).

(** The dictionaries inside a route bind each key once. *)
Definition wf_route (r : TunnelRoute) : bool :=
  match originRequest r with
  | None => true
  | Some o => wf_dict (extra o)
  end.

Definition is_none (v : PyVal) : bool :=
  match v with VNone => true | _ => false end.

(** [model_dump(by_alias=True, exclude_none=True)] *)
Definition model_dump (o : OriginRequest) : Dict PyVal :=
  match noTLSVerify o with
  | Some b => [("noTLSVerify", VBool b)]
  | None => []
  end ++ filter (fun kv => negb (is_none (snd kv))) (extra o).

(** [TunnelRoute.to_dict].  A model instance is always truthy, so the
    [originRequest] key is emitted whenever the field is not [None]. *)
Definition to_dict (self : TunnelRoute) : Dict PyVal :=
  [("hostname", VStr (hostname self)); ("service", VStr (service self))]
  ++ match originRequest self with
     | Some o => [("originRequest", VDict (model_dump o))]
     | None => []
     end.

(** [class DNSRecord(BaseModel)] with [extra = "allow"]; [dns_extra]
    holds the undeclared keys of a listed record. *)
Record DNSRecord : Type := {
  id : option string;
  type : string;
  name : string;
  content : string;
  proxied : bool;
  ttl : Z;
  dns_extra : Dict PyVal
}.

(** [class TunnelConfig]: the list of ingress rules, each a dictionary. *)
Record TunnelConfig : Type := { ingress : list (Dict PyVal) }.

Record RouteActions : Type := {
  create : list TunnelRoute;
  update : list TunnelRoute;
  delete : list TunnelRoute
}.

Definition is_empty {A} (l : list A) : bool :=
  match l with [] => true | _ => false end.

(** [RouteActions.has_changes] *)
Definition has_changes (self : RouteActions) : bool :=
  negb (is_empty (create self) && is_empty (update self) && is_empty (delete self)).

(** *** Sets of strings *)

(** The iteration order of sets of strings.  It follows the strings'
    hashes, which differ from one interpreter process to the next, and
    the history of the table.  [set_iter l] is the order in which a set
    iterates whose members were inserted in the order [l]; all that is
    known of it is that it lists the same members. *)
Record SetOrder : Type := {
  set_iter : list string -> list string;
  set_iter_perm : forall l, Permutation (set_iter l) l
}.

Definition PySet : Type := list string.

Section Sets.
Variable O : SetOrder.

(** [set(l)] and set comprehensions *)
Definition set_of (l : list string) : PySet := set_iter O (dedup l).

(** [a - b] *)
Definition set_difference (a b : PySet) : PySet :=
  set_iter O (filter (fun x => negb (mem x b)) a).

(** [a & b].  CPython walks the operand that is not the larger one, the
    right one when both have the same size, and inserts those of its
    members that the other operand holds into a fresh set. *)
Definition set_intersection (a b : PySet) : PySet :=
  if Nat.ltb (List.length a) (List.length b)
  then set_iter O (filter (fun x => mem x b) a)
  else set_iter O (filter (fun x => mem x a) b).
End Sets.

(** *** Dictionaries filled by a loop *)

Section Assign.
Context {V : Type}.
Variable key : V -> string.

(** [for x in l: d[key(x)] = x] *)
Definition assign_all (l : list V) (d : Dict V) : Dict V :=
  fold_left (fun d x => dict_set (key x) x d) l d.

(** The element whose binding survives for [k]: the last one of [l]
    with that key. *)
Definition last_with (k : string) (l : list V) : option V :=
  find (fun x => String.eqb (key x) k) (rev l).
End Assign.

(** *** Route reconciler *)

(** [{r.hostname: r for r in routes}] *)
Definition routes_by_hostname (routes : list TunnelRoute) : Dict TunnelRoute :=
  assign_all hostname routes [].

(** [d[k]] inside a loop that appends the value; the loops below only
    visit bound keys (see [compare_routes_lookups_bound]). *)
Definition getitem {V} (k : string) (d : Dict V) : list V :=
  match dict_get k d with Some v => [v] | None => [] end.

Definition compare_routes (O : SetOrder) (local remote : list TunnelRoute)
  : RouteActions :=
  let local_dict := routes_by_hostname local in
  let remote_dict := routes_by_hostname remote in
  let local_hostnames := set_of O (dict_keys local_dict) in
  let remote_hostnames := set_of O (dict_keys remote_dict) in
  {| create :=
       flat_map (fun h => getitem h local_dict)
                (set_difference O local_hostnames remote_hostnames);
     delete :=
       flat_map (fun h => getitem h remote_dict)
                (set_difference O remote_hostnames local_hostnames);
     update :=
       flat_map (fun h =>
                   match dict_get h local_dict, dict_get h remote_dict with
                   | Some l, Some r => if TunnelRoute_ne l r then [l] else []
                   | _, _ => []
                   end)
                (set_intersection O local_hostnames remote_hostnames) |}.

(** The buckets as the specification words them: selections from the
    two inputs, in input order. *)
Definition only_in_first (other : list TunnelRoute) (r : TunnelRoute) : bool :=
  negb (mem (hostname r) (map hostname other)).

Definition differs_from (other : list TunnelRoute) (r : TunnelRoute) : bool :=
  match last_with hostname (hostname r) other with
  | Some r' => TunnelRoute_ne r r'
  | None => false
  end.

Definition reconcile_routes_in_order (desired actual : list TunnelRoute)
  : RouteActions :=
  {| create := filter (only_in_first actual) desired;
     update := filter (differs_from actual) desired;
     delete := filter (only_in_first desired) actual |}.

Definition no_actions : RouteActions :=
  {| create := []; update := []; delete := [] |}.

Definition catch_all : Dict PyVal := [("service", VStr "http_status:404")].

Definition build_cloudflare_config (routes : list TunnelRoute) : TunnelConfig :=
  {| ingress := map to_dict routes ++ [catch_all] |}.

(** *** DNS reconciler *)

(** [s.endswith(suffix)] *)
Fixpoint endswith (s suffix : string) : bool :=
  String.eqb s suffix
  || match s with
     | EmptyString => false
     | String _ s' => endswith s' suffix
     end.

Definition tunnel_suffix : string := ".cfargotunnel.com".

(** [CloudflareAPI.tunnel_domain] *)
Definition tunnel_domain (tunnel_id : string) : string := tunnel_id ++ tunnel_suffix.

(** The filter of [get_existing_dns_records]. *)
Definition is_managed (record_data : DNSRecord) : bool :=
  String.eqb (type record_data) "CNAME"
  && endswith (content record_data) tunnel_suffix.

(** The loop of [get_existing_dns_records] over a fetched listing. *)
Definition index_dns_records (result : list DNSRecord) : Dict DNSRecord :=
  fold_left
    (fun records record_data =>
       if is_managed record_data
       then dict_set (name record_data) record_data records
       else records)
    result [].

(** The managed record that counts for a name: the last record of the
    listing that passes the filter and bears that name. *)
Definition managed_record (result : list DNSRecord) (n : string)
  : option DNSRecord :=
  last_with name n (filter is_managed result).

Record DnsActions : Type := {
  dns_create : list string;
  dns_update : list string;
  dns_delete : list string
}.

Definition points_elsewhere (target : string) (existing_records : Dict DNSRecord)
           (h : string) : bool :=
  match dict_get h existing_records with
  | Some r => negb (String.eqb (content r) target)
  | None => false
  end.

(** The planning part of [sync_dns_records] (the three loops that fill
    [dns_create], [dns_update] and [dns_delete]). *)
Definition dns_plan (O : SetOrder) (routes : list TunnelRoute) (target : string)
           (existing_records : Dict DNSRecord) : DnsActions :=
  let required_hostnames := set_of O (map hostname routes) in
  let existing_hostnames := set_of O (dict_keys existing_records) in
  {| dns_create := set_difference O required_hostnames existing_hostnames;
     dns_update :=
       filter (points_elsewhere target existing_records)
              (set_intersection O required_hostnames existing_hostnames);
     dns_delete := set_difference O existing_hostnames required_hostnames |}.

Definition dns_has_changes (p : DnsActions) : bool :=
  negb (is_empty (dns_create p) && is_empty (dns_update p) && is_empty (dns_delete p)).

(** The record synthesized for creation and update. *)
Definition cname_record (h target : string) : DNSRecord :=
  {| id := None; type := "CNAME"; name := h; content := target;
     proxied := true; ttl := 1; dns_extra := [] |}.

End Model.

(** ** Orchestration *)

Module Sync.
Import Py Model.

(** Exceptions.  [HTTPError] is what [raise_for_status] raises; it carries
    the response ([status_code], [text]) and [message] is its [str].
    [OtherError] stands for every other exception class (connection
    errors and timeouts of [requests], [KeyError], validation errors, a
    missing file). *)
Inductive Exn : Type :=
| HTTPError (status_code : Z) (message text : string)
| OtherError (message : string).

(** One rule of the remote [ingress] list, already checked against the
    [TunnelRoute] schema when it carries a hostname. *)
Inductive IngressRule : Type :=
| HostRule (route : TunnelRoute)
| NoHostRule (rule : Dict PyVal).

Inductive Request : Type :=
| GetTunnelConfiguration
| UpdateTunnelConfiguration (config : TunnelConfig)
| ListDnsRecords
| CreateDnsRecord (record : DNSRecord)
| UpdateDnsRecord (record_id : string) (record : DNSRecord)
| DeleteDnsRecord (record_id : string).

Definition is_mutation (r : Request) : bool :=
  match r with
  | GetTunnelConfiguration | ListDnsRecords => false
  | _ => true
  end.

Definition is_dns_mutation (r : Request) : bool :=
  match r with
  | CreateDnsRecord _ | UpdateDnsRecord _ _ | DeleteDnsRecord _ => true
  | _ => false
  end.

Inductive Event : Type :=
| Print (line : string)
| Api (request : Request).

Definition mutating (e : Event) : bool :=
  match e with Api r => is_mutation r | Print _ => false end.

Definition dns_mutating (e : Event) : bool :=
  match e with Api r => is_dns_mutation r | Print _ => false end.

(** Outcome of a computation: a value, an exception on its way up, or
    [sys.exit(code)].  An exception that leaves [sync] is caught by
    [main], which prints it and exits with status 1. *)
Inductive Res (A : Type) : Type :=
| Ok (a : A)
| Raise (e : Exn)
| SysExit (code : Z).
Arguments Ok {A} a.
Arguments Raise {A} e.
Arguments SysExit {A} code.

Definition M (A : Type) : Type := (list Event * Res A)%type.

Definition trace {A} (m : M A) : list Event := fst m.
Definition result {A} (m : M A) : Res A := snd m.

Definition ret {A} (a : A) : M A := ([], Ok a).

Definition bind {A B} (m : M A) (f : A -> M B) : M B :=
  match result m with
  | Ok a => (trace m ++ trace (f a), result (f a))
  | Raise e => (trace m, Raise e)
  | SysExit c => (trace m, SysExit c)
  end.

Declare Scope prog_scope.
Delimit Scope prog_scope with prog.
Notation "x <- m ;; k" := (bind m (fun x => k))
  (at level 61, m at next level, right associativity) : prog_scope.
Notation "m ;; k" := (bind m (fun _ => k))
  (at level 61, right associativity) : prog_scope.
Local Open Scope prog_scope.

Definition print (line : string) : M unit := ([Print line], Ok tt).
Definition raise {A} (e : Exn) : M A := ([], Raise e).
Definition sys_exit {A} (code : Z) : M A := ([], SysExit code).

(** [try: m  except requests.exceptions.HTTPError as e: handler e] *)
Definition try_except_http {A} (m : M A) (handler : Z -> string -> string -> M A)
  : M A :=
  match result m with
  | Raise (HTTPError status message text) =>
      (trace m ++ trace (handler status message text),
       result (handler status message text))
  | _ => m
  end.

Fixpoint for_each {A} (l : list A) (body : A -> M unit) : M unit :=
  match l with
  | [] => ret tt
  | x :: l' => body x ;; for_each l' body
  end.

Definition when (c : bool) (m : M unit) : M unit := if c then m else ret tt.

(** What a call returns or raises. *)
Inductive Reply (A : Type) : Type :=
| Returns (a : A)
| Fails (e : Exn).
Arguments Returns {A} a.
Arguments Fails {A} e.

Definition reply {A} (r : Reply A) : Res A :=
  match r with Returns a => Ok a | Fails e => Raise e end.

(** The remote side as seen through [class CloudflareAPI]: the tunnel
    identifier and the outcome of each call.  For the configuration read,
    [None] is a response whose [result] is empty or missing, [Some rules]
    one whose [result.config.ingress] is [rules]. *)
Record CloudflareAPI : Type := {
  tunnel_id : string;
  tunnel_configuration : Reply (option (list IngressRule));
  dns_listing : Reply (list DNSRecord);
  mutation_error : Request -> option Exn
}.

(** [class TunnelConfigManager]; [config_file] is what reading and
    validating the file at [config_path] gives. *)
Record TunnelConfigManager : Type := {
  config_file : Reply (list TunnelRoute);
  api : CloudflareAPI;
  manage_dns : bool
}.

Definition nl : string := String (ascii_of_nat 10) EmptyString.

Definition str_of_nat (n : nat) : string := NilZero.string_of_uint (Nat.to_uint n).

Section Calls.
Variable self : CloudflareAPI.

Definition get_tunnel_configuration : M (option (list IngressRule)) :=
  ([Api GetTunnelConfiguration], reply (tunnel_configuration self)).

Definition list_dns_records : M (list DNSRecord) :=
  ([Api ListDnsRecords], reply (dns_listing self)).

Definition mutate (r : Request) : M unit :=
  ([Api r],
   match mutation_error self r with
   | None => Ok tt
   | Some e => Raise e
   end).

Definition update_tunnel_configuration (config : TunnelConfig) : M unit :=
  mutate (UpdateTunnelConfiguration config).
Definition create_dns_record (record : DNSRecord) : M unit :=
  mutate (CreateDnsRecord record).
Definition update_dns_record (record_id : string) (record : DNSRecord) : M unit :=
  mutate (UpdateDnsRecord record_id record).
Definition delete_dns_record (record_id : string) : M unit :=
  mutate (DeleteDnsRecord record_id).
End Calls.

(** [requests.Response.__bool__] is [self.ok]. *)
Definition response_truthy (status_code : Z) : bool := (status_code <? 400)%Z.

(** Truthiness of [existing.id]. *)
Definition id_truthy (i : option string) : option string :=
  match i with
  | Some s => if String.eqb s "" then None else Some s
  | None => None
  end.

Definition routes_of_rules (ingress_rules : list IngressRule) : list TunnelRoute :=
  flat_map (fun rule => match rule with
                        | HostRule r => [r]
                        | NoHostRule _ => []
                        end) ingress_rules.

Section Manager.
Variable self : TunnelConfigManager.
Variable O : SetOrder.

Definition load_local_config : M (list TunnelRoute) :=
  ([], reply (config_file self)).

Definition get_cloudflare_routes : M (list TunnelRoute) :=
  try_except_http
    (response <- get_tunnel_configuration (api self) ;;
     match response with
     | None =>
         print "Warning: No tunnel configuration found. Will create new configuration." ;;
         ret []
     | Some ingress_rules => ret (routes_of_rules ingress_rules)
     end)
    (fun status message text =>
       if response_truthy status && (status =? 404)%Z
       then print "Warning: Tunnel configuration not found. Will create new configuration." ;;
            ret []
       else raise (HTTPError status message text)).

Definition get_existing_dns_records : M (Dict DNSRecord) :=
  try_except_http
    (response <- list_dns_records (api self) ;;
     ret (index_dns_records response))
    (fun status message text =>
       print ("Warning: Failed to fetch DNS records: " ++ message) ;;
       ret []).

Definition target : string := tunnel_domain (tunnel_id (api self)).

(** The three "planned actions" blocks of [sync_dns_records]. *)
Definition dns_report (p : DnsActions) : M unit :=
  when (negb (is_empty (dns_create p)))
    (print (nl ++ "DNS Records to CREATE ("
               ++ str_of_nat (List.length (dns_create p)) ++ "):") ;;
     for_each (dns_create p) (fun h => print ("  + " ++ h ++ " -> " ++ target))) ;;
  when (negb (is_empty (dns_update p)))
    (print (nl ++ "DNS Records to UPDATE ("
               ++ str_of_nat (List.length (dns_update p)) ++ "):") ;;
     for_each (dns_update p) (fun h => print ("  ~ " ++ h ++ " -> " ++ target))) ;;
  when (negb (is_empty (dns_delete p)))
    (print (nl ++ "DNS Records to DELETE ("
               ++ str_of_nat (List.length (dns_delete p)) ++ "):") ;;
     for_each (dns_delete p) (fun h => print ("  - " ++ h))).

Definition lookup_record (existing_records : Dict DNSRecord) (h : string)
  : M DNSRecord :=
  match dict_get h existing_records with
  | Some r => ret r
  | None => raise (OtherError "KeyError")
  end.

Definition dns_create_step (h : string) : M unit :=
  create_dns_record (api self) (cname_record h target) ;;
  print ("  Created DNS record for " ++ h).

Definition dns_update_step (existing_records : Dict DNSRecord) (h : string)
  : M unit :=
  existing <- lookup_record existing_records h ;;
  match id_truthy (id existing) with
  | Some i =>
      update_dns_record (api self) i (cname_record h target) ;;
      print ("  Updated DNS record for " ++ h)
  | None => ret tt
  end.

Definition dns_delete_step (existing_records : Dict DNSRecord) (h : string)
  : M unit :=
  existing <- lookup_record existing_records h ;;
  match id_truthy (id existing) with
  | Some i =>
      delete_dns_record (api self) i ;;
      print ("  Deleted DNS record for " ++ h)
  | None => ret tt
  end.

(** The [try] block of [sync_dns_records]. *)
Definition dns_apply (existing_records : Dict DNSRecord) (p : DnsActions)
  : M unit :=
  for_each (dns_create p) dns_create_step ;;
  for_each (dns_update p) (dns_update_step existing_records) ;;
  for_each (dns_delete p) (dns_delete_step existing_records) ;;
  print "DNS records synchronized successfully".

Definition report_http_error (what : string)
           (status : Z) (message text : string) : M unit :=
  print (what ++ message) ;;
  print ("Response: " ++ text) ;;
  sys_exit 1.

Definition sync_dns_records (routes : list TunnelRoute) (dry_run : bool)
  : M unit :=
  if negb (manage_dns self) then ret tt
  else
    print (nl ++ "Synchronizing DNS records...") ;;
    existing_records <- get_existing_dns_records ;;
    let p := dns_plan O routes target existing_records in
    dns_report p ;;
    if negb (dns_has_changes p)
    then print "DNS records are already in sync"
    else if dry_run then ret tt
    else try_except_http (dns_apply existing_records p)
                         (report_http_error "Error updating DNS records: ").

(** The three "planned actions" blocks of [sync]. *)
Definition route_line (mark : string) (route : TunnelRoute) : string :=
  mark ++ hostname route ++ " -> " ++ service route.

Definition route_report (actions : RouteActions) : M unit :=
  when (negb (is_empty (create actions)))
    (print (nl ++ "Routes to CREATE ("
               ++ str_of_nat (List.length (create actions)) ++ "):") ;;
     for_each (create actions) (fun r => print (route_line "  + " r))) ;;
  when (negb (is_empty (update actions)))
    (print (nl ++ "Routes to UPDATE ("
               ++ str_of_nat (List.length (update actions)) ++ "):") ;;
     for_each (update actions) (fun r => print (route_line "  ~ " r))) ;;
  when (negb (is_empty (delete actions)))
    (print (nl ++ "Routes to DELETE ("
               ++ str_of_nat (List.length (delete actions)) ++ "):") ;;
     for_each (delete actions) (fun r => print (route_line "  - " r))).

Definition apply_routes (local_routes : list TunnelRoute) : M unit :=
  print (nl ++ "Applying changes to Cloudflare...") ;;
  let new_config := build_cloudflare_config local_routes in
  try_except_http
    (update_tunnel_configuration (api self) new_config ;;
     print "Successfully updated Cloudflare tunnel configuration")
    (report_http_error "Error updating configuration: ").

(** The branch of [sync] that follows the report. *)
Definition apply_phase (actions : RouteActions)
           (local_routes : list TunnelRoute) (dry_run : bool) : M unit :=
  if negb (has_changes actions)
  then print (nl ++ "Configuration is already in sync. No changes needed.")
  else if dry_run
       then print (nl ++ "DRY RUN - No changes will be applied")
       else apply_routes local_routes.

Definition sync (dry_run : bool) : M unit :=
  print "Loading local configuration..." ;;
  local_routes <- load_local_config ;;
  print ("Found " ++ str_of_nat (List.length local_routes)
                  ++ " routes in local config") ;;
  print (nl ++ "Fetching current Cloudflare configuration...") ;;
  remote_routes <- get_cloudflare_routes ;;
  print ("Found " ++ str_of_nat (List.length remote_routes)
                  ++ " routes in Cloudflare") ;;
  print (nl ++ "Analyzing differences...") ;;
  let actions := compare_routes O local_routes remote_routes in
  route_report actions ;;
  apply_phase actions local_routes dry_run ;;
  sync_dns_records local_routes dry_run.
End Manager.

(** *** Reading traces *)

(** The API requests of a trace, in order. *)
Definition calls (t : list Event) : list Request :=
  flat_map (fun e => match e with Api r => [r] | Print _ => [] end) t.

Definition is_config_update (r : Request) : bool :=
  match r with UpdateTunnelConfiguration _ => true | _ => false end.

Definition printed_in (line : string) (t : list Event) : bool :=
  existsb (fun e => match e with
                    | Print l => String.eqb l line
                    | Api _ => false
                    end) t.

(** [line] is printed before the first event that [stop] selects. *)
Fixpoint printed_before (stop : Event -> bool) (line : string) (t : list Event)
  : bool :=
  match t with
  | [] => false
  | e :: t' =>
      if stop e then false
      else match e with
           | Print l => String.eqb l line || printed_before stop line t'
           | Api _ => printed_before stop line t'
           end
  end.

(** The dictionary [get_existing_dns_records] returns when it returns. *)
Definition existing_records_of (self : TunnelConfigManager) : Dict DNSRecord :=
  match dns_listing (api self) with
  | Returns records => index_dns_records records
  | Fails _ => []
  end.

(** The requests a complete DNS application makes: creations, then
    updates, then deletions, a record without usable id giving none. *)
Definition update_call (target : string) (existing_records : Dict DNSRecord)
           (h : string) : list Request :=
  match dict_get h existing_records with
  | Some r => match id_truthy (id r) with
              | Some i => [UpdateDnsRecord i (cname_record h target)]
              | None => []
              end
  | None => []
  end.

Definition delete_call (existing_records : Dict DNSRecord) (h : string)
  : list Request :=
  match dict_get h existing_records with
  | Some r => match id_truthy (id r) with
              | Some i => [DeleteDnsRecord i]
              | None => []
              end
  | None => []
  end.

Definition dns_calls (target : string) (existing_records : Dict DNSRecord)
           (p : DnsActions) : list Request :=
  map (fun h => CreateDnsRecord (cname_record h target)) (dns_create p)
  ++ flat_map (update_call target existing_records) (dns_update p)
  ++ flat_map (delete_call existing_records) (dns_delete p).

(** [l] is an initial segment of [l']. *)
Definition prefix_of {A} (l l' : list A) : Prop := exists rest, l' = l ++ rest.

(** [m] makes the requests [cs] in order, possibly stopping early when
    it does not end normally. *)
Definition issues {A} (m : M A) (cs : list Request) : Prop :=
  prefix_of (calls (trace m)) cs
  /\ forall a, result m = Ok a -> calls (trace m) = cs.

(** What the two reads give the rest of the run when they succeed. *)
Definition local_routes_of (self : TunnelConfigManager) : list TunnelRoute :=
  match config_file self with
  | Returns routes => routes
  | Fails _ => []
  end.

Definition remote_routes_of (self : TunnelConfigManager) : list TunnelRoute :=
  match tunnel_configuration (api self) with
  | Returns (Some ingress_rules) => routes_of_rules ingress_rules
  | _ => []
  end.

(** The requests of a complete run, in order. *)
Definition expected_calls (self : TunnelConfigManager) (O : SetOrder)
           (dry_run : bool) : list Request :=
  let local := local_routes_of self in
  let actions := compare_routes O local (remote_routes_of self) in
  let existing := existing_records_of self in
  let p := dns_plan O local (target self) existing in
  [GetTunnelConfiguration]
  ++ (if has_changes actions && negb dry_run
      then [UpdateTunnelConfiguration (build_cloudflare_config local)]
      else [])
  ++ (if manage_dns self
      then ListDnsRecords
           :: (if dry_run then [] else dns_calls (target self) existing p)
      else []).

(** What a run has written and requested by the time the two reads have
    succeeded and the route report is out. *)
Definition report_head (self : TunnelConfigManager)
           (local remote : list TunnelRoute) (actions : RouteActions)
  : list Event :=
  [Print "Loading local configuration...";
   Print ("Found " ++ str_of_nat (List.length local) ++ " routes in local config");
   Print (nl ++ "Fetching current Cloudflare configuration...")]
  ++ trace (get_cloudflare_routes self)
  ++ [Print ("Found " ++ str_of_nat (List.length remote) ++ " routes in Cloudflare");
      Print (nl ++ "Analyzing differences...")]
  ++ trace (route_report actions).

(** The lines of the two reports. *)
Definition bucket_lines {A} (header : string) (line : A -> string)
           (items : list A) : list string :=
  if is_empty items then [] else header :: map line items.

Definition route_report_lines (actions : RouteActions) : list string :=
  bucket_lines (nl ++ "Routes to CREATE ("
                   ++ str_of_nat (List.length (create actions)) ++ "):")
               (route_line "  + ") (create actions)
  ++ bucket_lines (nl ++ "Routes to UPDATE ("
                      ++ str_of_nat (List.length (update actions)) ++ "):")
                  (route_line "  ~ ") (update actions)
  ++ bucket_lines (nl ++ "Routes to DELETE ("
                      ++ str_of_nat (List.length (delete actions)) ++ "):")
                  (route_line "  - ") (delete actions).

Definition dns_report_lines (target : string) (p : DnsActions) : list string :=
  bucket_lines (nl ++ "DNS Records to CREATE ("
                   ++ str_of_nat (List.length (dns_create p)) ++ "):")
               (fun h => ("  + " ++ h ++ " -> " ++ target)%string) (dns_create p)
  ++ bucket_lines (nl ++ "DNS Records to UPDATE ("
                      ++ str_of_nat (List.length (dns_update p)) ++ "):")
                  (fun h => ("  ~ " ++ h ++ " -> " ++ target)%string) (dns_update p)
  ++ bucket_lines (nl ++ "DNS Records to DELETE ("
                      ++ str_of_nat (List.length (dns_delete p)) ++ "):")
                  (fun h => ("  - " ++ h)%string) (dns_delete p).

End Sync.

(** ** Sample iteration orders and inputs *)

Module Samples.
Import Py Model Sync.

(** A set that happens to iterate in insertion order. *)
Definition insertion_order : SetOrder :=
  {| set_iter := fun l => l; set_iter_perm := @Permutation_refl string |}.

(** A set that iterates in descending order of its members, whatever
    the insertion history (as a hash table whose slots follow the
    members' hashes would). *)
Fixpoint insert_desc (x : string) (l : list string) : list string :=
  match l with
  | [] => [x]
  | y :: l' => if String.leb y x then x :: l else y :: insert_desc x l'
  end.

Definition sort_desc (l : list string) : list string :=
  fold_right insert_desc [] l.

Lemma insert_desc_perm x l : Permutation (insert_desc x l) (x :: l).
Proof.
  induction l as [|y l IH]; simpl; [reflexivity|].
  destruct (String.leb y x); [reflexivity|].
  rewrite IH. apply perm_swap.
Qed.

Lemma sort_desc_perm l : Permutation (sort_desc l) l.
Proof.
  induction l as [|x l IH]; simpl; [constructor|].
  rewrite insert_desc_perm. now constructor.
Qed.

Definition descending_order : SetOrder :=
  {| set_iter := sort_desc; set_iter_perm := sort_desc_perm |}.

Definition route (h s : string) : TunnelRoute :=
  {| hostname := h; service := s; originRequest := None |}.

Definition route_a : TunnelRoute := route "a.example.com" "http://10.0.0.1:8080".
Definition route_a' : TunnelRoute := route "a.example.com" "http://10.0.0.1:9090".
Definition route_b : TunnelRoute := route "b.example.com" "http://10.0.0.2:8080".
Definition route_old : TunnelRoute := route "old.example.com" "http://10.0.0.9:80".

Definition with_options (r : TunnelRoute) (v : option bool) (m : Dict PyVal)
  : TunnelRoute :=
  {| hostname := hostname r; service := service r;
     originRequest := Some {| noTLSVerify := v; extra := m |} |}.

Definition options_ab : Dict PyVal := [("a", VInt 1); ("b", VInt 2)].
Definition options_ba : Dict PyVal := [("b", VInt 2); ("a", VInt 1)].

(** A zone listing: a CNAME to another tunnel for [a], an address record
    for [b], a CNAME to this tunnel for [z]. *)
Definition sample_listing : list DNSRecord :=
  [ {| id := Some "1"; type := "CNAME"; name := "a.example.com";
       content := "X.cfargotunnel.com"; proxied := true; ttl := 1;
       dns_extra := [] |};
    {| id := Some "2"; type := "A"; name := "b.example.com";
       content := "192.0.2.1"; proxied := false; ttl := 300;
       dns_extra := [] |};
    {| id := Some "3"; type := "CNAME"; name := "z.example.com";
       content := "T.cfargotunnel.com"; proxied := true; ttl := 1;
       dns_extra := [] |} ].

(** A remote side with no tunnel configuration and no DNS record yet,
    where every request succeeds. *)
Definition fresh_api : CloudflareAPI :=
  {| tunnel_id := "T";
     tunnel_configuration := Returns None;
     dns_listing := Returns [];
     mutation_error := fun _ => None |}.

Definition manager_of (a : CloudflareAPI) : TunnelConfigManager :=
  {| config_file := Returns [route_a]; api := a; manage_dns := true |}.

(** The same, but the configuration update is rejected. *)
Definition rejecting_api : CloudflareAPI :=
  {| tunnel_id := "T";
     tunnel_configuration := Returns None;
     dns_listing := Returns [];
     mutation_error :=
       fun r => match r with
                | UpdateTunnelConfiguration _ =>
                    Some (HTTPError 500 "500 Server Error" "internal error")
                | _ => None
                end |}.

(** The same as [fresh_api], but the DNS listing cannot be fetched:
    once because the connection fails, once because the server answers
    with an error status. *)
Definition unreachable_dns_api : CloudflareAPI :=
  {| tunnel_id := "T";
     tunnel_configuration := Returns None;
     dns_listing := Fails (OtherError "ConnectionError");
     mutation_error := fun _ => None |}.

Definition failing_dns_api : CloudflareAPI :=
  {| tunnel_id := "T";
     tunnel_configuration := Returns None;
     dns_listing := Fails (HTTPError 403 "403 Client Error" "forbidden");
     mutation_error := fun _ => None |}.

Definition cname (i : option string) (n c : string) : DNSRecord :=
  {| id := i; type := "CNAME"; name := n; content := c;
     proxied := true; ttl := 1; dns_extra := [] |}.

End Samples.

(** ** The command-line entry point and auxiliary notions *)

Module Entry.
Import Py Model Sync Samples.
Local Open Scope prog_scope.

(** [TunnelRoute.__hash__]: the hash of the hostname, [hash] being the
    interpreter's hash of strings. *)
Definition TunnelRoute_hash (hash : string -> Z) (self : TunnelRoute) : Z :=
  hash (hostname self).

(** The test of the loop of [get_cloudflare_routes] on a rule as a
    dictionary: ["hostname" in rule]. *)
Definition has_hostname (rule : Dict PyVal) : bool :=
  dict_contains "hostname" rule.

(** Requests sent one after the other until one fails: those attempted,
    and the exception that stopped them, if any. *)
Fixpoint attempt (self : CloudflareAPI) (cs : list Request)
  : list Request * option Exn :=
  match cs with
  | [] => ([], None)
  | r :: cs' =>
      match mutation_error self r with
      | Some e => ([r], Some e)
      | None => (r :: fst (attempt self cs'), snd (attempt self cs'))
      end
  end.

(** [m] sends exactly the requests of [cs] up to the first failure and
    ends with that failure, normally if there is none. *)
Definition performs (self : CloudflareAPI) (m : M unit) (cs : list Request)
  : Prop :=
  calls (trace m) = fst (attempt self cs)
  /\ result m = match snd (attempt self cs) with
                | None => Ok tt
                | Some e => Raise e
                end.

(** How a phase wrapped in [except HTTPError: ...; sys.exit(1)] ends. *)
Definition phase_outcome (stopped : option Exn) : Res unit :=
  match stopped with
  | None => Ok tt
  | Some (HTTPError _ _ _) => SysExit 1
  | Some (OtherError message) => Raise (OtherError message)
  end.

(** The only exit status [m] may end with is 1. *)
Definition exits_with_one {A} (m : M A) : Prop :=
  forall code, result m = SysExit code -> code = 1%Z.

(** *** [main] *)

(** The parsed command line. *)
Record Args : Type := {
  config : string;
  dry_run : bool;
  no_dns : bool
}.

(** The four environment variables, as [os.getenv] returns them. *)
Record Environ : Type := {
  CLOUDFLARE_API_TOKEN : option string;
  CLOUDFLARE_ACCOUNT_ID : option string;
  CLOUDFLARE_TUNNEL_ID : option string;
  CLOUDFLARE_ZONE_ID : option string
}.

(** Truthiness of an optional string. *)
Definition truthy (v : option string) : bool :=
  match v with
  | Some s => negb (String.eqb s "")
  | None => false
  end.

Definition or_empty (v : option string) : string :=
  match v with Some s => s | None => "" end.

(** The classes the handlers of [main] tell apart. *)
Inductive ExnClass : Type :=
| FileNotFoundError
| YAMLError
| RequestException
| OtherException.

(** [HTTPError] is a [RequestException]; the class of any other
    exception, which [OtherError] leaves open, is given by [class_of]. *)
Definition exn_class (class_of : string -> ExnClass) (e : Exn) : ExnClass :=
  match e with
  | HTTPError _ _ _ => RequestException
  | OtherError message => class_of message
  end.

Definition exn_message (e : Exn) : string :=
  match e with
  | HTTPError _ message _ => message
  | OtherError message => message
  end.

(** The line the matching handler prints. *)
Definition error_line (config : string) (class_of : string -> ExnClass) (e : Exn)
  : string :=
  match exn_class class_of e with
  | FileNotFoundError => "Error: Configuration file '" ++ config ++ "' not found"
  | YAMLError => "Error: Invalid YAML in configuration file: " ++ exn_message e
  | RequestException => "Error: API request failed: " ++ exn_message e
  | OtherException => "Error: " ++ exn_message e
  end.

(** [try: m  except ...: print(...); sys.exit(1)] with the four handlers
    of [main]; [sys.exit] inside [m] is not an [Exception] and passes. *)
Definition handle_errors (config : string) (class_of : string -> ExnClass)
           (m : M unit) : M unit :=
  match result m with
  | Raise e => (trace m ++ [Print (error_line config class_of e)], SysExit 1)
  | _ => m
  end.

(** The API client [main] builds: the remote side [cloud] addressed with
    the tunnel identifier of the environment. *)
Definition connect (cloud : CloudflareAPI) (tunnel : string) : CloudflareAPI :=
  {| tunnel_id := tunnel;
     tunnel_configuration := tunnel_configuration cloud;
     dns_listing := dns_listing cloud;
     mutation_error := mutation_error cloud |}.

(** [main], given the environment, the command line, what reading each
    configuration path gives, the remote side and the set order. *)
Definition main (env : Environ) (args : Args)
           (files : string -> Reply (list TunnelRoute))
           (cloud : CloudflareAPI) (class_of : string -> ExnClass)
           (O : SetOrder) : M unit :=
  let api_token := CLOUDFLARE_API_TOKEN env in
  let account_id := CLOUDFLARE_ACCOUNT_ID env in
  let tunnel := CLOUDFLARE_TUNNEL_ID env in
  let zone_id := CLOUDFLARE_ZONE_ID env in
  if negb (truthy api_token && truthy account_id && truthy tunnel)
  then
    print "Error: Missing required environment variables:" ;;
    when (negb (truthy api_token)) (print "  - CLOUDFLARE_API_TOKEN") ;;
    when (negb (truthy account_id)) (print "  - CLOUDFLARE_ACCOUNT_ID") ;;
    when (negb (truthy tunnel)) (print "  - CLOUDFLARE_TUNNEL_ID") ;;
    sys_exit 1
  else if negb (no_dns args) && negb (truthy zone_id)
  then
    print "Error: CLOUDFLARE_ZONE_ID is required for DNS management" ;;
    print "  Set CLOUDFLARE_ZONE_ID or use --no-dns to skip DNS management" ;;
    sys_exit 1
  else
    let manager :=
      {| config_file := files (config args);
         api := connect cloud (or_empty tunnel);
         manage_dns := negb (no_dns args) |} in
    handle_errors (config args) class_of (sync manager O (dry_run args)).

(** *** Sample inputs *)

Definition full_environ : Environ :=
  {| CLOUDFLARE_API_TOKEN := Some "token";
     CLOUDFLARE_ACCOUNT_ID := Some "account";
     CLOUDFLARE_TUNNEL_ID := Some "T";
     CLOUDFLARE_ZONE_ID := Some "zone" |}.

(** The token is set but empty and no zone is given. *)
Definition poor_environ : Environ :=
  {| CLOUDFLARE_API_TOKEN := Some "";
     CLOUDFLARE_ACCOUNT_ID := Some "account";
     CLOUDFLARE_TUNNEL_ID := Some "T";
     CLOUDFLARE_ZONE_ID := None |}.

Definition no_zone_environ : Environ :=
  {| CLOUDFLARE_API_TOKEN := Some "token";
     CLOUDFLARE_ACCOUNT_ID := Some "account";
     CLOUDFLARE_TUNNEL_ID := Some "T";
     CLOUDFLARE_ZONE_ID := None |}.

Definition default_args : Args :=
  {| config := "config.yml"; dry_run := false; no_dns := false |}.

Definition no_dns_args : Args :=
  {| config := "config.yml"; dry_run := false; no_dns := true |}.

Definition one_file (path : string) : Reply (list TunnelRoute) :=
  if String.eqb path "config.yml" then Returns [route_a]
  else Fails (OtherError "No such file or directory").

Definition plain_classes (message : string) : ExnClass :=
  if String.eqb message "No such file or directory" then FileNotFoundError
  else OtherException.

(** A remote side where the second DNS creation is refused. *)
Definition refusing_b_api : CloudflareAPI :=
  {| tunnel_id := "T";
     tunnel_configuration := Returns None;
     dns_listing := Returns [];
     mutation_error :=
       fun r => match r with
                | CreateDnsRecord rec =>
                    if String.eqb (name rec) "b.example.com"
                    then Some (HTTPError 400 "400 Client Error" "refused")
                    else None
                | _ => None
                end |}.

(** Two entries for the same hostname. *)
Definition route_a_again : TunnelRoute := route "a.example.com" "http://10.0.0.7:80".

End Entry.

(** ** Equality by value, in the specification's words *)

Module ByValue.
Import Py Model.

(** The number a scalar stands for.  Python's [bool] is a subclass of
    [int]: [False] and [True] are the numbers 0 and 1. *)
Definition number (a : PyVal) : option Z :=
  match a with
  | VBool true => Some 1%Z
  | VBool false => Some 0%Z
  | VInt n => Some n
  | _ => None
  end.

(** Two values are the same by deep value when both are [None], or both
    stand for the same number, or both are the same string, or both are
    lists of the same length with the same values position by position,
    or both are dictionaries with the same keys bound to the same values
    key by key, in whatever order the keys come.  This is written from
    the words of the specification and does not mention [py_eq]. *)
#[warnings="-register-all"]
Inductive same_value : PyVal -> PyVal -> Prop :=
| same_none : same_value VNone VNone
| same_number (a b : PyVal) (n : Z) :
    number a = Some n -> number b = Some n -> same_value a b
| same_string (s : string) : same_value (VStr s) (VStr s)
| same_list (xs ys : list PyVal) :
    Forall2 same_value xs ys -> same_value (VList xs) (VList ys)
| same_dict (xs ys : list (string * PyVal)) :
    (forall k, In k (map fst xs) <-> In k (map fst ys)) ->
    (forall k v w, In (k, v) xs -> In (k, w) ys -> same_value v w) ->
    same_value (VDict xs) (VDict ys).

(** Two optional origin-request blocks are the same by value: both
    absent, or both present with the same [noTLSVerify] and the same
    mapping of further options. *)
Definition same_origin_request (a b : option OriginRequest) : Prop :=
  match a, b with
  | None, None => True
  | Some x, Some y =>
      noTLSVerify x = noTLSVerify y
      /\ same_value (VDict (extra x)) (VDict (extra y))
  | _, _ => False
  end.

(** Options nested two levels deep, written in two key orders, and a
    third mapping that differs from the first in one list element. *)
Definition nested_options : Dict PyVal :=
  [("retries", VList [VInt 1; VStr "x"]);
   ("access", VDict [("required", VBool true); ("teamName", VNone)])].

Definition nested_options_swapped : Dict PyVal :=
  [("access", VDict [("required", VBool true); ("teamName", VNone)]);
   ("retries", VList [VInt 1; VStr "x"])].

Definition nested_options_reordered : Dict PyVal :=
  [("access", VDict [("teamName", VNone); ("required", VInt 1)]);
   ("retries", VList [VInt 1; VStr "x"])].

Definition nested_options_changed : Dict PyVal :=
  [("retries", VList [VInt 1; VStr "y"]);
   ("access", VDict [("required", VBool true); ("teamName", VNone)])].

End ByValue.

(** ** Reading back a pushed document *)

Module Roundtrip.
Import Py Model Sync Samples Entry.

(** pydantic's validators for fields of type [str] and [bool].  All
    that is used of them is that a value which already has the field's
    type is accepted as it is; what they do with other values (errors,
    coercions) is left open.  [None] stands for a validation error. *)
Record Validators : Type := {
  validate_str : PyVal -> option string;
  validate_bool : PyVal -> option bool;
  validate_str_keeps : forall s, validate_str (VStr s) = Some s;
  validate_bool_keeps : forall b, validate_bool (VBool b) = Some b
}.

(** Validators that accept nothing else. *)
Definition strict_validators : Validators :=
  {| validate_str := fun v => match v with VStr s => Some s | _ => None end;
     validate_bool := fun v => match v with VBool b => Some b | _ => None end;
     validate_str_keeps := fun s => eq_refl;
     validate_bool_keeps := fun b => eq_refl |}.

Section Validation.
Variable V : Validators.

(** A field declared [Optional[...]] with default [None]: a missing
    key and an explicit [None] both give [None]. *)
Definition optional_field {A} (validate : PyVal -> option A) (v : option PyVal)
  : option (option A) :=
  match v with
  | None | Some VNone => Some None
  | Some x => match validate x with
              | Some a => Some (Some a)
              | None => None
              end
  end.

(** [OriginRequest] built from the keys of [d]: the declared field is
    validated, every other key is kept as it is in
    [__pydantic_extra__]. *)
Definition parse_origin_request (d : Dict PyVal) : option OriginRequest :=
  match optional_field (validate_bool V) (dict_get "noTLSVerify" d) with
  | Some v =>
      Some {| noTLSVerify := v;
              extra := filter (fun kv => negb (String.eqb (fst kv) "noTLSVerify")) d |}
  | None => None
  end.

Definition validate_origin_request (v : PyVal) : option OriginRequest :=
  match v with
  | VDict d => parse_origin_request d
  | _ => None
  end.

(** [TunnelRoute] built from the keys of [rule]: [hostname] and
    [service] are required, keys other than the three fields are
    ignored. *)
Definition parse_route (rule : Dict PyVal) : option TunnelRoute :=
  match dict_get "hostname" rule, dict_get "service" rule with
  | Some h, Some s =>
      match validate_str V h, validate_str V s,
            optional_field validate_origin_request (dict_get "originRequest" rule)
      with
      | Some h', Some s', Some o =>
          Some {| hostname := h'; service := s'; originRequest := o |}
      | _, _, _ => None
      end
  | _, _ => None
  end.

(** The loop of [get_cloudflare_routes] over the ingress rules of a
    stored document, each rule a dictionary as the API returns it: a
    rule with a [hostname] key is validated as a [TunnelRoute], and a
    failure ends the read; the other rules are skipped. *)
Fixpoint routes_of_document (ingress_rules : list (Dict PyVal))
  : option (list TunnelRoute) :=
  match ingress_rules with
  | [] => Some []
  | rule :: rest =>
      if has_hostname rule
      then match parse_route rule with
           | Some route => option_map (cons route) (routes_of_document rest)
           | None => None
           end
      else routes_of_document rest
  end.

(** The same loop, keeping the rules it skips: the ingress rules of a
    stored document as the configuration read of a later run meets
    them. *)
Fixpoint rules_of_document (ingress_rules : list (Dict PyVal))
  : option (list IngressRule) :=
  match ingress_rules with
  | [] => Some []
  | rule :: rest =>
      if has_hostname rule
      then match parse_route rule with
           | Some route =>
               option_map (cons (HostRule route)) (rules_of_document rest)
           | None => None
           end
      else option_map (cons (NoHostRule rule)) (rules_of_document rest)
  end.

(** What the configuration read returns once [config] has been pushed
    and kept as it is. *)
Definition stored_configuration (config : TunnelConfig)
  : Reply (option (list IngressRule)) :=
  match rules_of_document (ingress config) with
  | Some rules => Returns (Some rules)
  | None => Fails (OtherError "ValidationError")
  end.

(** The remote route list that the next run reads once a real run of
    [sync] has gone through its apply step, the remote side keeping the
    pushed document as it is: nothing is pushed when there are no
    changes; otherwise the document built from the whole local list
    replaces the remote one and is read back rule by rule. *)
Definition routes_after_apply (O : SetOrder) (local remote : list TunnelRoute)
  : option (list TunnelRoute) :=
  if has_changes (compare_routes O local remote)
  then routes_of_document (ingress (build_cloudflare_config local))
  else Some remote.
End Validation.

(** Some option of the entry is bound to [None] (a YAML [null]). *)
Definition has_null_option (r : TunnelRoute) : bool :=
  match originRequest r with
  | Some o => existsb (fun kv => is_none (snd kv)) (extra o)
  | None => false
  end.

(** What a model object guarantees about its extra options: each key is
    bound once, and none of them is the declared field. *)
Definition valid_route (r : TunnelRoute) : bool :=
  wf_route r
  && match originRequest r with
     | Some o => negb (mem "noTLSVerify" (dict_keys (extra o)))
     | None => true
     end.

(** What reading back the rule written for [r] gives: the entry without
    its options bound to [None]. *)
Definition without_null_options (r : TunnelRoute) : TunnelRoute :=
  {| hostname := hostname r;
     service := service r;
     originRequest :=
       match originRequest r with
       | Some o =>
           Some {| noTLSVerify := noTLSVerify o;
                   extra := filter (fun kv => negb (is_none (snd kv))) (extra o) |}
       | None => None
       end |}.

(** A route whose configuration file entry reads
    [originRequest: {connectTimeout: null}]. *)
Definition route_null : TunnelRoute :=
  with_options route_a None [("connectTimeout", VNone)].

(** The run that follows a real run on the local list [[route_null]]:
    the remote side serves the document that run has pushed. *)
Definition second_run : TunnelConfigManager :=
  {| config_file := Returns [route_null];
     api := {| tunnel_id := "T";
               tunnel_configuration :=
                 stored_configuration strict_validators
                   (build_cloudflare_config [route_null]);
               dns_listing := Returns [];
               mutation_error := fun _ => None |};
     manage_dns := false |}.

End Roundtrip.

(** ** The requests expected of the DNS application *)

Module Expected.
Import Py Model Sync Samples.

(** An id that can address a record: present and not the empty
    string. *)
Definition usable_id (r : DNSRecord) : option string :=
  match id r with
  | Some (String c s) => Some (String c s)
  | _ => None
  end.

(** The record sent for the name [h]. *)
Definition synthesized (h target : string) : DNSRecord :=
  {| id := None; type := "CNAME"; name := h; content := target;
     proxied := true; ttl := 1; dns_extra := [] |}.

Definition create_request (target : string) (h : string) : Request :=
  CreateDnsRecord (synthesized h target).

Definition update_request (target : string) (existing_records : Dict DNSRecord)
           (h : string) : list Request :=
  match dict_get h existing_records with
  | Some r => match usable_id r with
              | Some i => [UpdateDnsRecord i (synthesized h target)]
              | None => []
              end
  | None => []
  end.

Definition delete_request (existing_records : Dict DNSRecord) (h : string)
  : list Request :=
  match dict_get h existing_records with
  | Some r => match usable_id r with
              | Some i => [DeleteDnsRecord i]
              | None => []
              end
  | None => []
  end.

(** All creations, then all updates, then all deletions, each bucket in
    its own order. *)
Definition planned_requests (target : string) (existing_records : Dict DNSRecord)
           (p : DnsActions) : list Request :=
  map (create_request target) (dns_create p)
  ++ flat_map (update_request target existing_records) (dns_update p)
  ++ flat_map (delete_request existing_records) (dns_delete p).

(** *** Sample inputs *)

Definition route_c : TunnelRoute := route "c.example.com" "http://10.0.0.3:8080".
Definition route_d : TunnelRoute := route "d.example.com" "http://10.0.0.4:8080".

(** A zone listing with managed records of every kind: [b] and [c]
    point to another tunnel (the record of [c] has no id), and four
    records are stale (the second one with an empty id). *)
Definition busy_listing : list DNSRecord :=
  [ cname (Some "11") "b.example.com" "X.cfargotunnel.com";
    cname None "c.example.com" "X.cfargotunnel.com";
    cname (Some "21") "old1.example.com" "T.cfargotunnel.com";
    cname (Some "") "old2.example.com" "T.cfargotunnel.com";
    cname (Some "23") "old3.example.com" "T.cfargotunnel.com";
    cname (Some "24") "old4.example.com" "T.cfargotunnel.com" ].

(** A remote side with that listing which refuses to delete record 23
    and accepts every other request. *)
Definition busy_api : CloudflareAPI :=
  {| tunnel_id := "T";
     tunnel_configuration := Returns None;
     dns_listing := Returns busy_listing;
     mutation_error :=
       fun r => match r with
                | DeleteDnsRecord i =>
                    if String.eqb i "23"
                    then Some (HTTPError 500 "500 Server Error" "internal error")
                    else None
                | _ => None
                end |}.

Definition busy_manager : TunnelConfigManager :=
  {| config_file := Returns [route_a; route_d; route_b; route_c];
     api := busy_api;
     manage_dns := true |}.


End Expected.

(** * Properties *)

(** ** Lists, sets and dictionaries *)

Module Facts.
Import Py Model.

Lemma mem_In x l : mem x l = true <-> In x l.
Proof.
  induction l as [|y l IH]; simpl.
  - split; [discriminate | tauto].
  - rewrite orb_true_iff, IH, String.eqb_eq. intuition congruence.
Qed.

Lemma mem_false x l : mem x l = false <-> ~ In x l.
Proof.
  rewrite <- mem_In. destruct (mem x l); split; congruence.
Qed.

Lemma mem_ext l l' :
  (forall x, In x l <-> In x l') -> forall x, mem x l = mem x l'.
Proof.
  intros H x. destruct (mem x l') eqn:E.
  - apply mem_In, H, mem_In, E.
  - apply mem_false. rewrite H. apply mem_false, E.
Qed.

Lemma nodupb_NoDup l : nodupb l = true <-> NoDup l.
Proof.
  induction l as [|x l IH]; simpl.
  - split; [constructor | reflexivity].
  - rewrite andb_true_iff, negb_true_iff, mem_false, IH.
    split; [intros [? ?]; now constructor | now inversion 1].
Qed.

Lemma Permutation_filter {A} (f : A -> bool) l l' :
  Permutation l l' -> Permutation (filter f l) (filter f l').
Proof.
  induction 1 as [|x l l' _ IH|x y l|l l' l'' _ IH1 _ IH2]; simpl.
  - constructor.
  - destruct (f x); [now constructor | exact IH].
  - destruct (f x), (f y); try reflexivity. apply perm_swap.
  - now transitivity (filter f l').
Qed.

Lemma Permutation_in_iff {A} (x : A) l l' :
  Permutation l l' -> In x l <-> In x l'.
Proof.
  intros H. split; apply Permutation_in; [exact H | now apply Permutation_sym].
Qed.

Lemma filter_all {A} (f : A -> bool) l :
  (forall x, In x l -> f x = true) -> filter f l = l.
Proof.
  induction l as [|x l IH]; simpl; intros H; [reflexivity|].
  rewrite (H x (or_introl eq_refl)), IH; auto.
Qed.

Lemma filter_none {A} (f : A -> bool) l :
  (forall x, In x l -> f x = false) -> filter f l = [].
Proof.
  induction l as [|x l IH]; simpl; intros H; [reflexivity|].
  rewrite (H x (or_introl eq_refl)), IH; auto.
Qed.

Lemma Permutation_nil_eq {A} (l : list A) : Permutation l [] -> l = [].
Proof. intros H. apply Permutation_sym, Permutation_nil in H. exact H. Qed.

(** *** [dedup] *)

Lemma dedup_In x l : In x (dedup l) <-> In x l.
Proof.
  induction l as [|y l IH]; simpl; [tauto|].
  rewrite filter_In, IH, negb_true_iff, String.eqb_neq.
  destruct (String.eqb_spec x y) as [->|N]; intuition congruence.
Qed.

Lemma dedup_NoDup l : NoDup (dedup l).
Proof.
  induction l as [|y l IH]; simpl; constructor.
  - rewrite filter_In, negb_true_iff, String.eqb_neq. tauto.
  - now apply NoDup_filter.
Qed.

Lemma dedup_id l : NoDup l -> dedup l = l.
Proof.
  induction 1 as [|x l Hx _ IH]; simpl; [reflexivity|].
  rewrite IH. f_equal. apply filter_all.
  intros y Hy. apply negb_true_iff, String.eqb_neq. congruence.
Qed.

(** *** Sets *)

Section SetFacts.
Variable O : SetOrder.

Lemma set_iter_In x l : In x (set_iter O l) <-> In x l.
Proof.
  split; apply Permutation_in;
    [apply set_iter_perm | apply Permutation_sym, set_iter_perm].
Qed.

Lemma set_iter_NoDup l : NoDup l -> NoDup (set_iter O l).
Proof. apply Permutation_NoDup, Permutation_sym, set_iter_perm. Qed.

Lemma set_iter_nil : set_iter O [] = [].
Proof. apply Permutation_nil_eq, set_iter_perm. Qed.

Lemma set_of_In x l : In x (set_of O l) <-> In x l.
Proof. unfold set_of. now rewrite set_iter_In, dedup_In. Qed.

Lemma set_of_NoDup l : NoDup (set_of O l).
Proof. apply set_iter_NoDup, dedup_NoDup. Qed.

Lemma set_of_perm l : NoDup l -> Permutation (set_of O l) l.
Proof.
  intros H. unfold set_of. rewrite (dedup_id l H). apply set_iter_perm.
Qed.

Lemma set_difference_In x a b :
  In x (set_difference O a b) <-> In x a /\ ~ In x b.
Proof.
  unfold set_difference.
  now rewrite set_iter_In, filter_In, negb_true_iff, mem_false.
Qed.

Lemma set_intersection_In x a b :
  In x (set_intersection O a b) <-> In x a /\ In x b.
Proof.
  unfold set_intersection.
  destruct (Nat.ltb (List.length a) (List.length b));
    rewrite set_iter_In, filter_In, mem_In; tauto.
Qed.

Lemma set_difference_NoDup a b : NoDup a -> NoDup (set_difference O a b).
Proof. intros H. apply set_iter_NoDup, NoDup_filter, H. Qed.

Lemma set_intersection_NoDup a b :
  NoDup a -> NoDup b -> NoDup (set_intersection O a b).
Proof.
  intros Ha Hb. unfold set_intersection.
  destruct (Nat.ltb (List.length a) (List.length b));
    apply set_iter_NoDup, NoDup_filter; assumption.
Qed.

(** Difference and intersection of sets built from [l] and [m], up to
    iteration order. *)
Lemma set_difference_perm l m :
  NoDup l ->
  Permutation (set_difference O (set_of O l) (set_of O m))
              (filter (fun x => negb (mem x m)) l).
Proof.
  intros H. unfold set_difference.
  etransitivity; [apply set_iter_perm|].
  rewrite (filter_ext _ (fun x => negb (mem x m))).
  - apply Permutation_filter, set_of_perm, H.
  - intros x. f_equal. apply mem_ext. intros y. apply set_of_In.
Qed.

Lemma set_intersection_perm l m :
  NoDup l ->
  Permutation (set_intersection O (set_of O l) (set_of O m))
              (filter (fun x => mem x m) l).
Proof.
  intros H. apply NoDup_Permutation.
  - apply set_intersection_NoDup; apply set_of_NoDup.
  - apply NoDup_filter, H.
  - intros x. rewrite set_intersection_In, !set_of_In, filter_In, mem_In.
    reflexivity.
Qed.

Lemma set_difference_self a : set_difference O a a = [].
Proof.
  unfold set_difference. rewrite filter_none; [apply set_iter_nil|].
  intros x Hx. apply negb_false_iff, mem_In, Hx.
Qed.
End SetFacts.

End Facts.

(** ** Dictionaries built by a loop of assignments *)

Module DictFacts.
Import Py Model Facts.

Section DictSet.
Context {V : Type}.

Lemma dict_get_In k (d : Dict V) v : dict_get k d = Some v -> In (k, v) d.
Proof.
  induction d as [|[k' v'] d IH]; simpl; [discriminate|].
  destruct (String.eqb_spec k k') as [->|N].
  - intros [= ->]. now left.
  - intros H. right. auto.
Qed.

Lemma dict_get_None k (d : Dict V) : dict_get k d = None <-> ~ In k (dict_keys d).
Proof.
  induction d as [|[k' v'] d IH]; simpl; [tauto|].
  destruct (String.eqb_spec k k') as [->|N].
  - split; [discriminate | tauto].
  - rewrite IH. intuition congruence.
Qed.

Lemma dict_get_bound k (d : Dict V) :
  In k (dict_keys d) -> exists v, dict_get k d = Some v.
Proof.
  intros H. destruct (dict_get k d) as [v|] eqn:E; [now exists v|].
  apply dict_get_None in E. contradiction.
Qed.

Lemma In_dict_get k v (d : Dict V) :
  NoDup (dict_keys d) -> In (k, v) d -> dict_get k d = Some v.
Proof.
  induction d as [|[k' v'] d IH]; simpl; [tauto|].
  intros N [E|H].
  - injection E as -> ->. now rewrite String.eqb_refl.
  - inversion N as [|? ? Hk Nd]; subst.
    destruct (String.eqb_spec k k') as [->|_]; [|auto].
    exfalso. apply Hk. change k' with (fst (k', v)). now apply in_map.
Qed.

Lemma dict_get_set_same k v (d : Dict V) : dict_get k (dict_set k v d) = Some v.
Proof.
  induction d as [|[k' v'] d IH]; simpl.
  - now rewrite String.eqb_refl.
  - destruct (String.eqb_spec k k') as [->|N]; simpl.
    + now rewrite String.eqb_refl.
    + destruct (String.eqb_spec k k'); [contradiction | exact IH].
Qed.

Lemma dict_get_set_other k k' v (d : Dict V) :
  k' <> k -> dict_get k' (dict_set k v d) = dict_get k' d.
Proof.
  intros N. induction d as [|[k0 v0] d IH]; simpl.
  - destruct (String.eqb_spec k' k); [contradiction | reflexivity].
  - destruct (String.eqb_spec k k0) as [->|N0]; simpl.
    + destruct (String.eqb_spec k' k0); [contradiction | reflexivity].
    + now rewrite IH.
Qed.

Lemma dict_keys_set k v (d : Dict V) :
  dict_keys (dict_set k v d)
  = if mem k (dict_keys d) then dict_keys d else dict_keys d ++ [k].
Proof.
  induction d as [|[k0 v0] d IH]; simpl; [reflexivity|].
  destruct (String.eqb_spec k k0) as [->|N]; simpl; [reflexivity|].
  unfold dict_keys in *. rewrite IH. now destruct (mem k (map fst d)).
Qed.

Lemma dict_keys_set_In k v (d : Dict V) x :
  In x (dict_keys (dict_set k v d)) <-> x = k \/ In x (dict_keys d).
Proof.
  rewrite dict_keys_set. destruct (mem k (dict_keys d)) eqn:E.
  - apply mem_In in E. intuition congruence.
  - rewrite in_app_iff. simpl. intuition congruence.
Qed.

Lemma dict_keys_set_NoDup k v (d : Dict V) :
  NoDup (dict_keys d) -> NoDup (dict_keys (dict_set k v d)).
Proof.
  intros N. rewrite dict_keys_set. destruct (mem k (dict_keys d)) eqn:E; [exact N|].
  apply mem_false in E.
  apply (Permutation_NoDup (Permutation_cons_append (dict_keys d) k)).
  now constructor.
Qed.

Variable key : V -> string.

Lemma last_with_snoc k l x :
  last_with key k (l ++ [x])
  = if String.eqb (key x) k then Some x else last_with key k l.
Proof. unfold last_with. now rewrite rev_app_distr. Qed.

Lemma assign_all_snoc l x d :
  assign_all key (l ++ [x]) d = dict_set (key x) x (assign_all key l d).
Proof. unfold assign_all. now rewrite fold_left_app. Qed.

Lemma assign_all_get k l : forall d,
  dict_get k (assign_all key l d)
  = match last_with key k l with Some x => Some x | None => dict_get k d end.
Proof.
  induction l as [|x l IH] using rev_ind; intros d; [reflexivity|].
  rewrite assign_all_snoc, last_with_snoc.
  destruct (String.eqb_spec (key x) k) as [<-|N].
  - apply dict_get_set_same.
  - rewrite dict_get_set_other by congruence. apply IH.
Qed.

Lemma assign_all_keys_In k l : forall d,
  In k (dict_keys (assign_all key l d)) <-> In k (dict_keys d) \/ In k (map key l).
Proof.
  induction l as [|x l IH] using rev_ind; intros d; simpl; [tauto|].
  rewrite assign_all_snoc, dict_keys_set_In, IH, map_app, in_app_iff. simpl.
  intuition congruence.
Qed.

Lemma assign_all_keys_NoDup l : forall d,
  NoDup (dict_keys d) -> NoDup (dict_keys (assign_all key l d)).
Proof.
  unfold assign_all. induction l as [|x l IH]; intros d N; simpl; [exact N|].
  apply IH, dict_keys_set_NoDup, N.
Qed.

Lemma last_with_Some k l x :
  last_with key k l = Some x -> In x l /\ key x = k.
Proof.
  unfold last_with. intros H. apply find_some in H.
  rewrite <- in_rev, String.eqb_eq in H. exact H.
Qed.

Lemma last_with_None k l : last_with key k l = None <-> ~ In k (map key l).
Proof.
  unfold last_with. split.
  - intros H Hin. apply in_map_iff in Hin as (x & <- & Hx).
    apply in_rev in Hx. apply (find_none _ _ H) in Hx.
    now rewrite String.eqb_refl in Hx.
  - intros H. destruct (find _ _) as [x|] eqn:E; [|reflexivity].
    apply find_some in E. rewrite <- in_rev, String.eqb_eq in E.
    exfalso. apply H. destruct E as [E <-]. now apply in_map.
Qed.

(** With pairwise distinct keys every element is its own survivor and
    the dictionary lists the elements in order. *)
Lemma last_with_NoDup l x :
  NoDup (map key l) -> In x l -> last_with key (key x) l = Some x.
Proof.
  induction l as [|y l IH] using rev_ind; [contradiction|].
  rewrite map_app, in_app_iff, last_with_snoc. simpl. intros N H.
  apply NoDup_remove in N. rewrite app_nil_r in N. destruct N as [N Hy].
  destruct H as [H|[->|[]]].
  - destruct (String.eqb_spec (key y) (key x)) as [E|_]; [|auto].
    exfalso. apply Hy. rewrite E. now apply in_map.
  - now rewrite String.eqb_refl.
Qed.

Lemma assign_all_NoDup l :
  NoDup (map key l) -> assign_all key l [] = map (fun x => (key x, x)) l.
Proof.
  induction l as [|x l IH] using rev_ind; intros N; [reflexivity|].
  rewrite assign_all_snoc, map_app in *. simpl in *.
  apply NoDup_remove in N. rewrite app_nil_r in N. destruct N as [N Hx].
  rewrite (IH N). clear IH.
  revert Hx. generalize (key x) as k. intros k. induction l as [|y l IH]; simpl; intros Hx.
  - reflexivity.
  - destruct (String.eqb_spec k (key y)) as [->|_]; [tauto|].
    inversion N; subst. rewrite IH; tauto.
Qed.

Lemma fold_left_guard (keep : V -> bool) l : forall d,
  fold_left (fun d x => if keep x then dict_set (key x) x d else d) l d
  = assign_all key (filter keep l) d.
Proof.
  induction l as [|x l IH]; intros d; simpl; [reflexivity|].
  rewrite IH. now destruct (keep x).
Qed.
End DictSet.

End DictFacts.

(** ** Route reconciler *)

Module RouteFacts.
Import Py Model Facts DictFacts.

Lemma flat_map_select {A} (f : A -> string) (g : string -> list A)
      (p : string -> bool) (q : A -> bool) (l : list A) :
  (forall x, In x l -> p (f x) = true -> g (f x) = if q x then [x] else []) ->
  flat_map g (filter p (map f l)) = filter (fun x => p (f x) && q x) l.
Proof.
  induction l as [|x l IH]; simpl; intros H; [reflexivity|].
  destruct (p (f x)) eqn:E; simpl.
  - rewrite (H x (or_introl eq_refl) E), IH by auto. now destruct (q x).
  - apply IH. auto.
Qed.

Lemma key_injective {A} (f : A -> string) l x y :
  NoDup (map f l) -> In x l -> In y l -> f x = f y -> x = y.
Proof.
  induction l as [|z l IH]; simpl; [tauto|].
  intros N Hx Hy E. inversion N as [|? ? Hz N']; subst.
  destruct Hx as [->|Hx], Hy as [->|Hy]; auto.
  - exfalso. apply Hz. rewrite E. now apply in_map.
  - exfalso. apply Hz. rewrite <- E. now apply in_map.
Qed.

Lemma routes_by_hostname_keys l :
  NoDup (map hostname l) -> dict_keys (routes_by_hostname l) = map hostname l.
Proof.
  intros N. unfold routes_by_hostname, dict_keys.
  rewrite (assign_all_NoDup hostname l N), map_map. reflexivity.
Qed.

Lemma routes_by_hostname_keys_In h l :
  In h (dict_keys (routes_by_hostname l)) <-> In h (map hostname l).
Proof.
  unfold routes_by_hostname. rewrite assign_all_keys_In. simpl. tauto.
Qed.

Lemma routes_by_hostname_keys_NoDup l : NoDup (dict_keys (routes_by_hostname l)).
Proof. apply assign_all_keys_NoDup. constructor. Qed.

Lemma routes_by_hostname_get h l :
  dict_get h (routes_by_hostname l) = last_with hostname h l.
Proof.
  unfold routes_by_hostname. rewrite assign_all_get. simpl.
  now destruct (last_with hostname h l).
Qed.

Lemma last_with_In_iff l h r :
  NoDup (map hostname l) ->
  last_with hostname h l = Some r <-> In r l /\ hostname r = h.
Proof.
  intros N. split.
  - apply last_with_Some.
  - intros [H <-]. now apply last_with_NoDup.
Qed.

Section Buckets.
Variable O : SetOrder.
Variables local remote : list TunnelRoute.

Lemma create_perm :
  NoDup (map hostname local) ->
  Permutation (create (compare_routes O local remote))
              (filter (only_in_first remote) local).
Proof.
  intros N. unfold compare_routes. simpl.
  rewrite set_difference_perm by apply routes_by_hostname_keys_NoDup.
  rewrite (routes_by_hostname_keys local N).
  rewrite (@flat_map_select _ hostname _ _ (fun _ => true)).
  - apply Permutation_refl'. apply filter_ext. intros r.
    rewrite andb_true_r. unfold only_in_first. f_equal.
    apply mem_ext. intros h. apply routes_by_hostname_keys_In.
  - intros r Hr _. unfold getitem.
    now rewrite routes_by_hostname_get, (last_with_NoDup hostname _ _ N Hr).
Qed.

Lemma update_perm :
  NoDup (map hostname local) ->
  Permutation (update (compare_routes O local remote))
              (filter (differs_from remote) local).
Proof.
  intros N. unfold compare_routes. simpl.
  rewrite set_intersection_perm by apply routes_by_hostname_keys_NoDup.
  rewrite (routes_by_hostname_keys local N).
  rewrite (@flat_map_select _ hostname _ _ (differs_from remote)).
  - apply Permutation_refl'. apply filter_ext. intros r.
    unfold differs_from.
    destruct (last_with hostname (hostname r) remote) as [r'|] eqn:E;
      [|apply andb_false_r].
    replace (mem _ _) with true; [reflexivity|].
    symmetry. apply mem_In, routes_by_hostname_keys_In.
    apply last_with_Some in E as [E <-]. now apply in_map.
  - intros r Hr _. unfold differs_from.
    rewrite !routes_by_hostname_get, (last_with_NoDup hostname _ _ N Hr).
    now destruct (last_with hostname (hostname r) remote).
Qed.
End Buckets.

Lemma delete_perm O local remote :
  NoDup (map hostname remote) ->
  Permutation (delete (compare_routes O local remote))
              (filter (only_in_first local) remote).
Proof. intros N. exact (create_perm O remote local N). Qed.

(** Every key the three loops visit is bound in the dictionary they
    index, so no lookup raises [KeyError]. *)
Lemma compare_routes_lookups_bound O local remote h :
  let L := routes_by_hostname local in
  let R := routes_by_hostname remote in
  let lh := set_of O (dict_keys L) in
  let rh := set_of O (dict_keys R) in
  (In h (set_difference O lh rh) -> exists r, dict_get h L = Some r) /\
  (In h (set_difference O rh lh) -> exists r, dict_get h R = Some r) /\
  (In h (set_intersection O lh rh) ->
   (exists r, dict_get h L = Some r) /\ (exists r, dict_get h R = Some r)).
Proof.
  cbv zeta. rewrite !set_difference_In, set_intersection_In, !set_of_In.
  split; [|split]; intros [H1 H2]; try split; auto using dict_get_bound.
Qed.

End RouteFacts.

(** ** Value equality *)

Module ValueFacts.
Import Py Model Facts DictFacts.

Lemma PyVal_induction (P : PyVal -> Prop) :
  P VNone ->
  (forall b, P (VBool b)) ->
  (forall n, P (VInt n)) ->
  (forall s, P (VStr s)) ->
  (forall xs, Forall P xs -> P (VList xs)) ->
  (forall xs, Forall (fun kv => P (snd kv)) xs -> P (VDict xs)) ->
  forall a, P a.
Proof.
  intros HN HB HI HS HL HD. fix IH 1. intros [| b | n | s | xs | xs].
  - exact HN.
  - apply HB.
  - apply HI.
  - apply HS.
  - apply HL. induction xs as [|x xs IHxs]; constructor; [apply IH | exact IHxs].
  - apply HD. induction xs as [|[k v] xs IHxs]; constructor; [apply IH | exact IHxs].
Qed.

Lemma wf_VDict xs :
  wf_val (VDict xs) = true <->
  NoDup (dict_keys xs) /\ forall k v, In (k, v) xs -> wf_val v = true.
Proof.
  simpl. rewrite andb_true_iff, nodupb_NoDup, forallb_forall.
  split; intros [N H]; split; auto.
  - intros k v Hin. exact (H (k, v) Hin).
  - intros [k v] Hin. exact (H k v Hin).
Qed.


Lemma py_eq_VDict xs ys :
  py_eq (VDict xs) (VDict ys) = true <->
  List.length xs = List.length ys /\ bound_alike py_eq xs ys.
Proof.
  simpl. rewrite andb_true_iff, Nat.eqb_eq, forallb_forall. unfold bound_alike.
  split; intros [L H]; split; auto.
  - intros k v Hin. specialize (H (k, v) Hin). simpl in H.
    destruct (dict_get k ys) as [w|]; [eauto | discriminate].
  - intros [k v] Hin. simpl. destruct (H k v Hin) as (w & -> & E). exact E.
Qed.

Lemma bound_alike_keys R xs ys :
  bound_alike R xs ys -> incl (dict_keys xs) (dict_keys ys).
Proof.
  intros H k Hk. apply in_map_iff in Hk as ([k' v] & <- & Hin).
  destruct (H k' v Hin) as (w & E & _). apply dict_get_In in E.
  exact (in_map fst _ _ E).
Qed.

(** Between dictionaries of the same size, being bound alike goes both
    ways. *)
Lemma bound_alike_flip R xs ys :
  NoDup (dict_keys xs) -> NoDup (dict_keys ys) ->
  List.length xs = List.length ys ->
  bound_alike R xs ys ->
  bound_alike (fun w v => R v w) ys xs.
Proof.
  intros Nx Ny L H k w Hin.
  assert (Hk : In k (dict_keys xs)).
  { apply (@NoDup_length_incl _ (dict_keys xs) (dict_keys ys) Nx).
    - unfold dict_keys. rewrite !length_map. lia.
    - exact (bound_alike_keys _ _ _ H).
    - exact (in_map fst _ _ Hin). }
  destruct (dict_get_bound _ _ Hk) as (v & E). exists v. split; [exact E|].
  destruct (H k v (dict_get_In _ _ _ E)) as (w' & E' & HR).
  rewrite (In_dict_get _ _ _ Ny Hin) in E'. now injection E' as ->.
Qed.

Lemma all2_sym (xs : list PyVal) :
  Forall (fun x => forall y, wf_val x = true -> wf_val y = true ->
                             py_eq x y = py_eq y x) xs ->
  forall ys, wf_val (VList xs) = true -> wf_val (VList ys) = true ->
             all2 py_eq xs ys = all2 py_eq ys xs.
Proof.
  induction 1 as [|x xs Hx _ IH]; intros [|y ys] Wx Wy; try reflexivity.
  simpl in *. apply andb_true_iff in Wx as [? ?]. apply andb_true_iff in Wy as [? ?].
  rewrite Hx, IH; auto.
Qed.

Theorem py_eq_sym : forall a b,
  wf_val a = true -> wf_val b = true -> py_eq a b = py_eq b a.
Proof.
  induction a as [| x | n | s | xs IH | xs IH] using PyVal_induction;
    intros [| y | m | t | ys | ys] Wa Wb; try reflexivity.
  - simpl. now destruct x, y.
  - simpl. apply Z.eqb_sym.
  - simpl. apply Z.eqb_sym.
  - simpl. apply Z.eqb_sym.
  - simpl. apply String.eqb_sym.
  - apply all2_sym; assumption.
  - apply wf_VDict in Wa as [Nx Wx]. apply wf_VDict in Wb as [Ny Wy].
    rewrite Forall_forall in IH.
    assert (S : forall k v k' w, In (k, v) xs -> In (k', w) ys ->
                                 py_eq v w = py_eq w v).
    { intros k v k' w Hv Hw. apply (IH (k, v) Hv); eauto. }
    apply eq_true_iff_eq. rewrite !py_eq_VDict.
    split; intros [L H]; (split; [now symmetry|]).
    + intros k w Hin.
      destruct (bound_alike_flip _ _ _ Nx Ny L H _ _ Hin) as (v & E & HR).
      exists v. split; [exact E|].
      now rewrite <- (S _ _ _ _ (dict_get_In _ _ _ E) Hin).
    + intros k v Hin.
      destruct (bound_alike_flip _ _ _ Ny Nx L H _ _ Hin) as (w & E & HR).
      exists w. split; [exact E|].
      now rewrite (S _ _ _ _ Hin (dict_get_In _ _ _ E)).
Qed.

Theorem py_eq_refl : forall a, wf_val a = true -> py_eq a a = true.
Proof.
  induction a as [| x | n | s | xs IH | xs IH] using PyVal_induction; intros W.
  - reflexivity.
  - now destruct x.
  - apply Z.eqb_refl.
  - apply String.eqb_refl.
  - simpl in *. induction IH as [|x xs Hx _ IHxs]; [reflexivity|].
    simpl in *. apply andb_true_iff in W as [? ?]. now rewrite Hx, IHxs.
  - apply wf_VDict in W as [N W]. apply py_eq_VDict. split; [reflexivity|].
    rewrite Forall_forall in IH. intros k v Hin. exists v. split.
    + now apply In_dict_get.
    + apply (IH (k, v) Hin). eauto.
Qed.

(** Two dictionaries holding the same bindings in different orders are
    equal. *)
Theorem dict_eq_permutation xs ys :
  wf_dict xs = true -> Permutation xs ys -> dict_eq xs ys = true.
Proof.
  intros W HP. apply wf_VDict in W as [N W]. apply py_eq_VDict. split.
  - now apply Permutation_length.
  - intros k v Hin. exists v. split.
    + apply In_dict_get.
      * apply (Permutation_NoDup (Permutation_map fst HP)), N.
      * apply (Permutation_in _ HP), Hin.
    + apply py_eq_refl. eauto.
Qed.



Lemma OriginRequest_eq_sym a b :
  wf_dict (extra a) = true -> wf_dict (extra b) = true ->
  OriginRequest_eq a b = OriginRequest_eq b a.
Proof.
  intros Wa Wb. unfold OriginRequest_eq, dict_eq.
  rewrite (py_eq_sym _ _ Wa Wb). f_equal.
  destruct (noTLSVerify a) as [[]|], (noTLSVerify b) as [[]|]; reflexivity.
Qed.

Lemma OriginRequest_eq_refl a :
  wf_dict (extra a) = true -> OriginRequest_eq a a = true.
Proof.
  intros W. unfold OriginRequest_eq, dict_eq. rewrite (py_eq_refl _ W).
  now destruct (noTLSVerify a) as [[]|].
Qed.

Lemma TunnelRoute_eq_sym a b :
  wf_route a = true -> wf_route b = true ->
  TunnelRoute_eq a b = TunnelRoute_eq b a.
Proof.
  unfold wf_route, TunnelRoute_eq. intros Wa Wb.
  rewrite (String.eqb_sym (hostname a)), (String.eqb_sym (service a)).
  f_equal.
  destruct (originRequest a), (originRequest b); simpl; auto using OriginRequest_eq_sym.
Qed.

Lemma TunnelRoute_eq_refl a : wf_route a = true -> TunnelRoute_eq a a = true.
Proof.
  unfold wf_route, TunnelRoute_eq. intros W. rewrite !String.eqb_refl. simpl.
  destruct (originRequest a); simpl; auto using OriginRequest_eq_refl.
Qed.

End ValueFacts.

(** ** Route entries: equality *)

Module EqualityClaims.
Import Py Model Facts DictFacts ValueFacts Samples ByValue.

Lemma same_length_of_keys (xs ys : Dict PyVal) :
  NoDup (dict_keys xs) -> NoDup (dict_keys ys) ->
  incl (dict_keys xs) (dict_keys ys) -> incl (dict_keys ys) (dict_keys xs) ->
  List.length xs = List.length ys.
Proof.
  intros Nx Ny I1 I2.
  pose proof (NoDup_incl_length Nx I1) as L1.
  pose proof (NoDup_incl_length Ny I2) as L2.
  unfold dict_keys in L1, L2. rewrite !length_map in L1, L2. lia.
Qed.

Lemma optional_bool_eq a b : optional_eq Bool.eqb a b = true <-> a = b.
Proof.
  destruct a as [[]|], b as [[]|]; simpl; split; congruence.
Qed.

(** *** The comparison of the code against equality by value *)

Lemma number_py_eq a b n :
  number a = Some n -> number b = Some n -> py_eq a b = true.
Proof.
  destruct a as [|x|p| | |], b as [|y|q| | |]; intros Ha Hb;
    try discriminate; cbn [py_eq].
  - destruct x, y; simpl in *; congruence.
  - apply Z.eqb_eq. destruct x; simpl in *; congruence.
  - apply Z.eqb_eq. destruct y; simpl in *; congruence.
  - apply Z.eqb_eq. simpl in *. congruence.
Qed.

Lemma py_eq_number a b :
  number a <> None -> py_eq a b = true ->
  exists n, number a = Some n /\ number b = Some n.
Proof.
  destruct a as [|x|p| | |], b as [|y|q| | |]; simpl;
    intros Ha E; try discriminate; try (now destruct Ha).
  - apply Bool.eqb_prop in E as ->. destruct y; eauto.
  - apply Z.eqb_eq in E as <-. destruct x; eauto.
  - apply Z.eqb_eq in E as ->. destruct y; eauto.
  - apply Z.eqb_eq in E as ->. eauto.
Qed.

Lemma wf_VList xs : wf_val (VList xs) = true <-> Forall (fun x => wf_val x = true) xs.
Proof. simpl. rewrite forallb_forall, Forall_forall. reflexivity. Qed.

(** On values whose dictionaries bind each key once, Python's [==] holds
    exactly between values that are the same by deep value. *)
Theorem py_eq_same_value : forall a b,
  wf_val a = true -> wf_val b = true ->
  (py_eq a b = true <-> same_value a b).
Proof.
  induction a as [| x | n | s | xs IH | xs IH] using PyVal_induction;
    intros b Wa Wb.
  - split.
    + destruct b; simpl; try discriminate. constructor.
    + intros H. inversion H; subst; [reflexivity | discriminate].
  - split.
    + intros E. destruct (py_eq_number (VBool x) b) as (n & Hn & Hm);
        [now destruct x | exact E | exact (same_number _ _ n Hn Hm)].
    + intros H. inversion H as [|? ? n Hn Hm| | |]; subst.
      exact (number_py_eq _ _ n Hn Hm).
  - split.
    + intros E. destruct (py_eq_number (VInt n) b) as (m & Hn & Hm);
        [discriminate | exact E | exact (same_number _ _ m Hn Hm)].
    + intros H. inversion H as [|? ? m Hn Hm| | |]; subst.
      exact (number_py_eq _ _ m Hn Hm).
  - split.
    + destruct b; simpl; try discriminate.
      intros E. apply String.eqb_eq in E as ->. constructor.
    + intros H. inversion H; subst; [discriminate | apply String.eqb_refl].
  - destruct b as [| | | | ys |];
      try (split; [discriminate | intros H; inversion H; discriminate]).
    apply wf_VList in Wa. apply wf_VList in Wb.
    assert (L : all2 py_eq xs ys = true <-> Forall2 same_value xs ys).
    { clear - IH Wa Wb. revert ys Wb.
      induction IH as [|x xs Hx _ IHxs]; intros [|y ys] Wb; simpl.
      - split; [constructor | reflexivity].
      - split; [discriminate | intros H; inversion H].
      - split; [discriminate | intros H; inversion H].
      - inversion Wa as [|? ? Wx Wxs]; inversion Wb as [|? ? Wy Wys]; subst.
        rewrite andb_true_iff, (Hx y Wx Wy), (IHxs Wxs ys Wys).
        split.
        + intros [H1 H2]. now constructor.
        + intros H. inversion H; subst. now split. }
    split.
    + intros E. constructor. now apply L.
    + intros H. inversion H; subst; [discriminate|]. now apply L.
  - destruct b as [| | | | | ys];
      try (split; [discriminate | intros H; inversion H; discriminate]).
    apply wf_VDict in Wa as [Nx Wx]. apply wf_VDict in Wb as [Ny Wy].
    rewrite Forall_forall in IH.
    assert (P : forall k v w, In (k, v) xs -> In (k, w) ys ->
                              (py_eq v w = true <-> same_value v w)).
    { intros k v w Hv Hw. apply (IH (k, v) Hv); eauto. }
    rewrite py_eq_VDict. split.
    + intros [L H]. constructor.
      * intros k. split; intros Hk.
        -- exact (bound_alike_keys _ _ _ H k Hk).
        -- apply (@NoDup_length_incl _ (dict_keys xs) (dict_keys ys) Nx).
           ++ unfold dict_keys. rewrite !length_map. lia.
           ++ exact (bound_alike_keys _ _ _ H).
           ++ exact Hk.
      * intros k v w Hv Hw. apply (P k v w Hv Hw).
        destruct (H k v Hv) as (w' & E & HR).
        rewrite (In_dict_get _ _ _ Ny Hw) in E. now injection E as <-.
    + intros H. inversion H as [|? ? ? Hn| | |? ? Hk Hv]; subst; [discriminate|].
      split.
      * apply same_length_of_keys; trivial; intros k; apply Hk.
      * intros k v Hin.
        assert (Hy : In k (dict_keys ys)) by (apply Hk; exact (in_map fst _ _ Hin)).
        destruct (dict_get_bound _ _ Hy) as (w & E). exists w. split; [exact E|].
        apply dict_get_In in E. apply (P k v w Hin E). eauto.
Qed.

(** C9. Route-entry equality ignores the order in which the keys of the
    options mapping were written, is symmetric, and holds exactly when
    hostname and service are the same strings and the origin options
    are the same by deep value: the same [noTLSVerify] and mappings
    that are the same as values, nested lists and mappings included. *)
Theorem route_equality_by_value
        (h s : string) (v : option bool) (m1 m2 : Dict PyVal)
        (a b : TunnelRoute) :
  wf_dict m1 = true -> Permutation m1 m2 ->
  wf_route a = true -> wf_route b = true ->
  TunnelRoute_eq
    {| hostname := h; service := s;
       originRequest := Some {| noTLSVerify := v; extra := m1 |} |}
    {| hostname := h; service := s;
       originRequest := Some {| noTLSVerify := v; extra := m2 |} |} = true
  /\ TunnelRoute_eq a b = TunnelRoute_eq b a
  /\ (TunnelRoute_eq a b = true <->
      hostname a = hostname b /\ service a = service b
      /\ same_origin_request (originRequest a) (originRequest b)).
Proof.
  intros W1 HP Wa Wb. split; [|split].
  - unfold TunnelRoute_eq, OriginRequest_eq. simpl.
    rewrite !String.eqb_refl, (dict_eq_permutation m1 m2 W1 HP).
    now destruct v as [[]|].
  - now apply TunnelRoute_eq_sym.
  - unfold TunnelRoute_eq, wf_route in *.
    rewrite !andb_true_iff, !String.eqb_eq.
    destruct (originRequest a) as [x|], (originRequest b) as [y|]; simpl;
      try (intuition congruence).
    unfold OriginRequest_eq, dict_eq.
    rewrite andb_true_iff, optional_bool_eq, (py_eq_same_value _ _ Wa Wb).
    tauto.
Qed.

Lemma route_equality_by_value_witness :
  TunnelRoute_eq (with_options route_a (Some true) nested_options)
                 (with_options route_a (Some true) nested_options_swapped) = true
  /\ same_origin_request
       (Some {| noTLSVerify := None; extra := nested_options |})
       (Some {| noTLSVerify := None; extra := nested_options_reordered |})
  /\ ~ same_origin_request
         (Some {| noTLSVerify := None; extra := nested_options |})
         (Some {| noTLSVerify := None; extra := nested_options_changed |}).
Proof.
  destruct (route_equality_by_value
              "a.example.com" "http://10.0.0.1:8080" (Some true)
              nested_options nested_options_swapped
              (with_options route_a None nested_options)
              (with_options route_a None nested_options_reordered))
    as (H1 & _ & H3).
  - reflexivity.
  - apply perm_swap.
  - reflexivity.
  - reflexivity.
  - destruct (route_equality_by_value
                "a.example.com" "http://10.0.0.1:8080" (Some true)
                nested_options nested_options_swapped
                (with_options route_a None nested_options)
                (with_options route_a None nested_options_changed))
      as (_ & _ & H4).
    + reflexivity.
    + apply perm_swap.
    + reflexivity.
    + reflexivity.
    + split; [exact H1 | split].
      * apply H3. reflexivity.
      * intros H.
        assert (E : TunnelRoute_eq (with_options route_a None nested_options)
                                   (with_options route_a None nested_options_changed)
                    = true).
        { apply H4. split; [reflexivity | split; [reflexivity | exact H]]. }
        discriminate E.
Defined.

End EqualityClaims.

(** ** Route reconciler: the three buckets *)

Module RouteClaims.
Import Py Model Facts DictFacts ValueFacts RouteFacts Samples.

Lemma only_in_first_true other r :
  only_in_first other r = true <-> ~ In (hostname r) (map hostname other).
Proof. unfold only_in_first. now rewrite negb_true_iff, mem_false. Qed.

Lemma differs_from_true other r :
  NoDup (map hostname other) ->
  differs_from other r = true <->
  exists r', In r' other /\ hostname r' = hostname r /\ TunnelRoute_eq r r' = false.
Proof.
  intros N. unfold differs_from, TunnelRoute_ne. split.
  - destruct (last_with hostname (hostname r) other) as [r'|] eqn:E; [|discriminate].
    intros H. apply last_with_Some in E as [Hin Hh].
    exists r'. now rewrite <- negb_true_iff.
  - intros (r' & Hin & Hh & E).
    rewrite (proj2 (last_with_In_iff other (hostname r) r' N) (conj Hin Hh)).
    now rewrite E.
Qed.

(** C1. With pairwise distinct hostnames on each side, [create] holds
    exactly the desired entries whose hostname no actual entry has,
    [delete] exactly the actual entries whose hostname no desired entry
    has, [update] exactly the desired entries whose hostname is on both
    sides with an unequal actual entry; a hostname whose two entries are
    equal is in no bucket. *)
Theorem compare_routes_partition
        (O : SetOrder) (desired actual : list TunnelRoute) :
  NoDup (map hostname desired) -> NoDup (map hostname actual) ->
  let actions := compare_routes O desired actual in
  (forall r, In r (create actions) <->
             In r desired /\ ~ In (hostname r) (map hostname actual))
  /\ (forall r, In r (delete actions) <->
                In r actual /\ ~ In (hostname r) (map hostname desired))
  /\ (forall r, In r (update actions) <->
                In r desired /\
                exists r', In r' actual /\ hostname r' = hostname r
                           /\ TunnelRoute_eq r r' = false)
  /\ (forall d a, In d desired -> In a actual -> hostname d = hostname a ->
                  TunnelRoute_eq d a = true ->
                  forall x, In x (create actions ++ update actions ++ delete actions) ->
                            hostname x <> hostname d).
Proof.
  intros Nd Na actions.
  assert (C : forall r, In r (create actions) <->
                        In r desired /\ ~ In (hostname r) (map hostname actual)).
  { intros r. subst actions.
    rewrite (Permutation_in_iff r _ _ (create_perm O desired actual Nd)).
    now rewrite filter_In, only_in_first_true. }
  assert (D : forall r, In r (delete actions) <->
                        In r actual /\ ~ In (hostname r) (map hostname desired)).
  { intros r. subst actions.
    rewrite (Permutation_in_iff r _ _ (delete_perm O desired actual Na)).
    now rewrite filter_In, only_in_first_true. }
  assert (U : forall r, In r (update actions) <->
                        In r desired /\
                        exists r', In r' actual /\ hostname r' = hostname r
                                   /\ TunnelRoute_eq r r' = false).
  { intros r. subst actions.
    rewrite (Permutation_in_iff r _ _ (update_perm O desired actual Nd)).
    now rewrite filter_In, (differs_from_true actual r Na). }
  split; [exact C | split; [exact D | split; [exact U |]]].
  intros d a Hd Ha Hh E x Hx Hxd.
  rewrite !in_app_iff, C, U, D in Hx. destruct Hx as [[_ Hx]|[[Hx Hr]|[_ Hx]]].
  - apply Hx. rewrite Hxd, Hh. now apply in_map.
  - destruct Hr as (r' & Hr' & Hh' & Ne).
    assert (x = d) as -> by (apply (key_injective hostname desired); auto).
    assert (r' = a) as -> by (apply (key_injective hostname actual); auto; congruence).
    congruence.
  - apply Hx. rewrite Hxd. now apply in_map.
Qed.

Lemma compare_routes_partition_witness :
  In route_b (create (compare_routes insertion_order
                                     [route_a; route_b] [route_a'; route_old]))
  /\ In route_old (delete (compare_routes insertion_order
                                          [route_a; route_b] [route_a'; route_old]))
  /\ In route_a (update (compare_routes insertion_order
                                        [route_a; route_b] [route_a'; route_old])).
Proof.
  destruct (compare_routes_partition insertion_order
              [route_a; route_b] [route_a'; route_old]) as (C & D & U & _).
  - repeat constructor; simpl; intuition discriminate.
  - repeat constructor; simpl; intuition discriminate.
  - split; [|split].
    + apply C. simpl. intuition discriminate.
    + apply D. simpl. intuition discriminate.
    + apply U. split; [simpl; tauto|]. exists route_a'. simpl. tauto.
Defined.

End RouteClaims.

(** ** Route reconciler: idempotence and bucket order *)

Module RouteOrderClaims.
Import Py Model Sync Facts DictFacts ValueFacts RouteFacts Samples Entry.
Import Roundtrip.

Lemma has_changes_false actions :
  has_changes actions = false -> actions = no_actions.
Proof.
  destruct actions as [[|] [|] [|]]; simpl; intros H;
    (reflexivity || discriminate).
Qed.

(** *** What a pushed document reads back as *)

Lemma filter_keys_subset {A} (f : string * A -> bool) (d : Dict A) k :
  In k (dict_keys (filter f d)) -> In k (dict_keys d).
Proof.
  unfold dict_keys. rewrite !in_map_iff. intros (kv & E & H).
  apply filter_In in H as [H _]. eauto.
Qed.

Lemma dict_get_absent {A} k (d : Dict A) :
  ~ In k (dict_keys d) -> dict_get k d = None.
Proof. apply dict_get_None. Qed.

Lemma filter_other_keys {A} k (d : Dict A) :
  ~ In k (dict_keys d) ->
  filter (fun kv => negb (String.eqb (fst kv) k)) d = d.
Proof.
  intros H. apply filter_all. intros [k' v] Hin. simpl.
  apply negb_true_iff, String.eqb_neq. intros ->.
  apply H. exact (in_map fst _ _ Hin).
Qed.

Lemma filter_shorter {A} (f : A -> bool) l x :
  In x l -> f x = false -> List.length (filter f l) < List.length l.
Proof.
  induction l as [|y l IH]; simpl; [contradiction|].
  pose proof (filter_length_le f l) as L.
  intros [->|H] E.
  - rewrite E. lia.
  - specialize (IH H E). destruct (f y); simpl; lia.
Qed.

Section ReadBack.
Variable V : Validators.

Lemma parse_origin_request_model_dump o :
  mem "noTLSVerify" (dict_keys (extra o)) = false ->
  parse_origin_request V (model_dump o)
  = Some {| noTLSVerify := noTLSVerify o;
            extra := filter (fun kv => negb (is_none (snd kv))) (extra o) |}.
Proof.
  intros H. apply mem_false in H.
  assert (K : ~ In "noTLSVerify"
                (dict_keys (filter (fun kv => negb (is_none (snd kv))) (extra o))))
    by (intros K; apply H; exact (filter_keys_subset _ _ _ K)).
  unfold parse_origin_request, model_dump.
  destruct (noTLSVerify o) as [b|].
  - change (dict_get "noTLSVerify" ([("noTLSVerify", VBool b)] ++ _))
      with (Some (VBool b)).
    unfold optional_field. rewrite validate_bool_keeps.
    change (filter ?f ([("noTLSVerify", VBool b)] ++ ?l)) with (filter f l).
    now rewrite (filter_other_keys _ _ K).
  - change ([] ++ ?l) with l.
    rewrite (dict_get_absent _ _ K). unfold optional_field.
    now rewrite (filter_other_keys _ _ K).
Qed.

Lemma parse_route_to_dict r :
  valid_route r = true -> parse_route V (to_dict r) = Some (without_null_options r).
Proof.
  unfold valid_route. intros H. apply andb_true_iff in H as [_ H].
  unfold parse_route, to_dict, without_null_options.
  change (dict_get "hostname" ([("hostname", ?h); ("service", ?s)] ++ _))
    with (Some h).
  change (dict_get "service" ([("hostname", ?h); ("service", ?s)] ++ _))
    with (Some s).
  cbv iota beta. rewrite !validate_str_keeps.
  destruct (originRequest r) as [o|].
  - change (dict_get "originRequest"
                     ([("hostname", ?h); ("service", ?s)]
                        ++ [("originRequest", ?v)]))
      with (Some v).
    unfold optional_field, validate_origin_request.
    apply negb_true_iff in H.
    now rewrite (parse_origin_request_model_dump o H).
  - reflexivity.
Qed.

Lemma routes_of_document_built routes :
  Forall (fun r => valid_route r = true) routes ->
  routes_of_document V (ingress (build_cloudflare_config routes))
  = Some (map without_null_options routes).
Proof.
  unfold build_cloudflare_config. simpl ingress.
  induction 1 as [|r routes Hr _ IH]; [reflexivity|].
  change (map to_dict (r :: routes) ++ [catch_all])
    with (to_dict r :: (map to_dict routes ++ [catch_all])).
  change (routes_of_document V (to_dict r :: ?rest))
    with (match parse_route V (to_dict r) with
          | Some route => option_map (cons route) (routes_of_document V rest)
          | None => None
          end).
  now rewrite (parse_route_to_dict r Hr), IH.
Qed.
End ReadBack.

Lemma read_back_equal r :
  valid_route r = true ->
  TunnelRoute_eq r (without_null_options r) = negb (has_null_option r).
Proof.
  unfold valid_route, wf_route, TunnelRoute_eq, without_null_options,
    has_null_option.
  intros H. apply andb_true_iff in H as [W _]. simpl.
  rewrite !String.eqb_refl. simpl.
  destruct (originRequest r) as [o|]; [|reflexivity]. simpl.
  unfold OriginRequest_eq. simpl.
  replace (optional_eq Bool.eqb (noTLSVerify o) (noTLSVerify o)) with true
    by now destruct (noTLSVerify o) as [[]|].
  simpl.
  destruct (existsb (fun kv => is_none (snd kv)) (extra o)) eqn:E; simpl.
  - unfold dict_eq. simpl. apply andb_false_iff. left. apply Nat.eqb_neq.
    apply existsb_exists in E as (kv & Hin & N).
    assert (L : List.length (filter (fun kv => negb (is_none (snd kv))) (extra o))
                < List.length (extra o)).
    { apply (filter_shorter _ _ kv Hin). now rewrite N. }
    lia.
  - rewrite filter_all.
    + exact (py_eq_refl _ W).
    + intros kv Hin. apply negb_true_iff.
      destruct (is_none (snd kv)) eqn:N; [|reflexivity].
      assert (X : existsb (fun kv => is_none (snd kv)) (extra o) = true)
        by (apply existsb_exists; eauto).
      congruence.
Qed.

Lemma routes_of_rules_of_document V ingress_rules :
  routes_of_document V ingress_rules
  = option_map routes_of_rules (rules_of_document V ingress_rules).
Proof.
  induction ingress_rules as [|rule rest IH]; simpl; [reflexivity|].
  destruct (has_hostname rule).
  - destruct (parse_route V rule); [|reflexivity].
    rewrite IH. now destruct (rules_of_document V rest).
  - rewrite IH. now destruct (rules_of_document V rest).
Qed.

Lemma without_null_options_hostnames routes :
  map hostname (map without_null_options routes) = map hostname routes.
Proof. rewrite map_map. reflexivity. Qed.

(** C2 fails on the code.  After a real run has pushed the desired
    list, the next comparison plans nothing to create and nothing to
    delete, but it plans once more the update of exactly those desired
    entries that carry an option bound to [None]: the pushed document
    leaves such options out, so the entry read back differs from the
    local one.  Reconciliation is idempotent only for desired lists
    without such an option. *)
Theorem null_options_are_updated_again
        (V : Validators) (O : SetOrder) (D A : list TunnelRoute) :
  NoDup (map hostname D) ->
  Forall (fun r => valid_route r = true) D ->
  exists A',
    routes_after_apply V O D A = Some A'
    /\ create (compare_routes O D A') = []
    /\ delete (compare_routes O D A') = []
    /\ (forall r, In r (update (compare_routes O D A')) <->
                  In r D /\ has_changes (compare_routes O D A) = true
                  /\ has_null_option r = true).
Proof.
  intros N W. unfold routes_after_apply.
  destruct (has_changes (compare_routes O D A)) eqn:H.
  - exists (map without_null_options D).
    pose proof (without_null_options_hostnames D) as Hh.
    assert (N' : NoDup (map hostname (map without_null_options D)))
      by now rewrite Hh.
    split; [now apply routes_of_document_built|]. split; [|split].
    + apply Permutation_nil_eq. rewrite (create_perm O D _ N).
      rewrite filter_none; [reflexivity|].
      intros r Hr. unfold only_in_first. apply negb_false_iff, mem_In.
      rewrite Hh. now apply in_map.
    + apply Permutation_nil_eq. rewrite (delete_perm O D _ N').
      rewrite filter_none; [reflexivity|].
      intros r Hr. unfold only_in_first. apply negb_false_iff, mem_In.
      rewrite <- Hh. now apply in_map.
    + intros r. rewrite (Permutation_in_iff r _ _ (update_perm O D _ N)).
      rewrite filter_In.
      assert (E : In r D -> differs_from (map without_null_options D) r
                            = has_null_option r).
      { intros Hr. unfold differs_from.
        rewrite (last_with_NoDup hostname _ (without_null_options r) N'
                   (in_map _ _ _ Hr)
                 : last_with hostname (hostname r) _ = _).
        unfold TunnelRoute_ne. rewrite read_back_equal.
        - apply negb_involutive.
        - rewrite Forall_forall in W. auto. }
      split.
      * intros [Hr Hd]. rewrite (E Hr) in Hd. auto.
      * intros (Hr & _ & Hn). rewrite (E Hr). auto.
  - exists A. split; [reflexivity|].
    rewrite (has_changes_false _ H). simpl.
    split; [reflexivity | split; [reflexivity|]].
    intros r. split; [contradiction | intros (_ & F & _); discriminate].
Qed.

Lemma null_options_are_updated_again_witness :
  (exists A',
      routes_after_apply strict_validators descending_order
                         [route_null; route_b] [] = Some A'
      /\ In route_null
            (update (compare_routes descending_order [route_null; route_b] A'))
      /\ ~ In route_b
             (update (compare_routes descending_order [route_null; route_b] A')))
  /\ routes_after_apply strict_validators descending_order [route_null; route_b] []
     = Some [without_null_options route_null; route_b]
  /\ compare_routes descending_order [route_null; route_b]
                    [without_null_options route_null; route_b]
     = {| create := []; update := [route_null]; delete := [] |}
  /\ result (get_cloudflare_routes second_run)
     = Ok [without_null_options route_null]
  /\ calls (trace (sync second_run descending_order false))
     = [GetTunnelConfiguration;
        UpdateTunnelConfiguration (build_cloudflare_config [route_null])].
Proof.
  split; [|repeat split; reflexivity].
  destruct (null_options_are_updated_again
              strict_validators descending_order [route_null; route_b] [])
    as (A' & HA & _ & _ & HU).
  - repeat constructor; simpl; intuition discriminate.
  - repeat constructor.
  - exists A'. split; [exact HA | split].
    + apply HU. split; [now left | split; reflexivity].
    + intros H. apply HU in H as (_ & _ & H). discriminate H.
Defined.

(** C5 as stated fails.  Buckets do not keep input order: under a set that
    iterates in descending order of its members, two routes to create
    come out swapped, while under a set that iterates in insertion order
    they come out as given; so the same inputs do not fix the order of a
    bucket. *)
Lemma bucket_order_not_input_order :
  NoDup (map hostname [route_a; route_b])
  /\ compare_routes descending_order [route_a; route_b] []
     <> reconcile_routes_in_order [route_a; route_b] []
  /\ create (compare_routes descending_order [route_a; route_b] [])
     = [route_b; route_a]
  /\ create (compare_routes insertion_order [route_a; route_b] [])
     = [route_a; route_b].
Proof.
  split; [|split; [|split]].
  - repeat constructor; simpl; intuition discriminate.
  - intros H. apply (f_equal create) in H. vm_compute in H. congruence.
  - reflexivity.
  - reflexivity.
Qed.

(** Looking up the members of a set one by one lists them in the
    order of the set. *)
Lemma hostnames_of_selection (g : string -> list TunnelRoute) (q : string -> bool)
      (names : list string) :
  (forall h, In h names ->
             if q h then exists r, g h = [r] /\ hostname r = h else g h = []) ->
  map hostname (flat_map g names) = filter q names.
Proof.
  induction names as [|h names IH]; simpl; intros H; [reflexivity|].
  rewrite map_app, IH by (intros h' Hh'; apply H; now right).
  specialize (H h (or_introl eq_refl)).
  destruct (q h).
  - destruct H as (r & -> & <-). reflexivity.
  - now rewrite H.
Qed.

(** C5, amended. Each bucket is the input-order selection up to a
    permutation: [create] and [update] rearrange selections from the
    desired list, [delete] one from the actual list.  The order of a
    bucket is the iteration order of the set of hostnames its loop
    walks: the two set differences for [create] and [delete], the
    intersection (restricted to the hostnames whose entries differ) for
    [update]. *)
Theorem buckets_are_input_selections_up_to_order
        (O : SetOrder) (desired actual : list TunnelRoute) :
  NoDup (map hostname desired) -> NoDup (map hostname actual) ->
  let actions := compare_routes O desired actual in
  let ordered := reconcile_routes_in_order desired actual in
  let desired_names := set_of O (map hostname desired) in
  let actual_names := set_of O (map hostname actual) in
  Permutation (create actions) (create ordered)
  /\ Permutation (update actions) (update ordered)
  /\ Permutation (delete actions) (delete ordered)
  /\ map hostname (create actions)
     = set_difference O desired_names actual_names
  /\ map hostname (delete actions)
     = set_difference O actual_names desired_names
  /\ map hostname (update actions)
     = filter (fun h => match last_with hostname h desired with
                        | Some d => differs_from actual d
                        | None => false
                        end)
              (set_intersection O desired_names actual_names).
Proof.
  intros Nd Na. cbv zeta.
  split; [now apply create_perm|]. split; [now apply update_perm|].
  split; [now apply delete_perm|].
  unfold compare_routes. simpl.
  rewrite !(routes_by_hostname_keys _ Nd), !(routes_by_hostname_keys _ Na).
  split; [|split].
  - rewrite (hostnames_of_selection _ (fun _ => true)); [apply filter_all; auto|].
    intros h Hh. apply set_difference_In in Hh as [Hh _]. apply set_of_In in Hh.
    unfold getitem. rewrite routes_by_hostname_get.
    destruct (last_with hostname h desired) as [r|] eqn:E.
    + apply last_with_Some in E as [_ E]. eauto.
    + now apply last_with_None in E.
  - rewrite (hostnames_of_selection _ (fun _ => true)); [apply filter_all; auto|].
    intros h Hh. apply set_difference_In in Hh as [Hh _]. apply set_of_In in Hh.
    unfold getitem. rewrite routes_by_hostname_get.
    destruct (last_with hostname h actual) as [r|] eqn:E.
    + apply last_with_Some in E as [_ E]. eauto.
    + now apply last_with_None in E.
  - apply hostnames_of_selection.
    intros h Hh. apply set_intersection_In in Hh as [Hd Ha].
    apply set_of_In in Hd. apply set_of_In in Ha.
    rewrite !routes_by_hostname_get.
    destruct (last_with hostname h desired) as [d|] eqn:Ed;
      [|now apply last_with_None in Ed].
    apply last_with_Some in Ed as [_ Ed]. unfold differs_from. rewrite Ed.
    destruct (last_with hostname h actual) as [a|] eqn:Ea;
      [|now apply last_with_None in Ea].
    destruct (TunnelRoute_ne d a); eauto.
Qed.

Lemma buckets_are_input_selections_up_to_order_witness :
  Permutation
    (create (compare_routes descending_order [route_a; route_b] [route_old]))
    [route_a; route_b]
  /\ map hostname
         (create (compare_routes descending_order [route_a; route_b] [route_old]))
     = ["b.example.com"; "a.example.com"].
Proof.
  destruct (buckets_are_input_selections_up_to_order
              descending_order [route_a; route_b] [route_old])
    as (C & _ & _ & H & _).
  - repeat constructor; simpl; intuition discriminate.
  - repeat constructor; simpl; intuition discriminate.
  - split; [exact C | exact H].
Defined.

End RouteOrderClaims.

(** ** DNS reconciler: the plan *)

Module DnsClaims.
Import Py Model Sync Facts DictFacts Samples.

Lemma endswith_unfold s suffix :
  endswith s suffix
  = (String.eqb s suffix
     || match s with
        | EmptyString => false
        | String _ s' => endswith s' suffix
        end).
Proof. now destruct s. Qed.

Lemma endswith_spec s suffix :
  endswith s suffix = true <-> exists p, s = (p ++ suffix)%string.
Proof.
  split.
  - induction s as [|c s IH]; rewrite endswith_unfold, orb_true_iff.
    + intros [E|E]; [|discriminate]. apply String.eqb_eq in E. now exists "".
    + intros [E|E].
      * apply String.eqb_eq in E. now exists "".
      * destruct (IH E) as (p & ->). now exists (String c p).
  - intros (p & ->). induction p as [|c p IH]; rewrite endswith_unfold.
    + simpl. now rewrite String.eqb_refl.
    + change (String c p ++ suffix)%string with (String c (p ++ suffix)%string).
      cbv iota. rewrite IH. apply orb_true_r.
Qed.

Lemma is_managed_spec r :
  is_managed r = true <->
  type r = "CNAME" /\ exists p, content r = (p ++ ".cfargotunnel.com")%string.
Proof.
  unfold is_managed. now rewrite andb_true_iff, String.eqb_eq, endswith_spec.
Qed.

Lemma index_dns_records_assign records :
  index_dns_records records = assign_all name (filter is_managed records) [].
Proof. unfold index_dns_records. apply fold_left_guard. Qed.

Lemma index_dns_records_get records n :
  dict_get n (index_dns_records records) = managed_record records n.
Proof.
  rewrite index_dns_records_assign, assign_all_get. unfold managed_record.
  now destruct (last_with name n _).
Qed.


Lemma index_dns_records_keys records n :
  In n (dict_keys (index_dns_records records)) <-> managed_record records n <> None.
Proof.
  rewrite <- index_dns_records_get, dict_get_None. split; [tauto|].
  intros H. destruct (in_dec string_dec n (dict_keys (index_dns_records records)));
    tauto.
Qed.


Lemma managed_record_last l r n :
  managed_record (l ++ [r]) n
  = if is_managed r && String.eqb (name r) n then Some r else managed_record l n.
Proof.
  unfold managed_record. rewrite filter_app. simpl.
  destruct (is_managed r); simpl.
  - apply last_with_snoc.
  - now rewrite app_nil_r.
Qed.

Lemma managed_record_Some records n r :
  managed_record records n = Some r ->
  In r records /\ is_managed r = true /\ name r = n.
Proof.
  unfold managed_record. intros H. apply last_with_Some in H as [H E].
  apply filter_In in H. tauto.
Qed.


Section Plan.
Variable O : SetOrder.
Variable routes : list TunnelRoute.
Variable target : string.
Variable records : list DNSRecord.

Let existing := index_dns_records records.
Let p := dns_plan O routes target existing.

Lemma dns_create_In h :
  In h (dns_create p) <->
  In h (map hostname routes) /\ managed_record records h = None.
Proof.
  unfold p, dns_plan. simpl.
  rewrite set_difference_In, !set_of_In. unfold existing.
  rewrite index_dns_records_keys.
  destruct (managed_record records h); intuition congruence.
Qed.

Lemma dns_delete_In h :
  In h (dns_delete p) <->
  managed_record records h <> None /\ ~ In h (map hostname routes).
Proof.
  unfold p, dns_plan. simpl.
  rewrite set_difference_In, !set_of_In. unfold existing.
  now rewrite index_dns_records_keys.
Qed.

Lemma dns_update_In h :
  In h (dns_update p) <->
  In h (map hostname routes) /\
  exists r, managed_record records h = Some r /\ content r <> target.
Proof.
  unfold p, dns_plan. simpl.
  rewrite filter_In, set_intersection_In, !set_of_In. unfold existing.
  rewrite index_dns_records_keys. unfold points_elsewhere.
  rewrite index_dns_records_get.
  destruct (managed_record records h) as [r|].
  - rewrite negb_true_iff, String.eqb_neq. split.
    + intros [[H _] N]. eauto.
    + intros [H (r' & [= <-] & N)]. repeat split; congruence.
  - split; [intros [_ ?]; discriminate | intros [_ (r & ? & _)]; discriminate].
Qed.


End Plan.



End DnsClaims.

(** ** Programs and their traces *)

Module SyncFacts.
Import Py Model Sync Facts DictFacts.
Local Open Scope prog_scope.

Lemma trace_bind {A B} (m : M A) (k : A -> M B) :
  trace (bind m k)
  = trace m ++ match result m with Ok a => trace (k a) | _ => [] end.
Proof.
  unfold bind. destruct (result m); simpl; now rewrite ?app_nil_r.
Qed.

Lemma result_bind {A B} (m : M A) (k : A -> M B) :
  result (bind m k)
  = match result m with
    | Ok a => result (k a)
    | Raise e => Raise e
    | SysExit c => SysExit c
    end.
Proof. unfold bind. now destruct (result m). Qed.

Lemma bind_ret {A B} (a : A) (k : A -> M B) : bind (ret a) k = k a.
Proof. unfold bind, ret. simpl. now destruct (k a). Qed.


Lemma for_each_print {A} (l : list A) (f : A -> string) :
  for_each l (fun x => print (f x)) = (map (fun x => Print (f x)) l, Ok tt).
Proof.
  induction l as [|x l IH]; simpl; [reflexivity|].
  rewrite IH. reflexivity.
Qed.

Lemma calls_app t t' : calls (t ++ t') = calls t ++ calls t'.
Proof. apply flat_map_app. Qed.

(** *** The requests a run makes *)

Lemma issues_ret {A} (a : A) : issues (ret a) [].
Proof. split; [now exists [] | reflexivity]. Qed.

Lemma issues_print s : issues (print s) [].
Proof. split; [now exists [] | reflexivity]. Qed.

Lemma issues_mutate api r : issues (mutate api r) [r].
Proof. split; [now exists [] | reflexivity]. Qed.

Lemma issues_stop {A} (m : M A) cs :
  calls (trace m) = [] -> (forall a, result m <> Ok a) -> issues m cs.
Proof.
  intros E H. split; [rewrite E; now exists cs | intros a Ha; now destruct (H a)].
Qed.

Lemma issues_bind {A B} (m : M A) (k : A -> M B) cs cs' :
  issues m cs ->
  (forall a, result m = Ok a -> issues (k a) cs') ->
  issues (bind m k) (cs ++ cs').
Proof.
  intros [(r & Hr) Hm] Hk. unfold issues.
  rewrite trace_bind, result_bind, calls_app.
  destruct (result m) as [a| |] eqn:E.
  - destruct (Hk a eq_refl) as [(r' & Hr') Hk']. rewrite (Hm a eq_refl). split.
    + exists r'. now rewrite Hr', app_assoc.
    + intros b Hb. now rewrite (Hk' b Hb).
  - simpl. rewrite app_nil_r. split; [|discriminate].
    exists (r ++ cs'). now rewrite Hr, app_assoc.
  - simpl. rewrite app_nil_r. split; [|discriminate].
    exists (r ++ cs'). now rewrite Hr, app_assoc.
Qed.

Lemma issues_for_each {A} (l : list A) body (g : A -> list Request) :
  (forall x, In x l -> issues (body x) (g x)) ->
  issues (for_each l body) (flat_map g l).
Proof.
  induction l as [|x l IH]; simpl; intros H; [apply issues_ret|].
  apply issues_bind; auto.
Qed.

Lemma issues_try {A} (m : M A) h cs :
  issues m cs ->
  (forall s msg t, calls (trace (h s msg t)) = []
                   /\ forall a, result (h s msg t) <> Ok a) ->
  issues (try_except_http m h) cs.
Proof.
  intros [Hp Hm] Hh. unfold try_except_http.
  destruct (result m) as [a|[s msg t|msg]|c] eqn:E;
    try (split; [exact Hp | now rewrite E]).
  destruct (Hh s msg t) as [Hc Hr]. split; simpl.
  - now rewrite calls_app, Hc, app_nil_r.
  - intros a Ha. now destruct (Hr a).
Qed.

Lemma flat_map_singleton {A B} (f : A -> B) l :
  flat_map (fun x => [f x]) l = map f l.
Proof. induction l; simpl; congruence. Qed.

End SyncFacts.

(** ** The runs of [sync] *)

Module RunFacts.
Import Py Model Sync Facts DictFacts SyncFacts.
Local Open Scope prog_scope.

Lemma issues_exact {A} (m : M A) cs : calls (trace m) = cs -> issues m cs.
Proof. intros <-. split; [exists []; now rewrite app_nil_r | reflexivity]. Qed.

Lemma issues_bind_nil {A B} (m : M A) (k : A -> M B) cs :
  issues m [] ->
  (forall a, result m = Ok a -> issues (k a) cs) ->
  issues (bind m k) cs.
Proof. intros Hm Hk. exact (issues_bind m k [] cs Hm Hk). Qed.

Lemma calls_prints lines : calls (map Print lines) = [].
Proof. induction lines; simpl; auto. Qed.

Lemma report_bucket {A} header (line : A -> string) items :
  when (negb (is_empty items))
       (print header ;; for_each items (fun x => print (line x)))
  = (map Print (bucket_lines header line items), Ok tt).
Proof.
  destruct items as [|x items]; [reflexivity|].
  unfold when, bucket_lines. simpl negb. simpl is_empty. cbv iota.
  rewrite for_each_print. unfold bind. simpl. now rewrite map_map.
Qed.

Lemma route_report_run actions :
  route_report actions = (map Print (route_report_lines actions), Ok tt).
Proof.
  unfold route_report, route_report_lines. rewrite !report_bucket, !map_app.
  reflexivity.
Qed.

Lemma dns_report_run self p :
  dns_report self p = (map Print (dns_report_lines (target self) p), Ok tt).
Proof.
  unfold dns_report, dns_report_lines. rewrite !report_bucket, !map_app.
  reflexivity.
Qed.

(** The 404 branch of [get_cloudflare_routes] is never taken: an error
    response is falsy. *)
Lemma not_found_branch_dead status :
  response_truthy status && (status =? 404)%Z = false.
Proof.
  unfold response_truthy. destruct (Z.eqb_spec status 404) as [->|_].
  - reflexivity.
  - apply andb_false_r.
Qed.

Lemma get_cloudflare_routes_calls self :
  calls (trace (get_cloudflare_routes self)) = [GetTunnelConfiguration].
Proof.
  unfold get_cloudflare_routes, get_tunnel_configuration, try_except_http, bind.
  destruct (tunnel_configuration (api self)) as [[rules|]|[st msg txt|msg]];
    simpl; try reflexivity.
  now rewrite not_found_branch_dead.
Qed.

Lemma get_cloudflare_routes_result self a :
  result (get_cloudflare_routes self) = Ok a -> a = remote_routes_of self.
Proof.
  unfold get_cloudflare_routes, get_tunnel_configuration, try_except_http, bind,
    remote_routes_of.
  destruct (tunnel_configuration (api self)) as [[rules|]|[st msg txt|msg]];
    simpl; try congruence.
  now rewrite not_found_branch_dead.
Qed.

Lemma get_existing_dns_records_calls self :
  calls (trace (get_existing_dns_records self)) = [ListDnsRecords].
Proof.
  unfold get_existing_dns_records, list_dns_records, try_except_http, bind.
  now destruct (dns_listing (api self)) as [records|[st msg txt|msg]].
Qed.

Lemma get_existing_dns_records_result self a :
  result (get_existing_dns_records self) = Ok a -> a = existing_records_of self.
Proof.
  unfold get_existing_dns_records, list_dns_records, try_except_http, bind,
    existing_records_of.
  destruct (dns_listing (api self)) as [records|[st msg txt|msg]];
    simpl; congruence.
Qed.

Lemma load_local_config_result self a :
  result (load_local_config self) = Ok a -> a = local_routes_of self.
Proof.
  unfold load_local_config, local_routes_of.
  destruct (config_file self); simpl; congruence.
Qed.

Lemma report_http_error_stops what s msg t :
  calls (trace (report_http_error what s msg t)) = []
  /\ forall a, result (report_http_error what s msg t) <> Ok a.
Proof. split; [reflexivity | discriminate]. Qed.

(** *** DNS application *)

Section Apply.
Variable self : TunnelConfigManager.
Variable existing : Dict DNSRecord.

Lemma dns_create_step_issues h :
  issues (dns_create_step self h)
         [CreateDnsRecord (cname_record h (target self))].
Proof.
  unfold dns_create_step, create_dns_record.
  apply (issues_bind _ _ [_] []); [apply issues_mutate|].
  intros _ _. apply issues_print.
Qed.

Lemma dns_update_step_issues h :
  issues (dns_update_step self existing h)
         (update_call (target self) existing h).
Proof.
  unfold dns_update_step, update_call, lookup_record, update_dns_record.
  destruct (dict_get h existing) as [r|].
  - rewrite bind_ret. destruct (id_truthy (id r)) as [i|].
    + apply (issues_bind _ _ [_] []); [apply issues_mutate|].
      intros _ _. apply issues_print.
    + apply issues_ret.
  - apply issues_stop; [reflexivity | discriminate].
Qed.

Lemma dns_delete_step_issues h :
  issues (dns_delete_step self existing h) (delete_call existing h).
Proof.
  unfold dns_delete_step, delete_call, lookup_record, delete_dns_record.
  destruct (dict_get h existing) as [r|].
  - rewrite bind_ret. destruct (id_truthy (id r)) as [i|].
    + apply (issues_bind _ _ [_] []); [apply issues_mutate|].
      intros _ _. apply issues_print.
    + apply issues_ret.
  - apply issues_stop; [reflexivity | discriminate].
Qed.

Lemma dns_apply_issues p :
  issues (dns_apply self existing p) (dns_calls (target self) existing p).
Proof.
  unfold dns_apply, dns_calls.
  rewrite <- (flat_map_singleton
                (fun h => CreateDnsRecord (cname_record h (target self)))).
  rewrite <- (app_nil_r (flat_map (delete_call existing) _)).
  apply issues_bind.
  { apply issues_for_each. intros h _. apply dns_create_step_issues. }
  intros _ _. apply issues_bind.
  { apply issues_for_each. intros h _. apply dns_update_step_issues. }
  intros _ _. apply issues_bind.
  { apply issues_for_each. intros h _. apply dns_delete_step_issues. }
  intros _ _. apply issues_print.
Qed.
End Apply.

Lemma dns_calls_no_changes target existing p :
  dns_has_changes p = false -> dns_calls target existing p = [].
Proof.
  unfold dns_has_changes, dns_calls.
  destruct (dns_create p), (dns_update p), (dns_delete p);
    simpl; (reflexivity || discriminate).
Qed.

Lemma sync_dns_records_issues self O routes dry_run :
  issues (sync_dns_records self O routes dry_run)
         (if manage_dns self
          then ListDnsRecords
               :: (if dry_run then []
                   else dns_calls (target self) (existing_records_of self)
                                  (dns_plan O routes (target self)
                                            (existing_records_of self)))
          else []).
Proof.
  unfold sync_dns_records. destruct (manage_dns self); simpl; [|apply issues_ret].
  apply issues_bind_nil; [apply issues_print|]. intros _ _.
  apply (issues_bind _ _ [_]).
  { apply issues_exact, get_existing_dns_records_calls. }
  intros existing He. apply get_existing_dns_records_result in He as ->.
  apply issues_bind_nil.
  { rewrite dns_report_run. apply issues_exact, calls_prints. }
  intros _ _.
  destruct (dns_has_changes _) eqn:Hc; simpl.
  - destruct dry_run; [apply issues_ret|].
    apply issues_try; [apply dns_apply_issues|].
    intros s msg t. apply report_http_error_stops.
  - rewrite (dns_calls_no_changes _ _ _ Hc).
    destruct dry_run; apply issues_print.
Qed.

Lemma apply_routes_issues self local :
  issues (apply_routes self local)
         [UpdateTunnelConfiguration (build_cloudflare_config local)].
Proof.
  unfold apply_routes, update_tunnel_configuration.
  apply issues_bind_nil; [apply issues_print|]. intros _ _.
  apply issues_try.
  - apply (issues_bind _ _ [_] []); [apply issues_mutate|].
    intros _ _. apply issues_print.
  - intros s msg t. apply report_http_error_stops.
Qed.

Lemma apply_phase_issues self actions local dry_run :
  issues (apply_phase self actions local dry_run)
         (if has_changes actions && negb dry_run
          then [UpdateTunnelConfiguration (build_cloudflare_config local)]
          else []).
Proof.
  unfold apply_phase. destruct (has_changes actions); simpl.
  - destruct dry_run; simpl; [apply issues_print | apply apply_routes_issues].
  - apply issues_print.
Qed.

(** Every run makes an initial segment of [expected_calls], all of it
    when it ends normally. *)
Lemma sync_issues self O dry_run :
  issues (sync self O dry_run) (expected_calls self O dry_run).
Proof.
  unfold sync, expected_calls.
  apply issues_bind_nil; [apply issues_print|]. intros _ _.
  apply issues_bind_nil; [apply issues_exact; reflexivity|].
  intros local Hl. apply load_local_config_result in Hl as ->.
  apply issues_bind_nil; [apply issues_print|]. intros _ _.
  apply issues_bind_nil; [apply issues_print|]. intros _ _.
  apply issues_bind.
  { apply issues_exact, get_cloudflare_routes_calls. }
  intros remote Hr. apply get_cloudflare_routes_result in Hr as ->.
  apply issues_bind_nil; [apply issues_print|]. intros _ _.
  apply issues_bind_nil; [apply issues_print|]. intros _ _.
  apply issues_bind_nil.
  { rewrite route_report_run. apply issues_exact, calls_prints. }
  intros _ _. apply issues_bind; [apply apply_phase_issues|].
  intros _ _. apply sync_dns_records_issues.
Qed.

End RunFacts.

(** ** The shape of a run *)

Module ShapeFacts.
Import Py Model Sync Facts DictFacts SyncFacts RunFacts.
Local Open Scope prog_scope.

Lemma trace_bind_print {B} s (k : unit -> M B) :
  trace (bind (print s) k) = Print s :: trace (k tt).
Proof. reflexivity. Qed.

Lemma result_bind_print {B} s (k : unit -> M B) :
  result (bind (print s) k) = result (k tt).
Proof. reflexivity. Qed.

Lemma trace_bind_ok {A B} (m : M A) (k : A -> M B) a :
  result m = Ok a -> trace (bind m k) = trace m ++ trace (k a).
Proof. intros H. now rewrite trace_bind, H. Qed.

Lemma result_bind_ok {A B} (m : M A) (k : A -> M B) a :
  result m = Ok a -> result (bind m k) = result (k a).
Proof. intros H. now rewrite result_bind, H. Qed.

Lemma In_calls r t : In r (calls t) <-> In (Api r) t.
Proof.
  unfold calls. rewrite in_flat_map. split.
  - intros ([l|r'] & H & Hr); simpl in Hr; [contradiction|].
    destruct Hr as [->|[]]. exact H.
  - intros H. exists (Api r). simpl. auto.
Qed.

Lemma load_local_config_ok self local :
  config_file self = Returns local -> load_local_config self = ret local.
Proof. unfold load_local_config. now intros ->. Qed.

(** Once both reads have succeeded, a run is the report followed by the
    apply step and the DNS synchronisation. *)
Lemma sync_shape self O dry_run local remote :
  config_file self = Returns local ->
  result (get_cloudflare_routes self) = Ok remote ->
  let actions := compare_routes O local remote in
  let rest := apply_phase self actions local dry_run ;;
              sync_dns_records self O local dry_run in
  trace (sync self O dry_run)
  = report_head self local remote actions ++ trace rest
  /\ result (sync self O dry_run) = result rest.
Proof.
  intros Hl Hr actions rest. unfold sync.
  rewrite trace_bind_print, result_bind_print, (load_local_config_ok _ _ Hl),
    bind_ret.
  rewrite !trace_bind_print, !result_bind_print.
  rewrite (trace_bind_ok _ _ _ Hr), (result_bind_ok _ _ _ Hr).
  rewrite !trace_bind_print, !result_bind_print.
  fold actions.
  assert (Hrep : result (route_report actions) = Ok tt)
    by now rewrite route_report_run.
  rewrite (trace_bind_ok _ _ _ Hrep), (result_bind_ok _ _ _ Hrep).
  fold rest. unfold report_head. split; [|reflexivity].
  simpl. f_equal. f_equal. f_equal. now rewrite <- !app_assoc.
Qed.

Lemma report_head_calls self local remote actions :
  calls (report_head self local remote actions) = [GetTunnelConfiguration].
Proof.
  unfold report_head.
  rewrite !calls_app, get_cloudflare_routes_calls, route_report_run.
  simpl trace. now rewrite calls_prints.
Qed.

Lemma quiet_of_calls (stop : Request -> bool) t :
  Forall (fun r => stop r = false) (calls t) ->
  Forall (fun e => match e with Api r => stop r | Print _ => false end = false) t.
Proof.
  induction t as [|[l|r] t IH]; simpl; intros H; constructor; auto.
  - now inversion H.
  - apply IH. now inversion H.
Qed.

Lemma prefix_Forall {A} (P : A -> Prop) l l' :
  prefix_of l l' -> Forall P l' -> Forall P l.
Proof. intros (r & ->) H. now apply Forall_app in H. Qed.

Lemma printed_before_intro stop line t1 t2 :
  Forall (fun e => stop e = false) t1 ->
  printed_in line t1 = true ->
  printed_before stop line (t1 ++ t2) = true.
Proof.
  induction 1 as [|e t1 He _ IH]; simpl; [discriminate|].
  rewrite He. destruct e as [l|r]; [|exact IH].
  destruct (String.eqb l line); simpl; auto.
Qed.

Lemma printed_before_skip stop line t1 t2 :
  Forall (fun e => stop e = false) t1 ->
  printed_before stop line t2 = true ->
  printed_before stop line (t1 ++ t2) = true.
Proof.
  induction 1 as [|e t1 He _ IH]; simpl; [auto|].
  rewrite He. intros H. destruct e as [l|r]; auto.
  rewrite (IH H). apply orb_true_r.
Qed.

Lemma printed_in_prints line lines :
  In line lines -> printed_in line (map Print lines) = true.
Proof.
  intros H. unfold printed_in. apply existsb_exists.
  exists (Print line). split; [now apply in_map | apply String.eqb_refl].
Qed.

Lemma printed_in_app line t t' :
  printed_in line (t ++ t') = printed_in line t || printed_in line t'.
Proof. apply existsb_app. Qed.

Lemma bucket_lines_In {A} header (line : A -> string) items x :
  In x items -> In (line x) (bucket_lines header line items).
Proof.
  intros H. unfold bucket_lines. destruct items; [contradiction|].
  right. now apply in_map.
Qed.

End ShapeFacts.

(** ** The phases of a run *)

Module PhaseFacts.
Import Py Model Sync Facts DictFacts SyncFacts RunFacts ShapeFacts.
Local Open Scope prog_scope.

Lemma dns_calls_kinds target existing p :
  Forall (fun r => is_dns_mutation r = true) (dns_calls target existing p).
Proof.
  unfold dns_calls. rewrite !Forall_app, !Forall_forall. repeat split; intros r H.
  - apply in_map_iff in H as (h & <- & _). reflexivity.
  - apply in_flat_map in H as (h & _ & H). unfold update_call in H.
    destruct (dict_get h existing) as [x|]; [|contradiction].
    destruct (id_truthy (id x)); [|contradiction].
    destruct H as [<-|[]]. reflexivity.
  - apply in_flat_map in H as (h & _ & H). unfold delete_call in H.
    destruct (dict_get h existing) as [x|]; [|contradiction].
    destruct (id_truthy (id x)); [|contradiction].
    destruct H as [<-|[]]. reflexivity.
Qed.


Lemma sync_dns_records_no_config_update self O routes dry_run :
  Forall (fun r => is_config_update r = false)
         (calls (trace (sync_dns_records self O routes dry_run))).
Proof.
  destruct (sync_dns_records_issues self O routes dry_run) as [Hp _].
  apply (prefix_Forall _ _ _ Hp).
  destruct (manage_dns self); [|constructor].
  constructor; [reflexivity|]. destruct dry_run; [constructor|].
  eapply Forall_impl; [|apply dns_calls_kinds].
  intros [] H; (reflexivity || discriminate).
Qed.

Lemma apply_routes_calls self local :
  calls (trace (apply_routes self local))
  = [UpdateTunnelConfiguration (build_cloudflare_config local)].
Proof.
  unfold apply_routes, update_tunnel_configuration, mutate, try_except_http, bind.
  simpl. destruct (mutation_error _ _) as [[s msg t|msg]|]; reflexivity.
Qed.

Lemma apply_routes_result self local :
  result (apply_routes self local)
  = match mutation_error (api self)
            (UpdateTunnelConfiguration (build_cloudflare_config local)) with
    | None => Ok tt
    | Some (HTTPError _ _ _) => SysExit 1
    | Some (OtherError msg) => Raise (OtherError msg)
    end.
Proof.
  unfold apply_routes, update_tunnel_configuration, mutate, try_except_http, bind.
  simpl. destruct (mutation_error _ _) as [[s msg t|msg]|]; reflexivity.
Qed.

Lemma apply_phase_ok self actions local dry_run :
  dry_run = true \/ has_changes actions = false
  \/ mutation_error (api self)
       (UpdateTunnelConfiguration (build_cloudflare_config local)) = None ->
  result (apply_phase self actions local dry_run) = Ok tt.
Proof.
  unfold apply_phase. intros H.
  destruct (has_changes actions); [|reflexivity].
  destruct dry_run; [reflexivity|]. simpl negb. cbv iota.
  rewrite apply_routes_result.
  destruct H as [H|[H|H]]; try discriminate. now rewrite H.
Qed.

Lemma apply_phase_no_dns_mutation self actions local dry_run :
  Forall (fun e => dns_mutating e = false)
         (trace (apply_phase self actions local dry_run)).
Proof.
  apply (quiet_of_calls is_dns_mutation).
  destruct (apply_phase_issues self actions local dry_run) as [Hp _].
  apply (prefix_Forall _ _ _ Hp).
  destruct (has_changes actions && negb dry_run); repeat constructor.
Qed.

Lemma report_head_quiet self local remote actions :
  Forall (fun e => mutating e = false) (report_head self local remote actions)
  /\ Forall (fun e => dns_mutating e = false)
            (report_head self local remote actions).
Proof.
  split.
  - apply (quiet_of_calls is_mutation). rewrite report_head_calls.
    repeat constructor.
  - apply (quiet_of_calls is_dns_mutation). rewrite report_head_calls.
    repeat constructor.
Qed.

Lemma report_head_lines self local remote actions line :
  In line (route_report_lines actions) ->
  printed_in line (report_head self local remote actions) = true.
Proof.
  intros H. unfold report_head.
  rewrite !printed_in_app, route_report_run. simpl trace.
  rewrite (printed_in_prints _ _ H). now rewrite !orb_true_r.
Qed.

(** With DNS management on, the DNS synchronisation announces itself,
    fetches the listing and prints its report before anything else. *)
Lemma sync_dns_records_shape self O routes dry_run existing :
  manage_dns self = true ->
  result (get_existing_dns_records self) = Ok existing ->
  exists t,
    trace (sync_dns_records self O routes dry_run)
    = (Print (nl ++ "Synchronizing DNS records...")
         :: trace (get_existing_dns_records self)
         ++ map Print (dns_report_lines
                         (target self)
                         (dns_plan O routes (target self) existing)))
      ++ t.
Proof.
  intros Hm He. unfold sync_dns_records. rewrite Hm. simpl negb. cbv iota.
  rewrite trace_bind_print, (trace_bind_ok _ _ _ He), trace_bind, dns_report_run.
  simpl trace at 2. eexists. simpl. rewrite <- app_assoc. reflexivity.
Qed.

Lemma sync_dns_records_starts self O routes dry_run :
  manage_dns self = true ->
  In (Print (nl ++ "Synchronizing DNS records..."))
     (trace (sync_dns_records self O routes dry_run))
  /\ In (Api ListDnsRecords) (trace (sync_dns_records self O routes dry_run)).
Proof.
  intros Hm. unfold sync_dns_records. rewrite Hm. simpl negb. cbv iota.
  rewrite trace_bind_print, trace_bind. split; [now left|].
  right. apply in_or_app. left. apply In_calls.
  rewrite get_existing_dns_records_calls. now left.
Qed.

End PhaseFacts.

(** ** Requests made one after the other *)

Module AttemptFacts.
Import Py Model Sync Facts DictFacts SyncFacts RunFacts ShapeFacts PhaseFacts.
Import Samples Entry Expected.
Local Open Scope prog_scope.

Lemma apply_phase_calls self actions local dry_run :
  calls (trace (apply_phase self actions local dry_run))
  = if has_changes actions && negb dry_run
    then [UpdateTunnelConfiguration (build_cloudflare_config local)]
    else [].
Proof.
  unfold apply_phase. destruct (has_changes actions); [|reflexivity].
  destruct dry_run; [reflexivity|]. apply apply_routes_calls.
Qed.

Lemma attempt_app self cs cs' :
  attempt self (cs ++ cs')
  = match snd (attempt self cs) with
    | Some e => attempt self cs
    | None => (fst (attempt self cs) ++ fst (attempt self cs'),
               snd (attempt self cs'))
    end.
Proof.
  induction cs as [|r cs IH]; simpl.
  - now destruct (attempt self cs').
  - destruct (mutation_error self r); simpl; [reflexivity|].
    rewrite IH. destruct (snd (attempt self cs)) eqn:E; simpl.
    + now rewrite E.
    + reflexivity.
Qed.

Lemma performs_ret self : performs self (ret tt) [].
Proof. split; reflexivity. Qed.

Lemma performs_print self s : performs self (print s) [].
Proof. split; reflexivity. Qed.

Lemma performs_mutate self r : performs self (mutate self r) [r].
Proof.
  unfold performs, mutate. simpl. now destruct (mutation_error self r).
Qed.

Lemma performs_bind self (m k : M unit) cs cs' :
  performs self m cs -> performs self k cs' ->
  performs self (m ;; k) (cs ++ cs').
Proof.
  intros [Cm Rm] [Ck Rk]. unfold performs.
  rewrite trace_bind, result_bind, calls_app, attempt_app, Rm, Cm.
  destruct (snd (attempt self cs)) as [e|] eqn:E; simpl.
  - now rewrite app_nil_r, E.
  - now rewrite Ck, Rk.
Qed.

Lemma performs_for_each {A} self (l : list A) body (g : A -> list Request) :
  (forall x, In x l -> performs self (body x) (g x)) ->
  performs self (for_each l body) (flat_map g l).
Proof.
  induction l as [|x l IH]; simpl; intros H; [apply performs_ret|].
  apply performs_bind; auto.
Qed.

Section Steps.
Variable self : TunnelConfigManager.
Variable existing : Dict DNSRecord.

Lemma dns_create_step_performs h :
  performs (api self) (dns_create_step self h)
           [CreateDnsRecord (cname_record h (target self))].
Proof.
  unfold dns_create_step, create_dns_record.
  apply (performs_bind _ _ _ [_] []); [apply performs_mutate | apply performs_print].
Qed.

Lemma dns_update_step_performs h :
  In h (dict_keys existing) ->
  performs (api self) (dns_update_step self existing h)
           (update_call (target self) existing h).
Proof.
  intros Hk. destruct (dict_get_bound _ _ Hk) as (r & E).
  unfold dns_update_step, update_call, lookup_record, update_dns_record.
  rewrite E, bind_ret. destruct (id_truthy (id r)) as [i|].
  - apply (performs_bind _ _ _ [_] []); [apply performs_mutate | apply performs_print].
  - apply performs_ret.
Qed.

Lemma dns_delete_step_performs h :
  In h (dict_keys existing) ->
  performs (api self) (dns_delete_step self existing h) (delete_call existing h).
Proof.
  intros Hk. destruct (dict_get_bound _ _ Hk) as (r & E).
  unfold dns_delete_step, delete_call, lookup_record, delete_dns_record.
  rewrite E, bind_ret. destruct (id_truthy (id r)) as [i|].
  - apply (performs_bind _ _ _ [_] []); [apply performs_mutate | apply performs_print].
  - apply performs_ret.
Qed.

Lemma dns_apply_performs p :
  (forall h, In h (dns_update p) -> In h (dict_keys existing)) ->
  (forall h, In h (dns_delete p) -> In h (dict_keys existing)) ->
  performs (api self) (dns_apply self existing p)
           (dns_calls (target self) existing p).
Proof.
  intros Hu Hd. unfold dns_apply, dns_calls.
  rewrite <- (flat_map_singleton
                (fun h => CreateDnsRecord (cname_record h (target self)))).
  rewrite <- (app_nil_r (flat_map (delete_call existing) _)).
  apply performs_bind.
  { apply performs_for_each. intros h _. apply dns_create_step_performs. }
  apply performs_bind.
  { apply performs_for_each. intros h H. apply dns_update_step_performs; auto. }
  apply performs_bind.
  { apply performs_for_each. intros h H. apply dns_delete_step_performs; auto. }
  apply performs_print.
Qed.
End Steps.

Lemma planned_names_are_bound O routes target existing :
  let p := dns_plan O routes target existing in
  (forall h, In h (dns_update p) -> In h (dict_keys existing))
  /\ (forall h, In h (dns_delete p) -> In h (dict_keys existing)).
Proof.
  cbv zeta. unfold dns_plan. simpl. split; intros h H.
  - apply filter_In in H as [H _].
    apply set_intersection_In in H as [_ H]. now apply set_of_In in H.
  - apply set_difference_In in H as [H _]. now apply set_of_In in H.
Qed.

(** The expected requests, spelled without the code's own test of the
    id, are those of [dns_calls]. *)
Lemma usable_id_truthy r : usable_id r = id_truthy (id r).
Proof. unfold usable_id, id_truthy. now destruct (id r) as [[|c s]|]. Qed.

Lemma update_request_call target existing h :
  update_request target existing h = update_call target existing h.
Proof.
  unfold update_request, update_call.
  destruct (dict_get h existing) as [r|]; [|reflexivity].
  now rewrite usable_id_truthy.
Qed.

Lemma delete_request_call existing h :
  delete_request existing h = delete_call existing h.
Proof.
  unfold delete_request, delete_call.
  destruct (dict_get h existing) as [r|]; [|reflexivity].
  now rewrite usable_id_truthy.
Qed.

Lemma planned_requests_calls target existing p :
  planned_requests target existing p = dns_calls target existing p.
Proof.
  unfold planned_requests, dns_calls. f_equal. f_equal.
  - apply flat_map_ext. intros h. apply update_request_call.
  - apply flat_map_ext. intros h. apply delete_request_call.
Qed.


(** The DNS synchronisation of a real run: the listing, then the planned
    requests up to the first failure. *)
Lemma sync_dns_records_real self O routes existing :
  manage_dns self = true ->
  result (get_existing_dns_records self) = Ok existing ->
  let p := dns_plan O routes (target self) existing in
  let outcome := attempt (api self) (planned_requests (target self) existing p) in
  calls (trace (sync_dns_records self O routes false))
  = ListDnsRecords :: fst outcome
  /\ result (sync_dns_records self O routes false) = phase_outcome (snd outcome).
Proof.
  intros Hm He p outcome.
  destruct (planned_names_are_bound O routes (target self) existing) as [Bu Bd].
  destruct (dns_apply_performs self existing p Bu Bd) as [Ca Ra].
  unfold outcome. rewrite planned_requests_calls.
  set (out := attempt (api self) (dns_calls (target self) existing p)) in *.
  unfold sync_dns_records. rewrite Hm. simpl negb. cbv iota.
  rewrite trace_bind_print, result_bind_print.
  rewrite (trace_bind_ok _ _ _ He), (result_bind_ok _ _ _ He).
  fold p. rewrite trace_bind, result_bind, dns_report_run.
  simpl result. simpl trace. cbv iota.
  simpl calls at 1. rewrite !calls_app, get_existing_dns_records_calls, calls_prints.
  simpl app.
  destruct (dns_has_changes p) eqn:Hc; simpl negb; cbv iota.
  - unfold try_except_http. rewrite Ra.
    destruct (snd out) as [[st msg txt|msg]|]; simpl.
    + rewrite calls_app, Ca. simpl. now rewrite app_nil_r.
    + now rewrite Ca.
    + now rewrite Ca.
  - unfold out. rewrite (dns_calls_no_changes _ _ _ Hc). split; reflexivity.
Qed.

(** The DNS synchronisation of a dry run: the listing and nothing
    else. *)
Lemma sync_dns_records_dry self O routes existing :
  manage_dns self = true ->
  result (get_existing_dns_records self) = Ok existing ->
  calls (trace (sync_dns_records self O routes true)) = [ListDnsRecords]
  /\ result (sync_dns_records self O routes true) = Ok tt.
Proof.
  intros Hm He.
  unfold sync_dns_records. rewrite Hm. simpl negb. cbv iota.
  rewrite trace_bind_print, result_bind_print.
  rewrite (trace_bind_ok _ _ _ He), (result_bind_ok _ _ _ He).
  rewrite trace_bind, result_bind, dns_report_run.
  simpl result. simpl trace. cbv iota.
  simpl calls at 1. rewrite !calls_app, get_existing_dns_records_calls, calls_prints.
  simpl app.
  destruct (dns_has_changes _); simpl negb; cbv iota; split; reflexivity.
Qed.

End AttemptFacts.

(** ** Orchestration: what is pushed, and in which order *)

Module SyncClaims.
Import Py Model Sync Facts DictFacts SyncFacts RunFacts ShapeFacts PhaseFacts.
Import Samples.
Local Open Scope prog_scope.

Lemma filter_Forall_nil {A} (f : A -> bool) l :
  Forall (fun x => f x = false) l -> filter f l = [].
Proof. intros H. apply filter_none. now apply Forall_forall. Qed.


Lemma local_routes_of_ok self local :
  config_file self = Returns local -> local_routes_of self = local.
Proof. unfold local_routes_of. now intros ->. Qed.




(** C8. When the route action set is not empty and the run is not a
    dry run, the apply step makes exactly one configuration update; the
    document it pushes lists every local route, in order, each with its
    hostname, and ends with the catch-all rule
    [{"service": "http_status:404"}], which has no hostname. *)
Theorem apply_pushes_whole_document
        (self : TunnelConfigManager) (O : SetOrder)
        (local remote : list TunnelRoute) :
  config_file self = Returns local ->
  result (get_cloudflare_routes self) = Ok remote ->
  has_changes (compare_routes O local remote) = true ->
  let doc := build_cloudflare_config local in
  filter is_config_update (calls (trace (sync self O false)))
  = [UpdateTunnelConfiguration doc]
  /\ ingress doc = map to_dict local ++ [catch_all]
  /\ last (ingress doc) [] = catch_all
  /\ (forall r, dict_get "hostname" (to_dict r) = Some (VStr (hostname r))
                /\ dict_get "service" (to_dict r) = Some (VStr (service r)))
  /\ dict_get "hostname" catch_all = None
  /\ catch_all = [("service", VStr "http_status:404")].
Proof.
  intros Hl Hr Hc doc.
  split; [|split; [reflexivity|split; [|split; [|split; reflexivity]]]].
  - destruct (sync_shape self O false local remote Hl Hr) as [Ht _].
    cbv zeta in Ht. rewrite Ht, calls_app, report_head_calls, trace_bind, calls_app.
    replace (apply_phase self (compare_routes O local remote) local false)
      with (apply_routes self local)
      by (unfold apply_phase; now rewrite Hc).
    rewrite apply_routes_calls.
    destruct (result (apply_routes self local)); [|reflexivity|reflexivity].
    simpl. f_equal.
    apply filter_Forall_nil, sync_dns_records_no_config_update.
  - unfold doc, build_cloudflare_config. simpl. apply last_last.
  - intros r. split; reflexivity.
Qed.

Lemma apply_pushes_whole_document_witness :
  filter is_config_update
         (calls (trace (sync (manager_of fresh_api) descending_order false)))
  = [UpdateTunnelConfiguration
       {| ingress := [to_dict route_a; [("service", VStr "http_status:404")]] |}].
Proof.
  apply (apply_pushes_whole_document
           (manager_of fresh_api) descending_order [route_a] []);
    reflexivity.
Defined.

End SyncClaims.

(** ** Orchestration: DNS synchronisation after the route phase *)

Module DnsPhaseClaims.
Import Py Model Sync Facts DictFacts SyncFacts RunFacts ShapeFacts PhaseFacts.
Import AttemptFacts SyncClaims Samples Entry Expected.
Local Open Scope prog_scope.

(** C7 as stated fails.  DNS synchronisation does not run after a failed
    route application: when the configuration update is rejected, the
    run exits with status 1 right there; the DNS listing is never
    requested and the DNS phase never announced. *)
Lemma dns_sync_skipped_when_route_update_fails :
  manage_dns (manager_of rejecting_api) = true
  /\ has_changes (compare_routes insertion_order [route_a] []) = true
  /\ result (sync (manager_of rejecting_api) insertion_order false) = SysExit 1
  /\ calls (trace (sync (manager_of rejecting_api) insertion_order false))
     = [GetTunnelConfiguration;
        UpdateTunnelConfiguration (build_cloudflare_config [route_a])]
  /\ printed_in (nl ++ "Synchronizing DNS records...")
                (trace (sync (manager_of rejecting_api) insertion_order false))
     = false.
Proof. repeat split; reflexivity. Qed.

Lemma listing_outcome self :
  (forall msg, dns_listing (api self) <> Fails (OtherError msg)) ->
  result (get_existing_dns_records self) = Ok (existing_records_of self).
Proof.
  intros H.
  unfold get_existing_dns_records, list_dns_records, try_except_http, bind,
    existing_records_of.
  destruct (dns_listing (api self)) as [records|[st msg txt|msg]];
    try reflexivity.
  now destruct (H msg).
Qed.

(** C7, amended. With DNS management on and both reads done, a run
    whose route phase does not fail (a dry run, no route changes, or an
    accepted configuration update) announces the DNS synchronisation
    and requests the listing.  Unless the listing fails with something
    else than an HTTP error status, the run then prints every line of
    the DNS report and, when it is a real run, sends exactly the planned
    requests, all creations, then all updates, then all deletions, one
    after the other up to and including the first one that fails; it
    ends normally when none fails, with exit status 1 after an HTTP
    error, and a record without a usable id gives no request.  When the
    configuration update fails, the run ends there: the update is its
    last request and DNS synchronisation does not run. *)
Theorem dns_sync_order_and_reach
        (self : TunnelConfigManager) (O : SetOrder) (dry_run : bool)
        (local remote : list TunnelRoute) :
  config_file self = Returns local ->
  result (get_cloudflare_routes self) = Ok remote ->
  manage_dns self = true ->
  let actions := compare_routes O local remote in
  let doc := build_cloudflare_config local in
  let existing := existing_records_of self in
  let p := dns_plan O local (target self) existing in
  let requests :=
    map (create_request (target self)) (dns_create p)
    ++ flat_map (update_request (target self) existing) (dns_update p)
    ++ flat_map (delete_request existing) (dns_delete p) in
  let outcome := attempt (api self) requests in
  (dry_run = true \/ has_changes actions = false
   \/ mutation_error (api self) (UpdateTunnelConfiguration doc) = None ->
   In (Print (nl ++ "Synchronizing DNS records...")) (trace (sync self O dry_run))
   /\ In (Api ListDnsRecords) (trace (sync self O dry_run))
   /\ ((forall msg, dns_listing (api self) <> Fails (OtherError msg)) ->
       (forall line, In line (dns_report_lines (target self) p) ->
                     In (Print line) (trace (sync self O dry_run)))
       /\ calls (trace (sync self O dry_run))
          = GetTunnelConfiguration
              :: (if has_changes actions && negb dry_run
                  then [UpdateTunnelConfiguration doc]
                  else [])
              ++ ListDnsRecords :: (if dry_run then [] else fst outcome)
       /\ result (sync self O dry_run)
          = if dry_run then Ok tt else phase_outcome (snd outcome)))
  /\ (forall e,
         dry_run = false -> has_changes actions = true ->
         mutation_error (api self) (UpdateTunnelConfiguration doc) = Some e ->
         calls (trace (sync self O dry_run))
         = [GetTunnelConfiguration; UpdateTunnelConfiguration doc]
         /\ ~ In (Api ListDnsRecords) (trace (sync self O dry_run))
         /\ result (sync self O dry_run)
            = match e with
              | HTTPError _ _ _ => SysExit 1
              | OtherError msg => Raise (OtherError msg)
              end).
Proof.
  intros Hl Hr Hm actions doc existing p requests outcome.
  destruct (sync_shape self O dry_run local remote Hl Hr) as [Ht Hres].
  cbv zeta in Ht, Hres. fold actions in Ht, Hres.
  split.
  - intros Hok. apply (apply_phase_ok self actions local dry_run) in Hok.
    rewrite Ht, Hres, (trace_bind_ok _ _ _ Hok), (result_bind_ok _ _ _ Hok).
    destruct (sync_dns_records_starts self O local dry_run Hm) as [H1 H2].
    split; [|split].
    + apply in_or_app; right; apply in_or_app; right; assumption.
    + apply in_or_app; right; apply in_or_app; right; assumption.
    + intros Hlist. pose proof (listing_outcome self Hlist) as He.
      fold existing in He. split; [|split].
      * intros line Hin.
        destruct (sync_dns_records_shape self O local dry_run existing Hm He)
          as (t & ->).
        apply in_or_app; right; apply in_or_app; right.
        apply in_or_app; left. right. apply in_or_app; right.
        now apply in_map.
      * rewrite !calls_app, report_head_calls, apply_phase_calls.
        simpl app. f_equal. f_equal.
        destruct dry_run.
        -- apply (sync_dns_records_dry self O local existing Hm He).
        -- apply (sync_dns_records_real self O local existing Hm He).
      * destruct dry_run.
        -- apply (sync_dns_records_dry self O local existing Hm He).
        -- apply (sync_dns_records_real self O local existing Hm He).
  - intros e -> Hc Hf.
    assert (Ha : apply_phase self actions local false = apply_routes self local)
      by (unfold apply_phase; now rewrite Hc).
    assert (Hx : result (apply_routes self local)
                 = match e with
                   | HTTPError _ _ _ => SysExit 1
                   | OtherError msg => Raise (OtherError msg)
                   end)
      by (rewrite apply_routes_result; fold doc; now rewrite Hf).
    assert (Hcalls : calls (trace (sync self O false))
                     = [GetTunnelConfiguration; UpdateTunnelConfiguration doc]).
    { rewrite Ht, calls_app, report_head_calls, trace_bind, Ha,
        calls_app, apply_routes_calls, Hx.
      now destruct e. }
    split; [exact Hcalls|]. split.
    + rewrite <- In_calls, Hcalls. simpl. intuition discriminate.
    + rewrite Hres, result_bind, Ha, Hx. now destruct e.
Qed.

Lemma dns_sync_order_and_reach_witness :
  calls (trace (sync busy_manager insertion_order false))
  = [GetTunnelConfiguration;
     UpdateTunnelConfiguration
       (build_cloudflare_config [route_a; route_d; route_b; route_c]);
     ListDnsRecords;
     CreateDnsRecord (cname_record "a.example.com" "T.cfargotunnel.com");
     CreateDnsRecord (cname_record "d.example.com" "T.cfargotunnel.com");
     UpdateDnsRecord "11" (cname_record "b.example.com" "T.cfargotunnel.com");
     DeleteDnsRecord "21";
     DeleteDnsRecord "23"]
  /\ result (sync busy_manager insertion_order false) = SysExit 1
  /\ In (Print "  ~ c.example.com -> T.cfargotunnel.com")
        (trace (sync busy_manager insertion_order false)).
Proof.
  destruct (dns_sync_order_and_reach
              busy_manager insertion_order false
              [route_a; route_d; route_b; route_c] [])
    as (Hrun & _).
  - reflexivity.
  - reflexivity.
  - reflexivity.
  - destruct Hrun as (_ & _ & Hrun).
    + right. right. reflexivity.
    + destruct Hrun as (Hrep & Hcalls & Hres).
      * intros msg. discriminate.
      * split; [exact Hcalls | split; [exact Hres|]].
        apply Hrep. simpl. tauto.
Defined.

End DnsPhaseClaims.

(** ** Orchestration: dry runs *)

Module DryRunClaims.
Import Py Model Sync Facts DictFacts SyncFacts RunFacts ShapeFacts PhaseFacts.
Import SyncClaims Samples.
Local Open Scope prog_scope.

(** C4 as stated fails, on two counts.  A real run does not list every
    action before any mutation: the DNS plan is only computed and
    printed after the configuration update has been sent.  And the
    lists of two runs on the same inputs need not be identical: a dry
    run whose sets iterate in insertion order and a real run whose sets
    iterate in descending order list the same entries in different
    orders. *)
Lemma real_run_differs_from_dry_run :
  dns_create (dns_plan insertion_order [route_a] "T.cfargotunnel.com" [])
  = ["a.example.com"]
  /\ calls (trace (sync (manager_of fresh_api) insertion_order false))
     = [GetTunnelConfiguration;
        UpdateTunnelConfiguration (build_cloudflare_config [route_a]);
        ListDnsRecords;
        CreateDnsRecord (cname_record "a.example.com" "T.cfargotunnel.com")]
  /\ printed_in "  + a.example.com -> T.cfargotunnel.com"
                (trace (sync (manager_of fresh_api) insertion_order false))
     = true
  /\ printed_before mutating "  + a.example.com -> T.cfargotunnel.com"
                    (trace (sync (manager_of fresh_api) insertion_order false))
     = false
  /\ create (compare_routes insertion_order [route_a; route_b] [])
     = [route_a; route_b]
  /\ create (compare_routes descending_order [route_a; route_b] [])
     = [route_b; route_a]
  /\ dns_create (dns_plan insertion_order [route_a; route_b]
                          "T.cfargotunnel.com" [])
     = ["a.example.com"; "b.example.com"]
  /\ dns_create (dns_plan descending_order [route_a; route_b]
                          "T.cfargotunnel.com" [])
     = ["b.example.com"; "a.example.com"].
Proof. repeat split; reflexivity. Qed.

Lemma dry_run_never_mutates self O :
  Forall (fun e => mutating e = false) (trace (sync self O true)).
Proof.
  apply (quiet_of_calls is_mutation).
  destruct (sync_issues self O true) as [Hp _].
  apply (prefix_Forall _ _ _ Hp). unfold expected_calls.
  simpl negb. rewrite andb_false_r.
  destruct (manage_dns self); repeat constructor.
Qed.

(** *** Two runs with different set orders *)

Section TwoRuns.
Variables O1 O2 : SetOrder.

Lemma set_difference_orders l m :
  Permutation (set_difference O1 (set_of O1 l) (set_of O1 m))
              (set_difference O2 (set_of O2 l) (set_of O2 m)).
Proof.
  apply NoDup_Permutation.
  - apply set_difference_NoDup, set_of_NoDup.
  - apply set_difference_NoDup, set_of_NoDup.
  - intros x. rewrite !set_difference_In, !set_of_In. reflexivity.
Qed.

Lemma set_intersection_orders l m :
  Permutation (set_intersection O1 (set_of O1 l) (set_of O1 m))
              (set_intersection O2 (set_of O2 l) (set_of O2 m)).
Proof.
  apply NoDup_Permutation.
  - apply set_intersection_NoDup; apply set_of_NoDup.
  - apply set_intersection_NoDup; apply set_of_NoDup.
  - intros x. rewrite !set_intersection_In, !set_of_In. reflexivity.
Qed.

Lemma compare_routes_orders local remote :
  Permutation (create (compare_routes O1 local remote))
              (create (compare_routes O2 local remote))
  /\ Permutation (update (compare_routes O1 local remote))
                 (update (compare_routes O2 local remote))
  /\ Permutation (delete (compare_routes O1 local remote))
                 (delete (compare_routes O2 local remote)).
Proof.
  unfold compare_routes. simpl. split; [|split]; apply Permutation_flat_map.
  - apply set_difference_orders.
  - apply set_intersection_orders.
  - apply set_difference_orders.
Qed.

Lemma dns_plan_orders routes target existing :
  Permutation (dns_create (dns_plan O1 routes target existing))
              (dns_create (dns_plan O2 routes target existing))
  /\ Permutation (dns_update (dns_plan O1 routes target existing))
                 (dns_update (dns_plan O2 routes target existing))
  /\ Permutation (dns_delete (dns_plan O1 routes target existing))
                 (dns_delete (dns_plan O2 routes target existing)).
Proof.
  unfold dns_plan. simpl. split; [|split].
  - apply set_difference_orders.
  - apply Permutation_filter, set_intersection_orders.
  - apply set_difference_orders.
Qed.
End TwoRuns.

Lemma is_empty_perm {A} (l l' : list A) :
  Permutation l l' -> is_empty l = is_empty l'.
Proof.
  intros H. destruct l, l'; try reflexivity.
  - now apply Permutation_nil_cons in H.
  - symmetry in H. now apply Permutation_nil_cons in H.
Qed.

Lemma bucket_lines_perm {A} (header : nat -> string) (line : A -> string)
      (items items' : list A) :
  Permutation items items' ->
  Permutation (bucket_lines (header (List.length items)) line items)
              (bucket_lines (header (List.length items')) line items').
Proof.
  intros H. unfold bucket_lines.
  rewrite (is_empty_perm _ _ H), (Permutation_length H).
  destruct (is_empty items'); [constructor|].
  constructor. now apply Permutation_map.
Qed.

Lemma route_report_lines_perm actions actions' :
  Permutation (create actions) (create actions') ->
  Permutation (update actions) (update actions') ->
  Permutation (delete actions) (delete actions') ->
  Permutation (route_report_lines actions) (route_report_lines actions').
Proof.
  intros C U D. unfold route_report_lines.
  repeat apply Permutation_app.
  - exact (bucket_lines_perm
             (fun n => nl ++ "Routes to CREATE (" ++ str_of_nat n ++ "):")%string
             _ _ _ C).
  - exact (bucket_lines_perm
             (fun n => nl ++ "Routes to UPDATE (" ++ str_of_nat n ++ "):")%string
             _ _ _ U).
  - exact (bucket_lines_perm
             (fun n => nl ++ "Routes to DELETE (" ++ str_of_nat n ++ "):")%string
             _ _ _ D).
Qed.

Lemma dns_report_lines_perm target p p' :
  Permutation (dns_create p) (dns_create p') ->
  Permutation (dns_update p) (dns_update p') ->
  Permutation (dns_delete p) (dns_delete p') ->
  Permutation (dns_report_lines target p) (dns_report_lines target p').
Proof.
  intros C U D. unfold dns_report_lines.
  repeat apply Permutation_app.
  - exact (bucket_lines_perm
             (fun n => nl ++ "DNS Records to CREATE (" ++ str_of_nat n ++ "):")%string
             _ _ _ C).
  - exact (bucket_lines_perm
             (fun n => nl ++ "DNS Records to UPDATE (" ++ str_of_nat n ++ "):")%string
             _ _ _ U).
  - exact (bucket_lines_perm
             (fun n => nl ++ "DNS Records to DELETE (" ++ str_of_nat n ++ "):")%string
             _ _ _ D).
Qed.

(** C4, amended. A dry run makes no mutating request.  On the same
    inputs, a dry run and a real run, each with its own set iteration
    order, compute route buckets and DNS lists that hold the same
    entries, bucket by bucket, up to the order of the entries; they
    agree on whether there are changes, and their reports hold the same
    lines up to order.  Every action has its line in the report; every
    route action is listed before any mutating request, and, when the
    run reaches the DNS phase (a dry run, no route changes, or a
    successful configuration update), every DNS action is listed before
    any DNS mutation. *)
Theorem dry_run_reports_what_real_run_does
        (self : TunnelConfigManager) (O_dry O_real : SetOrder)
        (local remote : list TunnelRoute) (existing : Dict DNSRecord) :
  config_file self = Returns local ->
  result (get_cloudflare_routes self) = Ok remote ->
  result (get_existing_dns_records self) = Ok existing ->
  let dry := compare_routes O_dry local remote in
  let real := compare_routes O_real local remote in
  let p_dry := dns_plan O_dry local (target self) existing in
  let p_real := dns_plan O_real local (target self) existing in
  Forall (fun e => mutating e = false) (trace (sync self O_dry true))
  /\ (Permutation (create dry) (create real)
      /\ Permutation (update dry) (update real)
      /\ Permutation (delete dry) (delete real))
  /\ (Permutation (dns_create p_dry) (dns_create p_real)
      /\ Permutation (dns_update p_dry) (dns_update p_real)
      /\ Permutation (dns_delete p_dry) (dns_delete p_real))
  /\ has_changes dry = has_changes real
  /\ dns_has_changes p_dry = dns_has_changes p_real
  /\ Permutation (route_report_lines dry) (route_report_lines real)
  /\ Permutation (dns_report_lines (target self) p_dry)
                 (dns_report_lines (target self) p_real)
  /\ (forall O r,
         let actions := compare_routes O local remote in
         (In r (create actions) ->
          In (route_line "  + " r) (route_report_lines actions))
         /\ (In r (update actions) ->
             In (route_line "  ~ " r) (route_report_lines actions))
         /\ (In r (delete actions) ->
             In (route_line "  - " r) (route_report_lines actions)))
  /\ (forall O h,
         let p := dns_plan O local (target self) existing in
         (In h (dns_create p) ->
          In ("  + " ++ h ++ " -> " ++ target self)%string
             (dns_report_lines (target self) p))
         /\ (In h (dns_update p) ->
             In ("  ~ " ++ h ++ " -> " ++ target self)%string
                (dns_report_lines (target self) p))
         /\ (In h (dns_delete p) ->
             In ("  - " ++ h)%string (dns_report_lines (target self) p)))
  /\ (forall O dry_run line,
         In line (route_report_lines (compare_routes O local remote)) ->
         printed_before mutating line (trace (sync self O dry_run)) = true)
  /\ (forall O dry_run line,
         manage_dns self = true ->
         dry_run = true \/ has_changes (compare_routes O local remote) = false
         \/ mutation_error (api self)
              (UpdateTunnelConfiguration (build_cloudflare_config local)) = None ->
         In line (dns_report_lines (target self)
                                   (dns_plan O local (target self) existing)) ->
         printed_before dns_mutating line (trace (sync self O dry_run)) = true).
Proof.
  intros Hl Hr He dry real p_dry p_real.
  destruct (compare_routes_orders O_dry O_real local remote) as (C & U & D).
  destruct (dns_plan_orders O_dry O_real local (target self) existing)
    as (DC & DU & DD).
  fold dry real in C, U, D. fold p_dry p_real in DC, DU, DD.
  split; [apply dry_run_never_mutates|].
  split; [auto|]. split; [auto|].
  split.
  { unfold has_changes.
    now rewrite (is_empty_perm _ _ C), (is_empty_perm _ _ U), (is_empty_perm _ _ D). }
  split.
  { unfold dns_has_changes.
    now rewrite (is_empty_perm _ _ DC), (is_empty_perm _ _ DU),
      (is_empty_perm _ _ DD). }
  split; [now apply route_report_lines_perm|].
  split; [now apply dns_report_lines_perm|].
  split; [|split; [|split]].
  - intros O r actions. unfold route_report_lines. rewrite !in_app_iff.
    repeat split; intros H;
      [left | right; left | right; right];
      now apply (bucket_lines_In _ (route_line _)).
  - intros O h p. unfold dns_report_lines. rewrite !in_app_iff.
    repeat split; intros H.
    + left.
      now apply (bucket_lines_In
                   _ (fun h => ("  + " ++ h ++ " -> " ++ target self)%string)).
    + right; left.
      now apply (bucket_lines_In
                   _ (fun h => ("  ~ " ++ h ++ " -> " ++ target self)%string)).
    + right; right.
      now apply (bucket_lines_In _ (fun h => ("  - " ++ h)%string)).
  - intros O dry_run line Hin.
    destruct (sync_shape self O dry_run local remote Hl Hr) as [Ht _].
    cbv zeta in Ht. rewrite Ht. apply printed_before_intro.
    + apply report_head_quiet.
    + now apply report_head_lines.
  - intros O dry_run line Hm Hok Hin.
    destruct (sync_shape self O dry_run local remote Hl Hr) as [Ht _].
    cbv zeta in Ht.
    apply (apply_phase_ok self (compare_routes O local remote) local dry_run)
      in Hok.
    rewrite Ht, (trace_bind_ok _ _ _ Hok), app_assoc.
    destruct (sync_dns_records_shape self O local dry_run existing Hm He)
      as (t & ->).
    apply printed_before_skip.
    { apply Forall_app. split;
        [apply report_head_quiet | apply apply_phase_no_dns_mutation]. }
    apply printed_before_intro.
    + constructor; [reflexivity|]. apply Forall_app. split.
      * apply (quiet_of_calls is_dns_mutation).
        rewrite get_existing_dns_records_calls. repeat constructor.
      * apply (quiet_of_calls is_dns_mutation). rewrite calls_prints. constructor.
    + change (Print ?x :: ?l ++ ?m) with ([Print x] ++ l ++ m).
      rewrite !printed_in_app, (printed_in_prints _ _ Hin).
      now rewrite !orb_true_r.
Qed.

Lemma dry_run_reports_what_real_run_does_witness :
  Permutation
    (create (compare_routes insertion_order [route_a; route_b] []))
    (create (compare_routes descending_order [route_a; route_b] []))
  /\ printed_before mutating (route_line "  + " route_b)
       (trace (sync {| config_file := Returns [route_a; route_b];
                       api := fresh_api; manage_dns := true |}
                    insertion_order true)) = true
  /\ printed_before dns_mutating "  + b.example.com -> T.cfargotunnel.com"
       (trace (sync {| config_file := Returns [route_a; route_b];
                       api := fresh_api; manage_dns := true |}
                    descending_order false)) = true.
Proof.
  destruct (dry_run_reports_what_real_run_does
              {| config_file := Returns [route_a; route_b];
                 api := fresh_api; manage_dns := true |}
              insertion_order descending_order [route_a; route_b] [] [])
    as (_ & (C & _) & _ & _ & _ & _ & _ & _ & _ & Hroute & Hdns).
  - reflexivity.
  - reflexivity.
  - reflexivity.
  - split; [exact C | split].
    + apply Hroute. simpl. auto.
    + apply Hdns.
      * reflexivity.
      * right. right. reflexivity.
      * simpl. auto.
Defined.

End DryRunClaims.

(** ** DNS synchronisation: failed listing, records without id *)

Module DnsApplyClaims.
Import Py Model Sync Facts DictFacts SyncFacts RunFacts ShapeFacts PhaseFacts.
Import AttemptFacts SyncClaims Samples Entry Expected.
Local Open Scope prog_scope.

(** C6 as stated fails.  A failed DNS listing can end the run: only an
    HTTP error status is caught.  When the listing fails with a
    connection error, the exception leaves [sync] and no DNS record is
    created. *)
Lemma dns_listing_connection_error_ends_run :
  result (sync (manager_of unreachable_dns_api) insertion_order false)
  = Raise (OtherError "ConnectionError")
  /\ filter is_dns_mutation
            (calls (trace (sync (manager_of unreachable_dns_api)
                                insertion_order false)))
     = []
  /\ result (get_existing_dns_records (manager_of unreachable_dns_api))
     = Raise (OtherError "ConnectionError").
Proof. repeat split; reflexivity. Qed.

Lemma dns_plan_nothing_existing O routes target :
  let p := dns_plan O routes target [] in
  (forall h, In h (dns_create p) <-> In h (map hostname routes))
  /\ NoDup (dns_create p) /\ dns_update p = [] /\ dns_delete p = [].
Proof.
  cbv zeta. unfold dns_plan. simpl.
  assert (E : set_of O [] = []) by apply set_iter_nil.
  rewrite E. repeat split.
  - intros H. apply set_difference_In in H as [H _]. now apply set_of_In in H.
  - intros H. apply set_difference_In. split; [now apply set_of_In | tauto].
  - apply set_difference_NoDup, set_of_NoDup.
  - apply filter_none. intros x _. reflexivity.
  - unfold set_difference. simpl. apply set_iter_nil.
Qed.

(** C6, amended. If the DNS listing fails with an HTTP error status,
    the fetch reports a warning and yields no managed record; the plan
    then creates every desired hostname and updates and deletes
    nothing, a dry run of the DNS phase ends normally, and a real one
    goes on to the creations. *)
Theorem dns_listing_http_error_degrades
        (self : TunnelConfigManager) (O : SetOrder) (routes : list TunnelRoute)
        (status : Z) (message text : string) :
  dns_listing (api self) = Fails (HTTPError status message text) ->
  let p := dns_plan O routes (target self) [] in
  get_existing_dns_records self
  = ([Api ListDnsRecords;
      Print ("Warning: Failed to fetch DNS records: " ++ message)],
     Ok [])
  /\ (forall h, In h (dns_create p) <-> In h (map hostname routes))
  /\ dns_update p = [] /\ dns_delete p = []
  /\ result (sync_dns_records self O routes true) = Ok tt
  /\ issues (sync_dns_records self O routes false)
            (if manage_dns self
             then ListDnsRecords
                  :: map (fun h => CreateDnsRecord (cname_record h (target self)))
                         (dns_create p)
             else []).
Proof.
  intros Hf p.
  assert (Hg : get_existing_dns_records self
               = ([Api ListDnsRecords;
                   Print ("Warning: Failed to fetch DNS records: " ++ message)],
                  Ok [])).
  { unfold get_existing_dns_records, list_dns_records, try_except_http, bind.
    now rewrite Hf. }
  destruct (dns_plan_nothing_existing O routes (target self))
    as (Hc & _ & Hu & Hd).
  fold p in Hc, Hu, Hd.
  split; [exact Hg|]. split; [exact Hc|]. split; [exact Hu|]. split; [exact Hd|].
  split.
  - unfold sync_dns_records. destruct (manage_dns self); [|reflexivity].
    simpl negb. cbv iota.
    rewrite result_bind_print, Hg. unfold bind at 1. simpl result at 1. cbv iota.
    simpl result. rewrite result_bind, dns_report_run. simpl.
    now destruct (dns_has_changes _).
  - pose proof (sync_dns_records_issues self O routes false) as H.
    assert (Ee : existing_records_of self = [])
      by (unfold existing_records_of; now rewrite Hf).
    rewrite Ee in H. fold p in H. unfold dns_calls in H.
    rewrite Hu, Hd in H. simpl in H. now rewrite app_nil_r in H.
Qed.

Lemma dns_listing_http_error_degrades_witness :
  dns_create (dns_plan insertion_order [route_a; route_b]
                       (target (manager_of failing_dns_api)) [])
  = ["a.example.com"; "b.example.com"]
  /\ result (sync_dns_records (manager_of failing_dns_api) insertion_order
                              [route_a; route_b] true)
     = Ok tt.
Proof.
  destruct (dns_listing_http_error_degrades
              (manager_of failing_dns_api) insertion_order [route_a; route_b]
              403 "403 Client Error" "forbidden")
    as (_ & _ & _ & _ & Hdry & _).
  - reflexivity.
  - split; [reflexivity | exact Hdry].
Defined.




End DnsApplyClaims.

(** ** Route reconciler: duplicates, coverage, being in sync *)

Module RouteExtras.
Import Py Model Facts DictFacts ValueFacts RouteFacts Samples Entry.

Lemma last_with_bound {V} (key : V -> string) (h : string) (l : list V) :
  In h (map key l) -> exists x, last_with key h l = Some x.
Proof.
  intros H. destruct (last_with key h l) as [x|] eqn:E; [now exists x|].
  apply last_with_None in E. contradiction.
Qed.

Lemma last_with_hostname h l r :
  last_with hostname h l = Some r -> In (hostname r) (map hostname l) /\ hostname r = h.
Proof.
  intros H. apply last_with_Some in H as [H E]. split; [now apply in_map | exact E].
Qed.

Lemma nil_iff_no_member {A} (l : list A) : l = [] <-> forall x, ~ In x l.
Proof.
  split; [intros -> x [] |]. destruct l as [|x l]; [reflexivity|].
  intros H. destruct (H x). now left.
Qed.

Section Members.
Variable O : SetOrder.
Variables local remote : list TunnelRoute.

Lemma create_member r :
  In r (create (compare_routes O local remote)) <->
  last_with hostname (hostname r) local = Some r
  /\ ~ In (hostname r) (map hostname remote).
Proof.
  unfold compare_routes. simpl. rewrite in_flat_map. split.
  - intros (h & Hh & Hr).
    rewrite set_difference_In, !set_of_In, !routes_by_hostname_keys_In in Hh.
    unfold getitem in Hr. rewrite routes_by_hostname_get in Hr.
    destruct (last_with hostname h local) as [x|] eqn:E; [|contradiction].
    destruct Hr as [->|[]].
    destruct (last_with_hostname _ _ _ E) as [_ <-]. tauto.
  - intros [E N]. exists (hostname r). split.
    + rewrite set_difference_In, !set_of_In, !routes_by_hostname_keys_In.
      split; [apply (last_with_hostname _ _ _ E) | exact N].
    + unfold getitem. rewrite routes_by_hostname_get, E. now left.
Qed.

Lemma update_member r :
  In r (update (compare_routes O local remote)) <->
  last_with hostname (hostname r) local = Some r
  /\ exists r', last_with hostname (hostname r) remote = Some r'
                /\ TunnelRoute_eq r r' = false.
Proof.
  unfold compare_routes. simpl. rewrite in_flat_map. split.
  - intros (h & _ & Hr). rewrite !routes_by_hostname_get in Hr.
    destruct (last_with hostname h local) as [x|] eqn:E; [|contradiction].
    destruct (last_with hostname h remote) as [y|] eqn:E'; [|contradiction].
    unfold TunnelRoute_ne in Hr.
    destruct (TunnelRoute_eq x y) eqn:Q; simpl in Hr; [contradiction|].
    destruct Hr as [->|[]].
    destruct (last_with_hostname _ _ _ E) as [_ <-]. eauto.
  - intros [E (r' & E' & Q)]. exists (hostname r). split.
    + rewrite set_intersection_In, !set_of_In, !routes_by_hostname_keys_In.
      split; [apply (last_with_hostname _ _ _ E)|].
      destruct (last_with_hostname _ _ _ E') as [H <-]. exact H.
    + rewrite !routes_by_hostname_get, E, E'. unfold TunnelRoute_ne.
      rewrite Q. now left.
Qed.
End Members.

Lemma delete_member O local remote r :
  In r (delete (compare_routes O local remote)) <->
  last_with hostname (hostname r) remote = Some r
  /\ ~ In (hostname r) (map hostname local).
Proof. exact (create_member O remote local r). Qed.

(** X1. When a hostname occurs several times in a list, its last entry
    is the one that counts: the buckets are made of last entries only,
    whatever the set order and without any assumption on the inputs. *)
Theorem compare_routes_last_entry_wins
        (O : SetOrder) (local remote : list TunnelRoute) (r : TunnelRoute) :
  (forall l x h,
      last_with hostname h (l ++ [x])
      = if String.eqb (hostname x) h then Some x else last_with hostname h l)
  /\ (In r (create (compare_routes O local remote)) <->
      last_with hostname (hostname r) local = Some r
      /\ ~ In (hostname r) (map hostname remote))
  /\ (In r (delete (compare_routes O local remote)) <->
      last_with hostname (hostname r) remote = Some r
      /\ ~ In (hostname r) (map hostname local))
  /\ (In r (update (compare_routes O local remote)) <->
      last_with hostname (hostname r) local = Some r
      /\ exists r', last_with hostname (hostname r) remote = Some r'
                    /\ TunnelRoute_eq r r' = false).
Proof.
  split; [|split; [|split]].
  - intros l x h. apply last_with_snoc.
  - apply create_member.
  - apply delete_member.
  - apply update_member.
Qed.

Lemma hostnames_of_lookups (g : string -> list TunnelRoute) (s : list string) :
  NoDup s ->
  (forall h r, In r (g h) -> hostname r = h) ->
  (forall h, (List.length (g h) <= 1)%nat) ->
  NoDup (map hostname (flat_map g s)).
Proof.
  intros N Hh Hl. induction N as [|h s Hn N IH]; simpl; [constructor|].
  rewrite map_app. apply NoDup_app.
  - specialize (Hl h). destruct (g h) as [|x [|y t]]; simpl in *;
      [constructor | repeat constructor; tauto | lia].
  - exact IH.
  - intros a Ha Hb. apply in_map_iff in Ha as (x & <- & Hx).
    apply in_map_iff in Hb as (y & E & Hy). apply in_flat_map in Hy as (h' & Hs & Hy).
    apply Hh in Hx. apply Hh in Hy. congruence.
Qed.

Lemma bucket_hostnames_NoDup O local remote :
  let actions := compare_routes O local remote in
  NoDup (map hostname (create actions))
  /\ NoDup (map hostname (update actions))
  /\ NoDup (map hostname (delete actions)).
Proof.
  assert (G : forall d h r, In r (getitem h (routes_by_hostname d)) -> hostname r = h).
  { intros d h r. unfold getitem. rewrite routes_by_hostname_get.
    destruct (last_with hostname h d) as [x|] eqn:E; [|contradiction].
    intros [<-|[]]. apply (last_with_hostname _ _ _ E). }
  assert (L : forall d h,
             (List.length (getitem h (routes_by_hostname d)) <= 1)%nat).
  { intros d h. unfold getitem. destruct (dict_get _ _); simpl; lia. }
  cbv zeta. unfold compare_routes. simpl. repeat split.
  - apply hostnames_of_lookups;
      [apply set_difference_NoDup, set_of_NoDup
      | intros h r; apply G | intros h; apply L].
  - apply hostnames_of_lookups.
    + apply set_intersection_NoDup; apply set_of_NoDup.
    + intros h r. rewrite !routes_by_hostname_get.
      destruct (last_with hostname h local) as [x|] eqn:E; [|contradiction].
      destruct (last_with hostname h remote); [|contradiction].
      destruct (TunnelRoute_ne x _); [|contradiction].
      intros [<-|[]]. apply (last_with_hostname _ _ _ E).
    + intros h. destruct (dict_get h _); [|simpl; lia].
      destruct (dict_get h _); [|simpl; lia].
      destruct (TunnelRoute_ne _ _); simpl; lia.
  - apply hostnames_of_lookups;
      [apply set_difference_NoDup, set_of_NoDup
      | intros h r; apply G | intros h; apply L].
Qed.

(** X2. A hostname is acted on at most once: over the three buckets
    together no hostname occurs twice, so no hostname is in two
    buckets and none is twice in one. *)
Theorem bucket_hostnames_are_distinct
        (O : SetOrder) (local remote : list TunnelRoute) :
  let actions := compare_routes O local remote in
  NoDup (map hostname (create actions ++ update actions ++ delete actions)).
Proof.
  cbv zeta. destruct (bucket_hostnames_NoDup O local remote) as (C & U & D).
  rewrite !map_app. apply NoDup_app; [exact C | apply NoDup_app; trivial |].
  - intros h Hu Hd.
    apply in_map_iff in Hu as (x & <- & Hx). apply in_map_iff in Hd as (y & E & Hy).
    apply update_member in Hx as [Hx _]. apply delete_member in Hy as [_ Hy].
    apply Hy. rewrite E. apply (last_with_hostname _ _ _ Hx).
  - intros h Hc Hud. apply in_map_iff in Hc as (x & <- & Hx).
    apply create_member in Hx as [Hl Hr].
    apply in_app_or in Hud as [Hu|Hd].
    + apply in_map_iff in Hu as (y & E & Hy).
      apply update_member in Hy as [_ (r' & Hr' & _)].
      apply Hr. rewrite <- E. destruct (last_with_hostname _ _ _ Hr') as [H <-].
      exact H.
    + apply in_map_iff in Hd as (y & E & Hy).
      apply delete_member in Hy as [_ Hy].
      apply Hy. rewrite E. apply (last_with_hostname _ _ _ Hl).
Qed.

(** X3. The comparison reports no change exactly when both lists name the
    same hostnames and, for every hostname, the entries that count on
    the two sides are equal. *)
Theorem no_changes_iff_in_sync
        (O : SetOrder) (local remote : list TunnelRoute) :
  has_changes (compare_routes O local remote) = false <->
  (forall h, In h (map hostname local) <-> In h (map hostname remote))
  /\ (forall h l r, last_with hostname h local = Some l ->
                    last_with hostname h remote = Some r ->
                    TunnelRoute_eq l r = true).
Proof.
  assert (HC : has_changes (compare_routes O local remote) = false <->
               create (compare_routes O local remote) = []
               /\ update (compare_routes O local remote) = []
               /\ delete (compare_routes O local remote) = []).
  { unfold has_changes.
    destruct (create _), (update _), (delete _); simpl;
      split; try discriminate; try tauto;
      intros (? & ? & ?); discriminate. }
  rewrite HC, !nil_iff_no_member. split.
  - intros (C & U & D). split.
    + intros h. split; intros H.
      * destruct (in_dec string_dec h (map hostname remote)) as [|N]; [assumption|].
        destruct (last_with_bound hostname h local H) as (x & E).
        destruct (last_with_hostname _ _ _ E) as [_ Hx]. subst h.
        destruct (C x). now apply create_member.
      * destruct (in_dec string_dec h (map hostname local)) as [|N]; [assumption|].
        destruct (last_with_bound hostname h remote H) as (x & E).
        destruct (last_with_hostname _ _ _ E) as [_ Hx]. subst h.
        destruct (D x). now apply delete_member.
    + intros h l r El Er. destruct (TunnelRoute_eq l r) eqn:Q; [reflexivity|].
      destruct (last_with_hostname _ _ _ El) as [_ Hl]. subst h.
      destruct (U l). apply update_member. eauto.
  - intros [S Q]. repeat split; intros x Hx.
    + apply create_member in Hx as [E N]. apply N, S, (last_with_hostname _ _ _ E).
    + apply update_member in Hx as [E (r' & E' & Ne)].
      rewrite (Q _ _ _ E E') in Ne. discriminate.
    + apply delete_member in Hx as [E N]. apply N, S, (last_with_hostname _ _ _ E).
Qed.

(** X4. With distinct hostnames on both sides, every desired entry is
    in exactly one of three cases: it is created, it is updated, or the
    actual side has an equal entry for its hostname. *)
Theorem desired_entry_created_updated_or_in_sync
        (O : SetOrder) (desired actual : list TunnelRoute) (d : TunnelRoute) :
  NoDup (map hostname desired) -> NoDup (map hostname actual) ->
  In d desired ->
  let actions := compare_routes O desired actual in
  let in_sync := exists a, In a actual /\ hostname a = hostname d
                           /\ TunnelRoute_eq d a = true in
  (In d (create actions) \/ In d (update actions) \/ in_sync)
  /\ ~ (In d (create actions) /\ In d (update actions))
  /\ ~ (In d (create actions) /\ in_sync)
  /\ ~ (In d (update actions) /\ in_sync).
Proof.
  intros Nd Na Hd actions in_sync. subst actions in_sync.
  pose proof (last_with_NoDup hostname desired d Nd Hd) as Ld.
  rewrite create_member, update_member. repeat split.
  - destruct (in_dec string_dec (hostname d) (map hostname actual)) as [I|N];
      [|tauto].
    right. destruct (last_with_bound hostname _ actual I) as (a & E).
    destruct (TunnelRoute_eq d a) eqn:Q.
    + right. exists a. apply last_with_Some in E. tauto.
    + left. eauto.
  - intros [[_ N] [_ (a & E & _)]]. apply N.
    destruct (last_with_hostname _ _ _ E) as [H <-]. exact H.
  - intros [[_ N] (a & Ha & E & _)]. apply N. rewrite <- E. now apply in_map.
  - intros [[_ (a' & E' & Q)] (a & Ha & E & Q')].
    apply last_with_Some in E' as [Ha' E'].
    assert (a' = a) as -> by (apply (key_injective hostname actual); congruence).
    congruence.
Qed.

Lemma desired_entry_created_updated_or_in_sync_witness :
  In route_a (create (compare_routes descending_order
                                     [route_a; route_b] [route_a'; route_old]))
  \/ In route_a (update (compare_routes descending_order
                                        [route_a; route_b] [route_a'; route_old]))
  \/ exists a, In a [route_a'; route_old] /\ hostname a = hostname route_a
                /\ TunnelRoute_eq route_a a = true.
Proof.
  destruct (desired_entry_created_updated_or_in_sync
              descending_order [route_a; route_b] [route_a'; route_old] route_a)
    as (H & _).
  - repeat constructor; simpl; intuition discriminate.
  - repeat constructor; simpl; intuition discriminate.
  - simpl. tauto.
  - exact H.
Defined.

(** X5. Against an empty remote list everything is created and nothing
    else happens; against an empty local list everything is deleted. *)
Theorem compare_routes_against_nothing
        (O : SetOrder) (routes : list TunnelRoute) :
  NoDup (map hostname routes) ->
  Permutation (create (compare_routes O routes [])) routes
  /\ update (compare_routes O routes []) = []
  /\ delete (compare_routes O routes []) = []
  /\ Permutation (delete (compare_routes O [] routes)) routes
  /\ update (compare_routes O [] routes) = []
  /\ create (compare_routes O [] routes) = [].
Proof.
  intros N.
  assert (F : filter (only_in_first []) routes = routes)
    by (apply filter_all; reflexivity).
  repeat split.
  - rewrite <- F at 2. now apply create_perm.
  - apply nil_iff_no_member. intros x Hx.
    apply update_member in Hx as [_ (r' & E & _)]. discriminate.
  - apply nil_iff_no_member. intros x Hx.
    apply delete_member in Hx as [E _]. discriminate.
  - rewrite <- F at 2. now apply delete_perm.
  - apply nil_iff_no_member. intros x Hx.
    apply update_member in Hx as [E _]. discriminate.
  - apply nil_iff_no_member. intros x Hx.
    apply create_member in Hx as [E _]. discriminate.
Qed.

Lemma compare_routes_against_nothing_witness :
  Permutation (create (compare_routes descending_order [route_a; route_b] []))
              [route_a; route_b].
Proof.
  apply (compare_routes_against_nothing descending_order [route_a; route_b]).
  repeat constructor; simpl; intuition discriminate.
Defined.

End RouteExtras.

(** ** Values, hashes and documents *)

Module ModelExtras.
Import Py Model Sync Facts DictFacts ValueFacts Samples Entry.
Local Open Scope prog_scope.

Lemma all2_trans (xs : list PyVal) :
  Forall (fun x => forall y z, py_eq x y = true -> py_eq y z = true ->
                               py_eq x z = true) xs ->
  forall ys zs, all2 py_eq xs ys = true -> all2 py_eq ys zs = true ->
                all2 py_eq xs zs = true.
Proof.
  induction 1 as [|x xs Hx _ IH]; intros [|y ys] [|z zs]; simpl;
    try discriminate; auto.
  rewrite !andb_true_iff. intros [H1 H2] [H3 H4]. eauto.
Qed.

Ltac scalar_case :=
  intros;
  rewrite ?Z.eqb_eq, ?String.eqb_eq, ?Bool.eqb_true_iff in *;
  unfold bool_to_Z in *;
  repeat match goal with b : bool |- _ => destruct b end;
  (congruence || lia).

Lemma py_eq_trans : forall a b c,
  py_eq a b = true -> py_eq b c = true -> py_eq a c = true.
Proof.
  induction a as [| x | n | s | xs IH | xs IH] using PyVal_induction;
    intros [| y | m | t | ys | ys] [| z | k | u | zs | zs]; simpl;
    try discriminate; auto; try solve [scalar_case].
  - now apply all2_trans.
  - intros H1 H2.
    change (py_eq (VDict xs) (VDict ys) = true) in H1.
    change (py_eq (VDict ys) (VDict zs) = true) in H2.
    change (py_eq (VDict xs) (VDict zs) = true).
    rewrite py_eq_VDict in *. destruct H1 as [L1 B1], H2 as [L2 B2].
    split; [congruence|]. intros key v Hin.
    destruct (B1 key v Hin) as (w & Ew & Q1).
    destruct (B2 key w (dict_get_In _ _ _ Ew)) as (u & Eu & Q2).
    exists u. split; [exact Eu|].
    rewrite Forall_forall in IH. exact (IH (key, v) Hin w u Q1 Q2).
Qed.

Lemma optional_eq_trans {A} (eq : A -> A -> bool) (a b c : option A) :
  (forall x y z, eq x y = true -> eq y z = true -> eq x z = true) ->
  optional_eq eq a b = true -> optional_eq eq b c = true ->
  optional_eq eq a c = true.
Proof. intros H. destruct a, b, c; simpl; try discriminate; eauto. Qed.

Lemma OriginRequest_eq_trans a b c :
  OriginRequest_eq a b = true -> OriginRequest_eq b c = true ->
  OriginRequest_eq a c = true.
Proof.
  unfold OriginRequest_eq, dict_eq. rewrite !andb_true_iff.
  intros [H1 H2] [H3 H4]. split.
  - revert H1 H3. apply optional_eq_trans. intros [] [] []; simpl; congruence.
  - exact (py_eq_trans _ _ _ H2 H4).
Qed.

(** X6. Route equality is an equivalence relation on routes whose
    dictionaries bind each key once: reflexive, symmetric and
    transitive. *)
Theorem route_equality_is_an_equivalence (a b c : TunnelRoute) :
  wf_route a = true -> wf_route b = true ->
  TunnelRoute_eq a a = true
  /\ (TunnelRoute_eq a b = true -> TunnelRoute_eq b a = true)
  /\ (TunnelRoute_eq a b = true -> TunnelRoute_eq b c = true ->
      TunnelRoute_eq a c = true).
Proof.
  intros Wa Wb. split; [now apply TunnelRoute_eq_refl|]. split.
  - intros H. now rewrite <- (TunnelRoute_eq_sym a b Wa Wb).
  - unfold TunnelRoute_eq. rewrite !andb_true_iff, !String.eqb_eq.
    intros [[H1 H2] H3] [[H4 H5] H6]. repeat split; try congruence.
    revert H3 H6. apply optional_eq_trans. exact OriginRequest_eq_trans.
Qed.

Lemma route_equality_is_an_equivalence_witness :
  TunnelRoute_eq (with_options route_a None options_ab)
                 (with_options route_a None options_ab) = true.
Proof.
  apply (route_equality_is_an_equivalence
           (with_options route_a None options_ab)
           (with_options route_a None options_ba) route_a);
    reflexivity.
Defined.

(** X7. Hashing agrees with equality: two equal routes have the same
    hash, whatever the hash of strings is. *)
Theorem equal_routes_hash_alike
        (hash : string -> Z) (a b : TunnelRoute) :
  TunnelRoute_eq a b = true ->
  TunnelRoute_hash hash a = TunnelRoute_hash hash b.
Proof.
  unfold TunnelRoute_eq, TunnelRoute_hash.
  rewrite !andb_true_iff, String.eqb_eq. intros [[-> _] _]. reflexivity.
Qed.

Lemma equal_routes_hash_alike_witness :
  TunnelRoute_hash (fun s => Z.of_nat (String.length s))
                   (with_options route_a None options_ab)
  = TunnelRoute_hash (fun s => Z.of_nat (String.length s))
                     (with_options route_a None options_ba).
Proof.
  apply (equal_routes_hash_alike
           (fun s => Z.of_nat (String.length s))
           (with_options route_a None options_ab)
           (with_options route_a None options_ba)).
  reflexivity.
Defined.

(** X8. Reading back a document built by [build_cloudflare_config]: the
    rules that pass the reader's hostname test are the dictionaries of
    the routes, in order, each under its own hostname, and the only
    rule that fails it is the catch-all. *)
Theorem built_document_reads_back (routes : list TunnelRoute) :
  let rules := ingress (build_cloudflare_config routes) in
  filter has_hostname rules = map to_dict routes
  /\ filter (fun rule => negb (has_hostname rule)) rules = [catch_all]
  /\ map (dict_get "hostname") (filter has_hostname rules)
     = map (fun r => Some (VStr (hostname r))) routes
  /\ List.length rules = S (List.length routes).
Proof.
  cbv zeta. unfold build_cloudflare_config. simpl ingress.
  rewrite !filter_app. simpl.
  assert (K : filter has_hostname (map to_dict routes) = map to_dict routes).
  { apply filter_all. intros rule H. apply in_map_iff in H as (r & <- & _).
    reflexivity. }
  assert (D : filter (fun rule => negb (has_hostname rule)) (map to_dict routes)
              = []).
  { apply filter_none. intros rule H. apply in_map_iff in H as (r & <- & _).
    reflexivity. }
  rewrite K, D, app_nil_r, map_map, length_app, length_map. simpl.
  repeat split; try reflexivity. lia.
Qed.

(** X9. Any failure of the configuration read leaves
    [get_cloudflare_routes] as it came, an HTTP 404 included: the
    branch for status 404 is never taken, because an error response is
    falsy. *)
Theorem configuration_read_failure_propagates
        (self : TunnelConfigManager) (e : Exn) :
  tunnel_configuration (api self) = Fails e ->
  get_cloudflare_routes self = ([Api GetTunnelConfiguration], Raise e)
  /\ forall status, response_truthy status && (status =? 404)%Z = false.
Proof.
  intros H. split.
  - unfold get_cloudflare_routes, get_tunnel_configuration, try_except_http, bind.
    rewrite H. destruct e as [st msg txt|msg]; simpl; [|reflexivity].
    unfold response_truthy. destruct (Z.eqb_spec st 404) as [->|_].
    + reflexivity.
    + now rewrite andb_false_r.
  - intros status. unfold response_truthy.
    destruct (Z.eqb_spec status 404) as [->|_]; [reflexivity | apply andb_false_r].
Qed.

Lemma configuration_read_failure_propagates_witness :
  get_cloudflare_routes
    (manager_of {| tunnel_id := "T";
                   tunnel_configuration :=
                     Fails (HTTPError 404 "404 Client Error: Not Found" "");
                   dns_listing := Returns [];
                   mutation_error := fun _ => None |})
  = ([Api GetTunnelConfiguration],
     Raise (HTTPError 404 "404 Client Error: Not Found" "")).
Proof.
  apply (configuration_read_failure_propagates
           (manager_of {| tunnel_id := "T";
                          tunnel_configuration :=
                            Fails (HTTPError 404 "404 Client Error: Not Found" "");
                          dns_listing := Returns [];
                          mutation_error := fun _ => None |})).
  reflexivity.
Defined.

(** X10. A successful configuration read returns exactly the rules that
    carry a hostname, in order, wherever the other rules stand in the
    list; an empty result gives the empty list after a warning. *)
Theorem configuration_read_keeps_hostname_rules
        (self : TunnelConfigManager) (response : option (list IngressRule)) :
  tunnel_configuration (api self) = Returns response ->
  match response with
  | Some ingress_rules =>
      get_cloudflare_routes self
      = ([Api GetTunnelConfiguration], Ok (routes_of_rules ingress_rules))
      /\ map HostRule (routes_of_rules ingress_rules)
         = filter (fun rule => match rule with
                               | HostRule _ => true
                               | NoHostRule _ => false
                               end) ingress_rules
  | None =>
      get_cloudflare_routes self
      = ([Api GetTunnelConfiguration;
          Print "Warning: No tunnel configuration found. Will create new configuration."],
         Ok [])
  end.
Proof.
  intros H. unfold get_cloudflare_routes, get_tunnel_configuration,
    try_except_http, bind.
  rewrite H. destruct response as [rules|]; simpl; [|reflexivity].
  split; [reflexivity|]. clear H.
  unfold routes_of_rules.
  induction rules as [|[r|d] rules IH]; simpl; [reflexivity | | exact IH].
  f_equal. exact IH.
Qed.

Lemma configuration_read_keeps_hostname_rules_witness :
  get_cloudflare_routes
    (manager_of {| tunnel_id := "T";
                   tunnel_configuration :=
                     Returns (Some [NoHostRule catch_all; HostRule route_a;
                                    NoHostRule catch_all; HostRule route_b]);
                   dns_listing := Returns [];
                   mutation_error := fun _ => None |})
  = ([Api GetTunnelConfiguration], Ok [route_a; route_b]).
Proof.
  apply (configuration_read_keeps_hostname_rules
           (manager_of {| tunnel_id := "T";
                          tunnel_configuration :=
                            Returns (Some [NoHostRule catch_all; HostRule route_a;
                                           NoHostRule catch_all; HostRule route_b]);
                          dns_listing := Returns [];
                          mutation_error := fun _ => None |})
           (Some [NoHostRule catch_all; HostRule route_a;
                  NoHostRule catch_all; HostRule route_b])).
  reflexivity.
Defined.

End ModelExtras.

(** ** DNS reconciler: the index, coverage, being in sync *)

Module DnsExtras.
Import Py Model Sync Facts DictFacts DnsClaims Samples Entry.

(** X11. Every entry of the index built from a listing is a record of
    that listing that passes the filter, filed under its own name; the
    index has one entry per name. *)
Theorem indexed_records_are_managed
        (records : list DNSRecord) (n : string) (r : DNSRecord) :
  dict_get n (index_dns_records records) = Some r ->
  In r records /\ is_managed r = true /\ name r = n
  /\ NoDup (dict_keys (index_dns_records records)).
Proof.
  rewrite index_dns_records_get. intros H.
  apply managed_record_Some in H as (H1 & H2 & H3).
  repeat split; trivial.
  rewrite index_dns_records_assign. apply assign_all_keys_NoDup. constructor.
Qed.

Lemma indexed_records_are_managed_witness :
  is_managed {| id := Some "3"; type := "CNAME"; name := "z.example.com";
                content := "T.cfargotunnel.com"; proxied := true; ttl := 1;
                dns_extra := [] |} = true.
Proof.
  apply (indexed_records_are_managed sample_listing "z.example.com").
  reflexivity.
Defined.

(** X12. Every desired hostname is in exactly one of three cases: it is
    to be created, it is to be updated, or its managed record already
    points to the tunnel domain; it is never to be deleted. *)
Theorem desired_name_created_updated_or_pointing
        (O : SetOrder) (routes : list TunnelRoute) (target : string)
        (records : list DNSRecord) (h : string) :
  In h (map hostname routes) ->
  let p := dns_plan O routes target (index_dns_records records) in
  let pointing := exists r, managed_record records h = Some r
                            /\ content r = target in
  (In h (dns_create p) \/ In h (dns_update p) \/ pointing)
  /\ ~ (In h (dns_create p) /\ In h (dns_update p))
  /\ ~ (In h (dns_create p) /\ pointing)
  /\ ~ (In h (dns_update p) /\ pointing)
  /\ ~ In h (dns_delete p).
Proof.
  intros Hh p pointing. subst p pointing.
  rewrite dns_create_In, dns_update_In, dns_delete_In. repeat split.
  - destruct (managed_record records h) as [r|]; [|tauto].
    right. destruct (string_dec (content r) target); eauto.
  - intros [[_ E] [_ (r & E' & _)]]. congruence.
  - intros [[_ E] (r & E' & _)]. congruence.
  - intros [[_ (r & E & N)] (r' & E' & Q)]. congruence.
  - tauto.
Qed.

Lemma desired_name_created_updated_or_pointing_witness :
  ~ In "a.example.com"
       (dns_delete (dns_plan descending_order [route_a; route_b]
                             "T.cfargotunnel.com"
                             (index_dns_records sample_listing))).
Proof.
  apply (desired_name_created_updated_or_pointing
           descending_order [route_a; route_b] "T.cfargotunnel.com"
           sample_listing "a.example.com").
  simpl. tauto.
Defined.

(** X13. The DNS plan is empty exactly when every desired hostname has
    a managed record that points to the tunnel domain and every managed
    name is desired. *)
Theorem dns_no_changes_iff_in_sync
        (O : SetOrder) (routes : list TunnelRoute) (target : string)
        (records : list DNSRecord) :
  dns_has_changes (dns_plan O routes target (index_dns_records records)) = false
  <->
  (forall h, In h (map hostname routes) ->
             exists r, managed_record records h = Some r /\ content r = target)
  /\ (forall n, managed_record records n <> None -> In n (map hostname routes)).
Proof.
  set (p := dns_plan O routes target (index_dns_records records)).
  assert (HC : dns_has_changes p = false <->
               (forall h, ~ In h (dns_create p))
               /\ (forall h, ~ In h (dns_update p))
               /\ (forall h, ~ In h (dns_delete p))).
  { unfold dns_has_changes.
    destruct (dns_create p) as [|a ?], (dns_update p) as [|b ?],
             (dns_delete p) as [|c ?]; simpl; split;
      try discriminate; try tauto; intros (C & U & D);
      solve [ destruct (C a); now left | destruct (U b); now left
            | destruct (D c); now left ]. }
  rewrite HC. unfold p. clear HC p. split.
  - intros (C & U & D). split.
    + intros h Hh. specialize (C h). specialize (U h).
      rewrite dns_create_In in C. rewrite dns_update_In in U.
      destruct (managed_record records h) as [r|]; [|tauto].
      exists r. split; [reflexivity|].
      destruct (string_dec (content r) target); [assumption|].
      destruct U. eauto.
    + intros n Hn. specialize (D n). rewrite dns_delete_In in D.
      destruct (in_dec string_dec n (map hostname routes)); tauto.
  - intros [S M]. repeat split; intros h.
    + rewrite dns_create_In. intros [Hh E].
      destruct (S h Hh) as (r & E' & _). congruence.
    + rewrite dns_update_In. intros [Hh (r & E & N)].
      destruct (S h Hh) as (r' & E' & Q). congruence.
    + rewrite dns_delete_In. intros [Hn N]. auto.
Qed.

(** X14. A record as the tool creates it passes the tool's own filter:
    once it is the last record listed for its hostname, that hostname
    is neither created again nor updated. *)
Theorem created_record_needs_no_further_action
        (O : SetOrder) (routes : list TunnelRoute) (tunnel : string)
        (records : list DNSRecord) (h : string) :
  let target := tunnel_domain tunnel in
  let listing := records ++ [cname_record h target] in
  let p := dns_plan O routes target (index_dns_records listing) in
  is_managed (cname_record h target) = true
  /\ managed_record listing h = Some (cname_record h target)
  /\ ~ In h (dns_create p)
  /\ ~ In h (dns_update p).
Proof.
  cbv zeta.
  assert (M : is_managed (cname_record h (tunnel_domain tunnel)) = true).
  { apply is_managed_spec. split; [reflexivity|]. now exists tunnel. }
  assert (E : managed_record (records ++ [cname_record h (tunnel_domain tunnel)]) h
              = Some (cname_record h (tunnel_domain tunnel))).
  { rewrite managed_record_last, M. simpl. now rewrite String.eqb_refl. }
  repeat split; trivial.
  - rewrite dns_create_In. intros [_ N]. congruence.
  - rewrite dns_update_In. intros [_ (r & E' & N)].
    rewrite E in E'. injection E' as <-. now apply N.
Qed.

End DnsExtras.

(** ** Runs: what is requested, and when a run stops *)

Module SyncExtras.
Import Py Model Sync Facts DictFacts SyncFacts RunFacts ShapeFacts PhaseFacts.
Import AttemptFacts SyncClaims Samples Entry.
Local Open Scope prog_scope.

(** X15. Without DNS management a run never requests the DNS listing
    and never creates, updates or deletes a DNS record. *)
Theorem no_dns_management_no_dns_request
        (self : TunnelConfigManager) (O : SetOrder) (dry_run : bool) :
  manage_dns self = false ->
  Forall (fun r => is_dns_mutation r = false /\ r <> ListDnsRecords)
         (calls (trace (sync self O dry_run))).
Proof.
  intros Hm. destruct (sync_issues self O dry_run) as [Hp _].
  apply (prefix_Forall _ _ _ Hp). unfold expected_calls. rewrite Hm.
  destruct (has_changes _ && negb dry_run); simpl;
    repeat constructor; discriminate.
Qed.

Lemma no_dns_management_no_dns_request_witness :
  calls (trace (sync {| config_file := Returns [route_a];
                        api := fresh_api; manage_dns := false |}
                     insertion_order false))
  = [GetTunnelConfiguration;
     UpdateTunnelConfiguration (build_cloudflare_config [route_a])]
  /\ Forall (fun r => is_dns_mutation r = false /\ r <> ListDnsRecords)
            (calls (trace (sync {| config_file := Returns [route_a];
                                   api := fresh_api; manage_dns := false |}
                                insertion_order false))).
Proof.
  split; [reflexivity|].
  apply (no_dns_management_no_dns_request
           {| config_file := Returns [route_a];
              api := fresh_api; manage_dns := false |} insertion_order false).
  reflexivity.
Defined.

(** X16. If the local configuration cannot be loaded, the run stops
    with that exception before any request is made. *)
Theorem load_failure_stops_before_any_request
        (self : TunnelConfigManager) (O : SetOrder) (dry_run : bool) (e : Exn) :
  config_file self = Fails e ->
  sync self O dry_run = ([Print "Loading local configuration..."], Raise e)
  /\ calls (trace (sync self O dry_run)) = [].
Proof.
  intros H.
  assert (E : sync self O dry_run
              = ([Print "Loading local configuration..."], Raise e)).
  { unfold sync, load_local_config, bind. rewrite H. reflexivity. }
  now rewrite E.
Qed.

Lemma load_failure_stops_before_any_request_witness :
  calls (trace (sync {| config_file := Fails (OtherError "No such file or directory");
                        api := fresh_api; manage_dns := true |}
                     insertion_order false))
  = [].
Proof.
  apply (load_failure_stops_before_any_request
           {| config_file := Fails (OtherError "No such file or directory");
              api := fresh_api; manage_dns := true |}
           insertion_order false (OtherError "No such file or directory")).
  reflexivity.
Defined.

Lemma get_cloudflare_routes_fails self e :
  tunnel_configuration (api self) = Fails e ->
  get_cloudflare_routes self = ([Api GetTunnelConfiguration], Raise e).
Proof.
  intros H.
  unfold get_cloudflare_routes, get_tunnel_configuration, try_except_http, bind.
  rewrite H. destruct e as [st msg txt|msg]; simpl; [|reflexivity].
  now rewrite not_found_branch_dead.
Qed.

(** X17. If the configuration read fails, for whatever reason, the run
    stops with that exception: the read is its only request, nothing is
    changed remotely and the DNS phase is not entered. *)
Theorem read_failure_stops_the_run
        (self : TunnelConfigManager) (O : SetOrder) (dry_run : bool)
        (local : list TunnelRoute) (e : Exn) :
  config_file self = Returns local ->
  tunnel_configuration (api self) = Fails e ->
  calls (trace (sync self O dry_run)) = [GetTunnelConfiguration]
  /\ result (sync self O dry_run) = Raise e.
Proof.
  intros Hl He. unfold sync.
  rewrite trace_bind_print, result_bind_print, (load_local_config_ok _ _ Hl),
    bind_ret, !trace_bind_print, !result_bind_print.
  rewrite trace_bind, result_bind, (get_cloudflare_routes_fails self e He).
  split; reflexivity.
Qed.

Lemma read_failure_stops_the_run_witness :
  result (sync (manager_of
                  {| tunnel_id := "T";
                     tunnel_configuration :=
                       Fails (HTTPError 404 "404 Client Error: Not Found" "");
                     dns_listing := Returns [];
                     mutation_error := fun _ => None |})
               insertion_order false)
  = Raise (HTTPError 404 "404 Client Error: Not Found" "").
Proof.
  apply (read_failure_stops_the_run
           (manager_of
              {| tunnel_id := "T";
                 tunnel_configuration :=
                   Fails (HTTPError 404 "404 Client Error: Not Found" "");
                 dns_listing := Returns [];
                 mutation_error := fun _ => None |})
           insertion_order false [route_a]);
    reflexivity.
Defined.

(** X18. Once both reads have succeeded, the tunnel configuration is
    updated exactly when the comparison found changes and the run is
    not a dry run, and then exactly once, with the document built from
    the local routes. *)
Theorem configuration_updated_iff_changes
        (self : TunnelConfigManager) (O : SetOrder) (dry_run : bool)
        (local remote : list TunnelRoute) :
  config_file self = Returns local ->
  result (get_cloudflare_routes self) = Ok remote ->
  filter is_config_update (calls (trace (sync self O dry_run)))
  = if has_changes (compare_routes O local remote) && negb dry_run
    then [UpdateTunnelConfiguration (build_cloudflare_config local)]
    else [].
Proof.
  intros Hl Hr.
  destruct (sync_shape self O dry_run local remote Hl Hr) as [Ht _].
  cbv zeta in Ht.
  rewrite Ht, calls_app, report_head_calls, trace_bind, calls_app,
    apply_phase_calls, !filter_app.
  assert (D : filter is_config_update
                (calls match result (apply_phase self
                                       (compare_routes O local remote) local dry_run)
                       with
                       | Ok _ => trace (sync_dns_records self O local dry_run)
                       | _ => []
                       end) = []).
  { destruct (result (apply_phase self (compare_routes O local remote)
                                  local dry_run));
      try reflexivity.
    apply filter_Forall_nil, sync_dns_records_no_config_update. }
  rewrite D, app_nil_r.
  now destruct (has_changes _ && negb dry_run).
Qed.

Lemma configuration_updated_iff_changes_witness :
  filter is_config_update
         (calls (trace (sync (manager_of fresh_api) insertion_order true)))
  = [].
Proof.
  apply (configuration_updated_iff_changes
           (manager_of fresh_api) insertion_order true [route_a] []);
    reflexivity.
Defined.

(** X19. A real DNS application sends its requests one after the other
    and stops at the first one that fails: the requests made are those
    up to and including the failing one, nothing already done is undone,
    and the phase ends with exit status 1 after an HTTP error (with the
    exception itself otherwise).  No lookup of a planned hostname ever
    fails. *)
Theorem dns_application_stops_at_first_failure
        (self : TunnelConfigManager) (O : SetOrder) (routes : list TunnelRoute)
        (existing : Dict DNSRecord) :
  manage_dns self = true ->
  result (get_existing_dns_records self) = Ok existing ->
  let p := dns_plan O routes (target self) existing in
  let outcome := attempt (api self) (dns_calls (target self) existing p) in
  calls (trace (sync_dns_records self O routes false))
  = ListDnsRecords :: fst outcome
  /\ result (sync_dns_records self O routes false) = phase_outcome (snd outcome).
Proof.
  intros Hm He p outcome.
  destruct (planned_names_are_bound O routes (target self) existing) as [Bu Bd].
  destruct (dns_apply_performs self existing p Bu Bd) as [Ca Ra].
  fold outcome in Ca, Ra.
  unfold sync_dns_records. rewrite Hm. simpl negb. cbv iota.
  rewrite trace_bind_print, result_bind_print.
  rewrite (trace_bind_ok _ _ _ He), (result_bind_ok _ _ _ He).
  fold p. rewrite trace_bind, result_bind, dns_report_run.
  simpl result. simpl trace. cbv iota.
  simpl calls at 1. rewrite !calls_app, get_existing_dns_records_calls, calls_prints.
  simpl app.
  destruct (dns_has_changes p) eqn:Hc; simpl negb; cbv iota.
  - unfold try_except_http. rewrite Ra.
    destruct (snd outcome) as [[st msg txt|msg]|]; simpl.
    + rewrite calls_app, Ca. simpl. now rewrite app_nil_r.
    + now rewrite Ca.
    + now rewrite Ca.
  - unfold outcome. rewrite (dns_calls_no_changes _ _ _ Hc). split; reflexivity.
Qed.

Lemma dns_application_stops_at_first_failure_witness :
  calls (trace (sync_dns_records (manager_of refusing_b_api) insertion_order
                                 [route_a; route_b; route_old] false))
  = [ListDnsRecords;
     CreateDnsRecord (cname_record "a.example.com" "T.cfargotunnel.com");
     CreateDnsRecord (cname_record "b.example.com" "T.cfargotunnel.com")]
  /\ result (sync_dns_records (manager_of refusing_b_api) insertion_order
                              [route_a; route_b; route_old] false)
     = SysExit 1.
Proof.
  apply (dns_application_stops_at_first_failure
           (manager_of refusing_b_api) insertion_order
           [route_a; route_b; route_old] []);
    reflexivity.
Defined.

(** X20. For a hostname bound in the index, the update and delete steps
    make a request exactly when the record's id is a non-empty string;
    an empty id is passed over like a missing one. *)
Theorem step_requests_need_a_usable_id
        (self : TunnelConfigManager) (existing : Dict DNSRecord)
        (h : string) (r : DNSRecord) :
  dict_get h existing = Some r ->
  let usable := match id r with
                | Some i => if String.eqb i "" then None else Some i
                | None => None
                end in
  calls (trace (dns_update_step self existing h))
  = match usable with
    | Some i => [UpdateDnsRecord i (cname_record h (target self))]
    | None => []
    end
  /\ calls (trace (dns_delete_step self existing h))
     = match usable with
       | Some i => [DeleteDnsRecord i]
       | None => []
       end
  /\ (usable = None ->
      dns_update_step self existing h = ret tt
      /\ dns_delete_step self existing h = ret tt).
Proof.
  intros E usable. subst usable.
  unfold dns_update_step, dns_delete_step, lookup_record.
  rewrite E, !bind_ret. unfold id_truthy.
  destruct (id r) as [i|]; [destruct (String.eqb i "")|].
  1, 3: (split; [reflexivity | split; [reflexivity | intros _; split; reflexivity]]).
  split; [|split; [|discriminate]].
  - unfold update_dns_record, mutate, bind. simpl.
    now destruct (mutation_error _ _).
  - unfold delete_dns_record, mutate, bind. simpl.
    now destruct (mutation_error _ _).
Qed.

Lemma step_requests_need_a_usable_id_witness :
  dns_delete_step (manager_of fresh_api)
    [("z.example.com", cname (Some "") "z.example.com" "T.cfargotunnel.com")]
    "z.example.com"
  = ret tt.
Proof.
  apply (step_requests_need_a_usable_id
           (manager_of fresh_api)
           [("z.example.com", cname (Some "") "z.example.com" "T.cfargotunnel.com")]
           "z.example.com"
           (cname (Some "") "z.example.com" "T.cfargotunnel.com"));
    reflexivity.
Defined.

End SyncExtras.

(** ** The entry point *)

Module MainExtras.
Import Py Model Sync Facts DictFacts SyncFacts RunFacts ShapeFacts PhaseFacts.
Import SyncClaims Samples Entry.
Local Open Scope prog_scope.

Lemma exits_ret {A} (a : A) : exits_with_one (ret a).
Proof. intros c H. discriminate. Qed.

Lemma exits_print s : exits_with_one (print s).
Proof. intros c H. discriminate. Qed.

Lemma exits_mutate self r : exits_with_one (mutate self r).
Proof. intros c. unfold mutate. simpl. destruct (mutation_error self r); discriminate. Qed.

Lemma exits_bind {A B} (m : M A) (k : A -> M B) :
  exits_with_one m -> (forall a, exits_with_one (k a)) ->
  exits_with_one (bind m k).
Proof.
  intros Hm Hk c. rewrite result_bind.
  destruct (result m) as [a| |c'] eqn:E; [apply Hk | discriminate |].
  intros [= <-]. now apply Hm.
Qed.

Lemma exits_for_each {A} (l : list A) body :
  (forall x, exits_with_one (body x)) -> exits_with_one (for_each l body).
Proof.
  intros H. induction l as [|x l IH]; simpl; [apply exits_ret|].
  apply exits_bind; auto.
Qed.

Lemma exits_try {A} (m : M A) h :
  exits_with_one m -> (forall s msg t, exits_with_one (h s msg t)) ->
  exits_with_one (try_except_http m h).
Proof.
  intros Hm Hh c. unfold try_except_http.
  destruct (result m) as [a|[s msg t|msg]|c'] eqn:E; simpl;
    try (rewrite E; discriminate).
  - apply Hh.
  - rewrite E. intros [= <-]. now apply Hm.
Qed.

Lemma exits_report_http_error what s msg t :
  exits_with_one (report_http_error what s msg t).
Proof. intros c [= <-]. reflexivity. Qed.

Lemma exits_step self existing :
  (forall h, exits_with_one (dns_create_step self h))
  /\ (forall h, exits_with_one (dns_update_step self existing h))
  /\ (forall h, exits_with_one (dns_delete_step self existing h)).
Proof.
  repeat split; intros h.
  - apply exits_bind; [apply exits_mutate | intros; apply exits_print].
  - unfold dns_update_step, lookup_record.
    destruct (dict_get h existing) as [r|]; [|intros c H; discriminate].
    rewrite bind_ret. destruct (id_truthy (id r)); [|apply exits_ret].
    apply exits_bind; [apply exits_mutate | intros; apply exits_print].
  - unfold dns_delete_step, lookup_record.
    destruct (dict_get h existing) as [r|]; [|intros c H; discriminate].
    rewrite bind_ret. destruct (id_truthy (id r)); [|apply exits_ret].
    apply exits_bind; [apply exits_mutate | intros; apply exits_print].
Qed.

Lemma exits_sync_dns_records self O routes dry_run :
  exits_with_one (sync_dns_records self O routes dry_run).
Proof.
  unfold sync_dns_records. destruct (manage_dns self); simpl; [|apply exits_ret].
  apply exits_bind; [apply exits_print|]. intros _.
  apply exits_bind.
  { unfold get_existing_dns_records. apply exits_try.
    - apply exits_bind; [|intros; apply exits_ret].
      intros c. unfold list_dns_records. simpl.
      destruct (dns_listing (api self)); discriminate.
    - intros s msg t. apply exits_bind; [apply exits_print | intros; apply exits_ret]. }
  intros existing. apply exits_bind.
  { rewrite dns_report_run. intros c H. discriminate. }
  intros _. destruct (dns_has_changes _); simpl; [|apply exits_print].
  destruct dry_run; [apply exits_ret|].
  apply exits_try; [|intros; apply exits_report_http_error].
  destruct (exits_step self existing) as (Hc & Hu & Hd). unfold dns_apply.
  apply exits_bind; [now apply exits_for_each|]. intros _.
  apply exits_bind; [now apply exits_for_each|]. intros _.
  apply exits_bind; [now apply exits_for_each|]. intros _.
  apply exits_print.
Qed.

Lemma exits_sync self O dry_run : exits_with_one (sync self O dry_run).
Proof.
  unfold sync.
  apply exits_bind; [apply exits_print|]. intros _.
  apply exits_bind.
  { intros c. unfold load_local_config. simpl.
    destruct (config_file self); discriminate. }
  intros local.
  apply exits_bind; [apply exits_print|]. intros _.
  apply exits_bind; [apply exits_print|]. intros _.
  apply exits_bind.
  { unfold get_cloudflare_routes. apply exits_try.
    - apply exits_bind.
      + intros c. unfold get_tunnel_configuration. simpl.
        destruct (tunnel_configuration (api self)); discriminate.
      + intros [rules|]; [apply exits_ret|].
        apply exits_bind; [apply exits_print | intros; apply exits_ret].
    - intros s msg t. rewrite not_found_branch_dead. intros c H. discriminate. }
  intros remote.
  apply exits_bind; [apply exits_print|]. intros _.
  apply exits_bind; [apply exits_print|]. intros _.
  apply exits_bind.
  { rewrite route_report_run. intros c H. discriminate. }
  intros _. apply exits_bind; [|intros; apply exits_sync_dns_records].
  unfold apply_phase. destruct (has_changes _); simpl; [|apply exits_print].
  destruct dry_run; [apply exits_print|].
  unfold apply_routes.
  apply exits_bind; [apply exits_print|]. intros _.
  apply exits_try; [|intros; apply exits_report_http_error].
  apply exits_bind; [apply exits_mutate | intros; apply exits_print].
Qed.

Lemma handle_errors_calls config class_of m :
  calls (trace (handle_errors config class_of m)) = calls (trace m).
Proof.
  unfold handle_errors. destruct (result m); try reflexivity.
  simpl. rewrite calls_app. simpl. apply app_nil_r.
Qed.

Lemma sync_without_dns_management self O dry_run :
  manage_dns self = false ->
  Forall (fun r => is_dns_mutation r = false /\ r <> ListDnsRecords)
         (calls (trace (sync self O dry_run))).
Proof.
  intros Hm. destruct (sync_issues self O dry_run) as [Hp _].
  apply (prefix_Forall _ _ _ Hp). unfold expected_calls. rewrite Hm.
  destruct (has_changes _ && negb dry_run); simpl;
    repeat constructor; discriminate.
Qed.

(** X21. [main] refuses to start with an incomplete environment: if the
    API token, the account id or the tunnel id is unset or empty, or if
    the zone id is unset or empty while DNS management is on, it exits
    with status 1 without making any request. *)
Theorem main_refuses_incomplete_environment
        (env : Environ) (args : Args)
        (files : string -> Reply (list TunnelRoute))
        (cloud : CloudflareAPI) (class_of : string -> ExnClass) (O : SetOrder) :
  truthy (CLOUDFLARE_API_TOKEN env) && truthy (CLOUDFLARE_ACCOUNT_ID env)
  && truthy (CLOUDFLARE_TUNNEL_ID env) = false
  \/ (no_dns args = false /\ truthy (CLOUDFLARE_ZONE_ID env) = false) ->
  result (main env args files cloud class_of O) = SysExit 1
  /\ calls (trace (main env args files cloud class_of O)) = [].
Proof.
  unfold main.
  destruct (truthy (CLOUDFLARE_API_TOKEN env)),
           (truthy (CLOUDFLARE_ACCOUNT_ID env)),
           (truthy (CLOUDFLARE_TUNNEL_ID env));
    simpl; try (intros _; split; reflexivity).
  intros [H|[-> ->]]; [discriminate|]. split; reflexivity.
Qed.

Lemma main_refuses_incomplete_environment_witness :
  result (main poor_environ no_dns_args one_file fresh_api plain_classes
               insertion_order) = SysExit 1
  /\ result (main no_zone_environ default_args one_file fresh_api plain_classes
                  insertion_order) = SysExit 1.
Proof.
  split.
  - apply (main_refuses_incomplete_environment
             poor_environ no_dns_args one_file fresh_api plain_classes
             insertion_order).
    left. reflexivity.
  - apply (main_refuses_incomplete_environment
             no_zone_environ default_args one_file fresh_api plain_classes
             insertion_order).
    right. split; reflexivity.
Defined.

(** X22. No exception leaves [main]: whatever the environment, the
    files and the remote side do, it ends normally or exits with
    status 1. *)
Theorem main_ends_normally_or_with_status_one
        (env : Environ) (args : Args)
        (files : string -> Reply (list TunnelRoute))
        (cloud : CloudflareAPI) (class_of : string -> ExnClass) (O : SetOrder) :
  result (main env args files cloud class_of O) = Ok tt
  \/ result (main env args files cloud class_of O) = SysExit 1.
Proof.
  unfold main.
  destruct (truthy (CLOUDFLARE_API_TOKEN env)),
           (truthy (CLOUDFLARE_ACCOUNT_ID env)),
           (truthy (CLOUDFLARE_TUNNEL_ID env));
    try (right; reflexivity).
  change (negb (true && true && true)) with false. cbv iota.
  destruct (negb (no_dns args) && _); [right; reflexivity|].
  cbv zeta. unfold handle_errors.
  destruct (result (sync _ O (dry_run args))) as [[]|e|c] eqn:E.
  - left. exact E.
  - right. reflexivity.
  - right. rewrite E. f_equal. exact (exits_sync _ _ _ c E).
Qed.

(** X23. With [--no-dns], [main] never requests the DNS listing and
    never creates, updates or deletes a DNS record, and it starts
    without a zone id. *)
Theorem main_no_dns_makes_no_dns_request
        (env : Environ) (args : Args)
        (files : string -> Reply (list TunnelRoute))
        (cloud : CloudflareAPI) (class_of : string -> ExnClass) (O : SetOrder) :
  no_dns args = true ->
  Forall (fun r => is_dns_mutation r = false /\ r <> ListDnsRecords)
         (calls (trace (main env args files cloud class_of O)))
  /\ (truthy (CLOUDFLARE_API_TOKEN env) && truthy (CLOUDFLARE_ACCOUNT_ID env)
      && truthy (CLOUDFLARE_TUNNEL_ID env) = true ->
      calls (trace (main env args files cloud class_of O))
      = calls (trace (sync {| config_file := files (config args);
                              api := connect cloud
                                       (or_empty (CLOUDFLARE_TUNNEL_ID env));
                              manage_dns := false |}
                           O (dry_run args)))).
Proof.
  intros Hn. unfold main. rewrite Hn. simpl negb. simpl andb. cbv iota zeta.
  destruct (truthy (CLOUDFLARE_API_TOKEN env)
            && truthy (CLOUDFLARE_ACCOUNT_ID env)
            && truthy (CLOUDFLARE_TUNNEL_ID env)) eqn:T; simpl negb; cbv iota.
  - rewrite handle_errors_calls. split; [|reflexivity].
    now apply sync_without_dns_management.
  - split; [|discriminate].
    destruct (truthy (CLOUDFLARE_API_TOKEN env)),
             (truthy (CLOUDFLARE_ACCOUNT_ID env)),
             (truthy (CLOUDFLARE_TUNNEL_ID env));
      try discriminate T; simpl; constructor.
Qed.

Lemma main_no_dns_makes_no_dns_request_witness :
  calls (trace (main no_zone_environ no_dns_args one_file fresh_api
                     plain_classes insertion_order))
  = [GetTunnelConfiguration;
     UpdateTunnelConfiguration (build_cloudflare_config [route_a])].
Proof.
  destruct (main_no_dns_makes_no_dns_request
              no_zone_environ no_dns_args one_file fresh_api plain_classes
              insertion_order) as [_ H].
  - reflexivity.
  - rewrite H; reflexivity.
Defined.

End MainExtras.
